(** * drive_time: a shallow embedding of [drive_time.py]

    The script queries a directions service for the driving time between two
    addresses, keeps a pair of default addresses in a JSON file, and prints
    the current (and optionally a future) ETA.

    The embedding follows the script function by function.  Python values
    are an inductive type, exceptions are data, and the effects of the
    script (the defaults file, standard input and output, the requests sent
    to the directions service) are threaded through a state-and-exception
    monad over a [world] record.  Floating point numbers are IEEE 754
    binary64 values, computed with the Standard Library's executable
    specification [SpecFloat].

    The creation of the directions client when the module is loaded (the
    credential check and the probe request, which end the process on
    failure) comes before [main]: [main] runs with a client at hand.  It
    is embedded on its own, in [Startup].

    [main] sees the defaults file through the value it holds.  The two
    functions of the preference store are embedded a second time in
    [Store], over the text of the file as the json library writes and
    reads it, with strings as sequences of code points. *)

From Stdlib Require Import ZArith String Ascii List Bool Lia.
From Stdlib Require Import Floats.SpecFloat.
Import ListNotations.
Open Scope string_scope.
Open Scope Z_scope.
Set Warnings "-register-all".

(** ** Python values and exceptions *)

Module Py.

(** binary64: 53 bits of precision, exponents below 1024. *)
Definition prec : Z := 53.
Definition emax : Z := 1024.

Definition float := spec_float.

(** The values the script handles: what [json.load] and the directions
    client return (None, booleans, integers, floats, strings, lists and
    dictionaries with string keys, in insertion order). *)
Inductive val : Type :=
| VNone
| VBool (b : bool)
| VInt (z : Z)
| VFloat (f : float)
| VStr (s : string)
| VList (l : list val)
| VDict (d : list (string * val)).

(** Exception classes the script can meet.  All of them derive from
    [Exception]; [LibraryError] stands for the classes of third-party
    libraries (the directions client's ApiError, TransportError, ...). *)
Inductive exn_class : Type :=
| IndexError | KeyError | TypeError | AttributeError | ValueError
| ZeroDivisionError | OverflowError | EOFError
| FileNotFoundError | PermissionError
| UnicodeDecodeError | JSONDecodeError | RecursionError
| IsADirectoryError | NotADirectoryError
| LibraryError (name : string).

(** An exception: its class and the text of [str(e)]. *)
Record exn : Type := Exn { exn_cls : exn_class; exn_str : string }.

Inductive outcome (A : Type) : Type :=
| Ok (a : A)
| Raise (e : exn).
Arguments Ok {A} a.
Arguments Raise {A} e.

Definition obind {A B} (o : outcome A) (k : A -> outcome B) : outcome B :=
  match o with
  | Ok a => k a
  | Raise e => Raise e
  end.

(** [type(v).__name__], as it appears in error messages. *)
Definition type_name (v : val) : string :=
  match v with
  | VNone => "NoneType"
  | VBool _ => "bool"
  | VInt _ => "int"
  | VFloat _ => "float"
  | VStr _ => "str"
  | VList _ => "list"
  | VDict _ => "dict"
  end.

(** ** Strings

    A string is a sequence of characters with code points below 256.  The
    one character of the script above that range, the arrow of its
    f-strings, is kept as the bytes of the source file. *)

(** [c.isspace()] for code points below 256. *)
Definition isspace (c : ascii) : bool :=
  let n := Z.of_nat (nat_of_ascii c) in
  ((9 <=? n) && (n <=? 13)) || ((28 <=? n) && (n <=? 32))
  || (n =? 133) || (n =? 160).

Fixpoint lstrip (s : string) : string :=
  match s with
  | String c r => if isspace c then lstrip r else s
  | EmptyString => EmptyString
  end.

Fixpoint all_space (s : string) : bool :=
  match s with
  | String c r => isspace c && all_space r
  | EmptyString => true
  end.

Fixpoint rstrip (s : string) : string :=
  match s with
  | String c r => if all_space s then EmptyString else String c (rstrip r)
  | EmptyString => EmptyString
  end.

(** [s.strip()] *)
Definition strip (s : string) : string := rstrip (lstrip s).

(** [s.split()]: the maximal runs of non-whitespace characters.  [cur] is
    the run being read, in reverse. *)
Definition rev_string (l : list ascii) : string :=
  fold_left (fun acc c => String c acc) l EmptyString.

Fixpoint split_aux (s : string) (cur : list ascii) : list string :=
  match s with
  | EmptyString =>
      match cur with [] => [] | _ => [rev_string cur] end
  | String c r =>
      if isspace c
      then match cur with
           | [] => split_aux r []
           | _ => rev_string cur :: split_aux r []
           end
      else split_aux r (c :: cur)
  end.

Definition split (s : string) : list string := split_aux s [].

Fixpoint is_prefix (p s : string) : bool :=
  match p, s with
  | EmptyString, _ => true
  | String a p', String b s' => Ascii.eqb a b && is_prefix p' s'
  | String _ _, EmptyString => false
  end.

(** [needle in hay] *)
Fixpoint contains (needle hay : string) : bool :=
  is_prefix needle hay ||
  match hay with
  | EmptyString => false
  | String _ r => contains needle r
  end.

(** [repr(s)].  The quotes are single ones, unless the string holds a
    single quote and no double one.  The quote character and the backslash
    are escaped by a backslash, tab, newline and carriage return are written
    with their letter, every other character that is not printable as
    [\xNN] with two lower-case hexadecimal digits. *)
Definition double_quote : ascii := ascii_of_nat 34.
Definition backslash : ascii := ascii_of_nat 92.

Definition hex_digit (n : Z) : ascii :=
  ascii_of_nat (Z.to_nat (if n <? 10 then 48 + n else 87 + n)).

(** [c.isprintable()] for code points below 256. *)
Definition isprintable (c : ascii) : bool :=
  let n := Z.of_nat (nat_of_ascii c) in
  ((32 <=? n) && (n <=? 126)) || ((161 <=? n) && negb (n =? 173)).

Definition repr_char (quote c : ascii) : string :=
  let n := Z.of_nat (nat_of_ascii c) in
  if Ascii.eqb c quote || Ascii.eqb c backslash
  then String backslash (String c EmptyString)
  else if n =? 9 then String backslash "t"
  else if n =? 10 then String backslash "n"
  else if n =? 13 then String backslash "r"
  else if isprintable c then String c EmptyString
  else String backslash
         (String "x"
            (String (hex_digit (n / 16))
               (String (hex_digit (n mod 16)) EmptyString))).

Fixpoint has_char (c : ascii) (s : string) : bool :=
  match s with
  | String a r => Ascii.eqb a c || has_char c r
  | EmptyString => false
  end.

Fixpoint repr_body (quote : ascii) (s : string) : string :=
  match s with
  | String c r => repr_char quote c ++ repr_body quote r
  | EmptyString => EmptyString
  end.

Definition repr_quote (s : string) : ascii :=
  if has_char "'" s && negb (has_char double_quote s)
  then double_quote else "'"%char.

Definition repr_str (s : string) : string :=
  String (repr_quote s)
    (repr_body (repr_quote s) s ++ String (repr_quote s) EmptyString).

(** ** Subscripting *)

Fixpoint lookup (k : string) (d : list (string * val)) : option val :=
  match d with
  | [] => None
  | (k', v) :: r => if String.eqb k k' then Some v else lookup k r
  end.

Definition not_subscriptable (v : val) : exn :=
  Exn TypeError ("'" ++ type_name v ++ "' object is not subscriptable").

(** [v[k]] for a string key [k]. *)
Definition getitem (v : val) (k : string) : outcome val :=
  match v with
  | VDict d =>
      match lookup k d with
      | Some x => Ok x
      | None => Raise (Exn KeyError (repr_str k))
      end
  | VList _ =>
      Raise (Exn TypeError "list indices must be integers or slices, not str")
  | VStr _ =>
      Raise (Exn TypeError "string indices must be integers, not 'str'")
  | _ => Raise (not_subscriptable v)
  end.

(** [v[0]] *)
Definition getitem0 (v : val) : outcome val :=
  match v with
  | VList (x :: _) => Ok x
  | VList [] => Raise (Exn IndexError "list index out of range")
  | VStr (String c _) => Ok (VStr (String c EmptyString))
  | VStr EmptyString => Raise (Exn IndexError "string index out of range")
  | VDict _ => Raise (Exn KeyError "0")
  | _ => Raise (not_subscriptable v)
  end.

(** ** Numbers *)

Definition fzero : float := S754_zero false.

(** The integer [z] as an exact operand of a correctly rounded
    operation (its significand is not yet rounded to 53 bits). *)
Definition exact (z : Z) : float :=
  match z with
  | Z0 => S754_zero false
  | Zpos p => S754_finite false p 0
  | Zneg p => S754_finite true p 0
  end.

Definition is_inf (x : float) : bool :=
  match x with S754_infinity _ => true | _ => false end.

(** [a / b] on two integers: the correctly rounded quotient. *)
Definition int_truediv (a b : Z) : outcome float :=
  if b =? 0 then Raise (Exn ZeroDivisionError "division by zero")
  else
    let q := SFdiv prec emax (exact a) (exact b) in
    if is_inf q
    then Raise (Exn OverflowError
                  "integer division result too large for a float")
    else Ok q.

(** [float(z)] on an integer. *)
Definition float_of_int (z : Z) : outcome float :=
  let x := binary_normalize prec emax z 0 false in
  if is_inf x
  then Raise (Exn OverflowError "int too large to convert to float")
  else Ok x.

Definition is_fzero (x : float) : bool :=
  match x with S754_zero _ => true | _ => false end.

(** [x / y] on two floats. *)
Definition float_truediv (x y : float) : outcome float :=
  if is_fzero y then Raise (Exn ZeroDivisionError "float division by zero")
  else Ok (SFdiv prec emax x y).

Definition unsupported (op : string) (a b : val) : exn :=
  Exn TypeError ("unsupported operand type(s) for " ++ op ++ ": '"
                 ++ type_name a ++ "' and '" ++ type_name b ++ "'").

Definition Z_of_bool (b : bool) : Z := if b then 1 else 0.

(** A number: an integer (booleans count as 0 and 1) or a float. *)
Definition number (v : val) : option (Z + float) :=
  match v with
  | VInt z => Some (inl z)
  | VBool b => Some (inl (Z_of_bool b))
  | VFloat x => Some (inr x)
  | _ => None
  end.

Definition as_float (n : Z + float) : outcome float :=
  match n with
  | inl z => float_of_int z
  | inr x => Ok x
  end.

(** [a / b]: correctly rounded on two integers, in floats otherwise. *)
Definition truediv (a b : val) : outcome val :=
  match number a, number b with
  | Some (inl x), Some (inl y) =>
      obind (int_truediv x y) (fun q => Ok (VFloat q))
  | Some x, Some y =>
      obind (as_float x) (fun fx =>
      obind (as_float y) (fun fy =>
      obind (float_truediv fx fy) (fun q => Ok (VFloat q))))
  | _, _ => Raise (unsupported "/" a b)
  end.

(** [a + b] on numbers. *)
Definition add (a b : val) : outcome val :=
  match number a, number b with
  | Some (inl x), Some (inl y) => Ok (VInt (x + y))
  | Some x, Some y =>
      obind (as_float x) (fun fx =>
      obind (as_float y) (fun fy => Ok (VFloat (SFadd prec emax fx fy))))
  | _, _ => Raise (unsupported "+" a b)
  end.

(** [a > 0] *)
Definition gt0 (a : val) : outcome bool :=
  match a with
  | VInt x => Ok (0 <? x)
  | VBool x => Ok x
  | VFloat x => Ok (SFltb fzero x)
  | _ =>
      Raise (Exn TypeError ("'>' not supported between instances of '"
                            ++ type_name a ++ "' and 'int'"))
  end.

(** Rounding of the rational [n / 2^k] to the nearest integer, ties to
    even ([n >= 0]). *)
Definition round_half_even (n : Z) (k : Z) : Z :=
  let den := 2 ^ k in
  let q := n / den in
  let r := n mod den in
  match 2 * r ?= den with
  | Lt => q
  | Gt => q + 1
  | Eq => if Z.even q then q else q + 1
  end.

(** The number of tenths nearest to the magnitude of a finite float
    [m * 2^e]: its exact value, times ten, rounded half to even. *)
Definition tenths (m : positive) (e : Z) : Z :=
  if 0 <=? e then 10 * Zpos m * 2 ^ e
  else round_half_even (10 * Zpos m) (- e).

(** [round(x, 1)] on a float: the decimal with one digit after the point
    that is nearest to the exact value of [x] (ties to even), converted
    back to the nearest float. *)
Definition round1 (x : float) : float :=
  match x with
  | S754_finite s m e =>
      let d := tenths m e in
      if d =? 0 then S754_zero s
      else SFdiv prec emax (exact (if s then - d else d)) (exact 10)
  | _ => x
  end.

(** [round(v, 1)] *)
Definition round_1 (v : val) : outcome val :=
  match v with
  | VFloat x => Ok (VFloat (round1 x))
  | VInt z => Ok (VInt z)
  | VBool b => Ok (VInt (Z_of_bool b))
  | _ =>
      Raise (Exn TypeError ("type " ++ type_name v
                            ++ " doesn't define __round__ method"))
  end.

(** [bool(v)] *)
Definition truthy (v : val) : bool :=
  match v with
  | VNone => false
  | VBool b => b
  | VInt z => negb (z =? 0)
  | VFloat x => negb (is_fzero x)
  | VStr s => negb (String.eqb s EmptyString)
  | VList l => match l with [] => false | _ => true end
  | VDict d => match d with [] => false | _ => true end
  end.

(** ** [float(s)] on a string *)

Definition is_digit (c : ascii) : bool :=
  let n := Z.of_nat (nat_of_ascii c) in (48 <=? n) && (n <=? 57).

Definition digit_val (c : ascii) : Z := Z.of_nat (nat_of_ascii c) - 48.

(** Underscores may group digits: each one stands between two digits.
    [prev] tells whether the previous character was a digit, [und]
    whether it was an underscore. *)
Fixpoint drop_underscores (s : string) (prev und : bool) : option string :=
  match s with
  | EmptyString => if und then None else Some EmptyString
  | String c r =>
      if Ascii.eqb c "_"
      then if prev then drop_underscores r false true else None
      else if und && negb (is_digit c) then None
      else option_map (String c) (drop_underscores r (is_digit c) false)
  end.

(** A run of digits: its value continuing [acc], how many were read, and
    the rest of the string. *)
Fixpoint read_digits (s : string) (acc : Z) (n : Z) : Z * Z * string :=
  match s with
  | String c r =>
      if is_digit c then read_digits r (10 * acc + digit_val c) (n + 1)
      else (acc, n, s)
  | EmptyString => (acc, n, s)
  end.

Definition lower (c : ascii) : ascii :=
  let n := nat_of_ascii c in
  if (65 <=? Z.of_nat n) && (Z.of_nat n <=? 90)
  then ascii_of_nat (n + 32) else c.

Fixpoint lowercase (s : string) : string :=
  match s with
  | String c r => String (lower c) (lowercase r)
  | EmptyString => EmptyString
  end.

Definition read_sign (s : string) : bool * string :=
  match s with
  | String c r =>
      if Ascii.eqb c "-" then (true, r)
      else if Ascii.eqb c "+" then (false, r)
      else (false, s)
  | EmptyString => (false, s)
  end.

(** The float nearest to [m * 10^e10], with sign [neg] ([m >= 0]). *)
Definition decimal_to_float (neg : bool) (m e10 : Z) : float :=
  if m =? 0 then S754_zero neg
  else
    let sm := if neg then - m else m in
    if 0 <=? e10 then binary_normalize prec emax (sm * 10 ^ e10) 0 false
    else SFdiv prec emax (exact sm) (exact (10 ^ (- e10))).

(** The optional exponent part and the end of the literal. *)
Definition read_exponent (s : string) : option Z :=
  match s with
  | EmptyString => Some 0
  | String c r =>
      if Ascii.eqb (lower c) "e"
      then let '(eneg, r1) := read_sign r in
           let '(ev, en, r2) := read_digits r1 0 0 in
           if (0 <? en) && String.eqb r2 EmptyString
           then Some (if eneg then - ev else ev)
           else None
      else None
  end.

Definition parse_float (s : string) : option float :=
  match drop_underscores s false false with
  | None => None
  | Some t =>
      let '(neg, body) := read_sign t in
      let word := lowercase body in
      if String.eqb word "inf" || String.eqb word "infinity"
      then Some (S754_infinity neg)
      else if String.eqb word "nan" then Some S754_nan
      else
        let '(iv, ic, r1) := read_digits body 0 0 in
        let '(mv, fc, r2) :=
          match r1 with
          | String c r =>
              if Ascii.eqb c "."
              then let '(v, n, r') := read_digits r iv 0 in (v, n, r')
              else (iv, 0, r1)
          | EmptyString => (iv, 0, r1)
          end in
        if 0 <? ic + fc
        then option_map (fun e => decimal_to_float neg mv (e - fc))
                        (read_exponent r2)
        else None
  end.

(** The whitespace [float] trims from both ends of a string: that of
    [isspace] without the four separators U+001C to U+001F. *)
Definition float_space (c : ascii) : bool :=
  let n := Z.of_nat (nat_of_ascii c) in
  isspace c && negb ((28 <=? n) && (n <=? 31)).

Fixpoint float_lstrip (s : string) : string :=
  match s with
  | String c r => if float_space c then float_lstrip r else s
  | EmptyString => EmptyString
  end.

Fixpoint all_float_space (s : string) : bool :=
  match s with
  | String c r => float_space c && all_float_space r
  | EmptyString => true
  end.

Fixpoint float_rstrip (s : string) : string :=
  match s with
  | String c r =>
      if all_float_space s then EmptyString else String c (float_rstrip r)
  | EmptyString => EmptyString
  end.

Definition float_strip (s : string) : string :=
  float_rstrip (float_lstrip s).

(** [float(v)] *)
Definition to_float (v : val) : outcome float :=
  match v with
  | VStr s =>
      match parse_float (float_strip s) with
      | Some x => Ok x
      | None =>
          Raise (Exn ValueError
                   ("could not convert string to float: " ++ repr_str s))
      end
  | VInt z => float_of_int z
  | VBool b => float_of_int (Z_of_bool b)
  | VFloat x => Ok x
  | _ =>
      Raise (Exn TypeError
               ("float() argument must be a string or a real number, not '"
                ++ type_name v ++ "'"))
  end.

End Py.

(** ** The world of the script *)

Module DriveTime.
Import Py.

(** Configuration: [~] stands for [Path.home()]. *)
Definition CONFIG_DIR : string := "~/.config/drive_time".
Definition DEFAULTS_FILE : string := CONFIG_DIR ++ "/defaults.json".

(** What is found at [DEFAULTS_FILE], as far as a run of [main] can
    tell.  A file holding the text of a JSON document is described by the
    value [json.load] returns for it, and [json.dump] leaves a document
    for which [json.load] returns the value written: for the strings of
    this embedding that is proved of the text itself in [StoreProofs]
    ([plain_strings_round_trip]).  [Locked] is a file the user may
    neither read nor write.  The other failures of opening and of
    [json.load] (a directory at the path, permissions that differ for
    reading and writing, a document with an integer too long for [int] or
    nested too deep) are those of the [Store] module, which has the
    file's text and permissions. *)
Inductive file_state : Type :=
| Missing                        (* no file at the path *)
| Locked                         (* a file the user may not open *)
| Undecodable (reason : string)  (* bytes that are not text *)
| Malformed (reason : string)    (* text that is not a JSON document *)
| Document (v : val).            (* the text of a JSON document *)

(** A request to the directions service: [mode] is always "driving" and
    [traffic_model] always "best_guess". *)
Record request : Type := Request {
  req_origin : val;
  req_destination : val;
  req_departure_time : Z
}.

(** Formatted output: a printed line is the sequence of the pieces of its
    f-string. *)
Definition datetime := Z.

Inductive piece : Type :=
| Lit (s : string)       (* literal text *)
| Str (v : val)          (* {v} *)
| Fixed1 (v : val)       (* {v:.1f} *)
| Clock (t : datetime).  (* {t.strftime('%-I:%M %p')} *)

Inductive output : Type :=
| Print (line : list piece)
| Prompt (text : string)
| Help.                          (* parser.print_help() *)

Record world : Type := World {
  defaults_file : file_state;
  stdin : list string;           (* the lines still to be read *)
  stdout : list output;          (* what was written, oldest first *)
  requests : list request        (* the requests sent, oldest first *)
}.

(** What the script reads from outside: the directions client (its answer
    may depend on the requests made before), the clock, and the datetime
    library. *)
Record env : Type := Env {
  gmaps_directions : list request -> request -> outcome val;
  time_time : Z;                                  (* int(time.time()) *)
  datetime_now : datetime;                        (* datetime.now() *)
  plus_minutes : datetime -> val -> outcome datetime
                        (* t + datetime.timedelta(minutes=m) *)
}.

(** ** The monad: state passing with exceptions *)

Definition M (A : Type) : Type := world -> outcome A * world.

Definition ret {A} (a : A) : M A := fun w => (Ok a, w).

Definition raise {A} (e : exn) : M A := fun w => (Raise e, w).

Definition bind {A B} (m : M A) (k : A -> M B) : M B :=
  fun w =>
    match m w with
    | (Ok a, w') => k a w'
    | (Raise e, w') => (Raise e, w')
    end.

Definition lift {A} (o : outcome A) : M A := fun w => (o, w).

(** [try: m  except Exception as e: h e] *)
Definition try_except {A} (m : M A) (h : exn -> M A) : M A :=
  fun w =>
    match m w with
    | (Ok a, w') => (Ok a, w')
    | (Raise e, w') => h e w'
    end.

Declare Scope py_scope.
Delimit Scope py_scope with py.
Notation "x <- m ;; k" := (bind m (fun x => k))
  (at level 61, m at next level, right associativity) : py_scope.
Notation "' p <- m ;; k" := (bind m (fun x => let 'p := x in k))
  (at level 61, p pattern, m at next level, right associativity) : py_scope.
Notation "m ;; k" := (bind m (fun _ => k))
  (at level 61, right associativity) : py_scope.
Open Scope py_scope.

(** Writing to standard output, which is taken to accept every
    character (the arrow of the confirmation and route lines included). *)
Definition write (o : output) : M unit :=
  fun w => (Ok tt, World (defaults_file w) (stdin w) (stdout w ++ [o])
                         (requests w)).

Definition print (line : list piece) : M unit := write (Print line).

(** [input(prompt)] *)
Definition input (prompt : string) : M string :=
  write (Prompt prompt) ;;
  fun w =>
    match stdin w with
    | l :: rest =>
        (Ok l, World (defaults_file w) rest (stdout w) (requests w))
    | [] => (Raise (Exn EOFError "EOF when reading a line"), w)
    end.

(** ** The script *)

(** [gmaps.directions(origin, destination, mode="driving",
    departure_time=depart_epoch, traffic_model="best_guess")] *)
Definition directions (E : env) (origin destination : val)
    (depart_epoch : Z) : M val :=
  fun w =>
    let q := Request origin destination depart_epoch in
    (gmaps_directions E (requests w) q,
     World (defaults_file w) (stdin w) (stdout w) (requests w ++ [q])).

(** [result[0]["legs"][0]] *)
Definition first_leg (result : val) : outcome val :=
  obind (getitem0 result) (fun route =>
  obind (getitem route "legs") (fun legs =>
  getitem0 legs)).

(** The fields [eta_minutes] reads from a leg, and the tuple it builds. *)
Definition leg_summary (leg : val) : outcome (val * val * val * val) :=
  obind (getitem leg "duration_in_traffic") (fun dit =>
  obind (getitem dit "value") (fun seconds =>
  obind (getitem leg "start_address") (fun formatted_origin =>
  obind (getitem leg "end_address") (fun formatted_destination =>
  obind (getitem leg "distance") (fun dist =>
  obind (getitem dist "text") (fun distance =>
  obind (truediv seconds (VInt 60)) (fun minutes =>
  obind (round_1 minutes) (fun rounded =>
  Ok (rounded, formatted_origin, formatted_destination, distance))))))))).

Definition eta_minutes (E : env) (origin destination : val)
    (depart_epoch : Z) : M (val * val * val * val) :=
  result <- directions E origin destination depart_epoch ;;
  leg <- lift (first_leg result) ;;
  lift (leg_summary leg).

(** [open(DEFAULTS_FILE, 'r')] followed by [json.load(f)] *)
Definition read_defaults_file : M val :=
  fun w =>
    match defaults_file w with
    | Missing =>
        (Raise (Exn FileNotFoundError
                  ("[Errno 2] No such file or directory: "
                   ++ repr_str DEFAULTS_FILE)), w)
    | Locked =>
        (Raise (Exn PermissionError
                  ("[Errno 13] Permission denied: "
                   ++ repr_str DEFAULTS_FILE)), w)
    | Undecodable reason => (Raise (Exn UnicodeDecodeError reason), w)
    | Malformed reason => (Raise (Exn JSONDecodeError reason), w)
    | Document v => (Ok v, w)
    end.

Definition load_defaults : M val :=
  try_except read_defaults_file
    (fun e =>
       match exn_cls e with
       | FileNotFoundError | JSONDecodeError => ret VNone
       | _ => raise e
       end).

(** [CONFIG_DIR.mkdir(parents=True, exist_ok=True)], then
    [open(DEFAULTS_FILE, 'w')] and [json.dump(v, f)] *)
Definition write_defaults_file (v : val) : M unit :=
  fun w =>
    match defaults_file w with
    | Locked =>
        (Raise (Exn PermissionError
                  ("[Errno 13] Permission denied: "
                   ++ repr_str DEFAULTS_FILE)), w)
    | _ => (Ok tt, World (Document v) (stdin w) (stdout w) (requests w))
    end.

Definition save_defaults (origin destination : val) : M unit :=
  write_defaults_file
    (VDict [("origin", origin); ("destination", destination)]).

Definition get_addresses : M (val * val) :=
  defaults <- load_defaults ;;
  if negb (truthy defaults) then
    print [Lit "No default addresses found. Please provide addresses."] ;;
    origin <- input "Enter origin address or 'lat,lng': " ;;
    destination <- input "Enter destination address or 'lat,lng': " ;;
    ret (VStr (strip origin), VStr (strip destination))
  else
    origin <- lift (getitem defaults "origin") ;;
    destination <- lift (getitem defaults "destination") ;;
    ret (origin, destination).

(** The parsed command line, as [parser.parse_args()] returns it: two
    optional positional arguments, [-f/--future N] and [-d/--defaults].
    The parsing itself, which ends the process on a malformed command
    line or on [--help], comes before this embedding of [main]. *)
Record args : Type := Args {
  origin : option string;
  destination : option string;
  future : option Z;
  defaults : bool
}.

(** [float(distance.split()[0])] *)
Definition leading_number (distance : val) : outcome val :=
  match distance with
  | VStr s =>
      match split s with
      | tok :: _ => obind (to_float (VStr tok)) (fun x => Ok (VFloat x))
      | [] => Raise (Exn IndexError "list index out of range")
      end
  | _ =>
      Raise (Exn AttributeError
               ("'" ++ type_name distance
                ++ "' object has no attribute 'split'"))
  end.

(** [hours = eta / 60] and
    [avg_speed = distance_mi / hours if hours > 0 else 0] *)
Definition avg_speed (distance_mi eta : val) : outcome val :=
  obind (truediv eta (VInt 60)) (fun hours =>
  obind (gt0 hours) (fun moving =>
  if moving then truediv distance_mi hours else Ok (VInt 0))).

(** The part of [main] under [try]. *)
Definition query_and_report (E : env) (origin destination : val)
    (future : option Z) : M unit :=
  let now := time_time E in
  '(current_eta, formatted_origin, formatted_destination, distance) <-
    eta_minutes E origin destination now ;;
  let origin := formatted_origin in
  let destination := formatted_destination in
  distance_mi <- lift (leading_number distance) ;;
  speed <- lift (avg_speed distance_mi current_eta) ;;
  let current_time := datetime_now E in
  arrival_time <- lift (plus_minutes E current_time current_eta) ;;
  print [Lit "Route: "; Str formatted_origin; Lit " → ";
         Str formatted_destination; Lit " ("; Str distance; Lit ")"] ;;
  print [Lit "Current ETA: "; Clock arrival_time; Lit " (";
         Fixed1 current_eta; Lit " min, "; Fixed1 distance_mi; Lit " mi @ ";
         Fixed1 speed; Lit " mph)"] ;;
  match future with
  | None => ret tt
  | Some n =>
      let future_epoch := now + n * 60 in
      '(future_eta, _, _, future_distance) <-
        eta_minutes E origin destination future_epoch ;;
      future_distance_mi <- lift (leading_number future_distance) ;;
      future_avg_speed <- lift (avg_speed future_distance_mi future_eta) ;;
      offset <- lift (add (VInt n) future_eta) ;;
      future_arrival <- lift (plus_minutes E current_time offset) ;;
      print [Lit "ETA in "; Str (VInt n); Lit " min: ";
             Clock future_arrival; Lit " ("; Fixed1 future_eta;
             Lit " min, "; Fixed1 future_distance_mi; Lit " mi @ ";
             Fixed1 future_avg_speed; Lit " mph)"]
  end.

(** The [except Exception as e] clause of [main]. *)
Definition report_error (e : exn) : M unit :=
  print [Lit "Error: "; Lit (exn_str e)] ;;
  if contains "ZERO_RESULTS" (exn_str e)
  then print [Lit "No route found between the specified addresses."]
  else ret tt.

(** The first part of [main]: the addresses to use, or [None] when
    [main] returns at once. *)
Definition resolve_addresses (a : args) : M (option (val * val)) :=
  match origin a, destination a with
  | Some o, Some d => ret (Some (VStr o, VStr d))
  | _, _ =>
      if defaults a then
        print [Lit "Error: Must provide addresses when using --defaults"] ;;
        write Help ;;
        ret None
      else
        p <- get_addresses ;; ret (Some p)
  end.

Definition main (E : env) (a : args) : M unit :=
  r <- resolve_addresses a ;;
  match r with
  | None => ret tt
  | Some (origin, destination) =>
      (if defaults a then
         save_defaults origin destination ;;
         print [Lit "Saved default addresses: "; Str origin; Lit " → ";
                Str destination]
       else ret tt) ;;
      try_except (query_and_report E origin destination (future a))
                 report_error
  end.

End DriveTime.

(** ** Start of the script *)

Module Startup.
Import Py DriveTime.

(** What the start of the script reads from outside: the value of
    [os.getenv("GOOGLE_MAPS_API_KEY")] once [load_dotenv()] has run, the
    constructor [googlemaps.Client(key=...)], which may raise, and the
    outcome of the probe [gmaps.geocode('Test', timeout=2)]. *)
Record setup : Type := Setup {
  api_key : option string;
  new_client : string -> outcome unit;
  geocode_probe : outcome val
}.

(** How a piece of the script ends: it returns, an exception leaves it,
    or [sys.exit(status)] ends the process (SystemExit is not an
    [Exception]: an [except Exception] clause lets it through). *)
Inductive ending (A : Type) : Type :=
| Returned (a : A)
| Raised (e : exn)
| Exited (status : Z).
Arguments Returned {A} a.
Arguments Raised {A} e.
Arguments Exited {A} status.

Definition P (A : Type) : Type := world -> ending A * world.

(** Printing [lines], then [sys.exit(1)]. *)
Definition print_and_exit {A} (lines : list (list piece)) : P A :=
  fun w =>
    (Exited 1,
     World (defaults_file w) (stdin w) (stdout w ++ map Print lines)
           (requests w)).

(** [not api_key] *)
Definition key_missing (k : option string) : bool :=
  match k with
  | None => true
  | Some s => negb (truthy (VStr s))
  end.

Definition get_gmaps_client (S : setup) : P unit :=
  fun w =>
    let api_key := api_key S in
    if key_missing api_key then
      print_and_exit
        [[Lit "Error: GOOGLE_MAPS_API_KEY environment variable not found."];
         [Lit "Please set it in your .env file or environment variables."];
         [Lit "You can get an API key from: https://developers.google.com/maps/documentation/directions/get-api-key"]]
        w
    else
      match new_client S (match api_key with
                          | Some k => k
                          | None => EmptyString
                          end) with
      | Ok c => (Returned c, w)
      | Raise e =>
          print_and_exit
            [[Lit "Error initializing Google Maps client: ";
              Lit (exn_str e)];
             [Lit "Please check your API key and ensure it's valid."]]
            w
      end.

(** The statements run when the module is loaded: [load_dotenv()], then
    the [try] block that creates the client and probes the service. *)
Definition module_init (S : setup) : P unit :=
  fun w =>
    let failed (e : exn) :=
      print_and_exit
        [[Lit "Error: Failed to connect to Google Maps API: ";
          Lit (exn_str e)];
         [Lit "Please check your internet connection and API key permissions."]]
    in
    match get_gmaps_client S w with
    | (Returned gmaps, w1) =>
        match geocode_probe S with
        | Ok _ => (Returned gmaps, w1)
        | Raise e => failed e w1
        end
    | (Raised e, w1) => failed e w1
    | (Exited status, w1) => (Exited status, w1)
    end.

(** The script run as a program: the module is loaded, then
    [if __name__ == "__main__": main()]. *)
Definition script (S : setup) (E : env) (a : args) : P unit :=
  fun w =>
    match module_init S w with
    | (Returned _, w1) =>
        match main E a w1 with
        | (Ok r, w2) => (Returned r, w2)
        | (Raise e, w2) => (Raised e, w2)
        end
    | (Raised e, w1) => (Raised e, w1)
    | (Exited status, w1) => (Exited status, w1)
    end.

End Startup.

(** ** The preference store in detail

    [DriveTime] describes the defaults file by the value it denotes.  Here
    the file holds text and has permissions: [save_defaults] writes what
    [json.dump] writes and [load_defaults] reads it with the decoder of
    [json.load] (CPython's, with its C scanner).  A Python string is a
    sequence of code points. *)

Module Json.
Import Py.
Local Open Scope list_scope.

(** A Python [str]: its code points, 0 to 0x10FFFF, the surrogates
    U+D800 to U+DFFF included. *)
Definition ustr : Type := list Z.

Fixpoint codes (s : string) : ustr :=
  match s with
  | String c r => Z.of_nat (nat_of_ascii c) :: codes r
  | EmptyString => []
  end.

Fixpoint text_of (s : ustr) : string :=
  match s with
  | c :: r => String (ascii_of_nat (Z.to_nat c)) (text_of r)
  | [] => EmptyString
  end.

(** What [json.load] returns. *)
Inductive jval : Type :=
| JNull
| JBool (b : bool)
| JInt (z : Z)
| JFloat (x : float)
| JStr (s : ustr)
| JList (l : list jval)
| JDict (d : list (ustr * jval)).

(** *** [json.dump]: strings with [ensure_ascii] *)

Definition hex_char (n : Z) : Z := if n <? 10 then 48 + n else 87 + n.

(** ['\\u{0:04x}'.format(n)] *)
Definition u_escape (n : Z) : ustr :=
  [92; 117; hex_char (n / 4096 mod 16); hex_char (n / 256 mod 16);
   hex_char (n / 16 mod 16); hex_char (n mod 16)].

(** The replacement of one character: the quote, the backslash and five
    control characters have a two-character escape, the other printable
    ASCII characters stand for themselves, every other character of the
    basic plane is written [\uXXXX] and a character beyond it as the two
    surrogates of its UTF-16 form. *)
Definition escape (c : Z) : ustr :=
  if c =? 34 then [92; 34]
  else if c =? 92 then [92; 92]
  else if c =? 10 then [92; 110]
  else if c =? 13 then [92; 114]
  else if c =? 9 then [92; 116]
  else if c =? 12 then [92; 102]
  else if c =? 8 then [92; 98]
  else if (32 <=? c) && (c <=? 126) then [c]
  else if c <? 65536 then u_escape c
  else
    let n := c - 65536 in
    u_escape (Z.lor 55296 (Z.land (Z.shiftr n 10) 1023))
    ++ u_escape (Z.lor 56320 (Z.land n 1023)).

Fixpoint escape_all (s : ustr) : ustr :=
  match s with
  | c :: r => escape c ++ escape_all r
  | [] => []
  end.

Definition encode_basestring_ascii (s : ustr) : ustr :=
  34 :: escape_all s ++ [34].

(** The members of a dictionary of strings, separated by [", "], each
    key separated from its value by [": "]. *)
Fixpoint dump_members (d : list (ustr * ustr)) : ustr :=
  match d with
  | [] => []
  | [(k, v)] =>
      encode_basestring_ascii k ++ codes ": " ++ encode_basestring_ascii v
  | (k, v) :: r =>
      encode_basestring_ascii k ++ codes ": " ++ encode_basestring_ascii v
      ++ codes ", " ++ dump_members r
  end.

(** [json.dumps(d)] for a dictionary [d] whose keys and values are
    strings. *)
Definition dumps (d : list (ustr * ustr)) : ustr :=
  codes "{" ++ dump_members d ++ codes "}".

(** *** [json.load]: the decoder *)

(** Why decoding fails: the text is not a JSON document
    (json.JSONDecodeError), [int] or [float] refuses the characters of
    a number (ValueError: an integer with more digits than [int]
    converts), or the containers are nested deeper than the
    interpreter's stack allows (RecursionError). *)
Inductive error : Type := Invalid | Value | Depth.

Inductive result (A : Type) : Type :=
| Done (a : A)
| Err (e : error).
Arguments Done {A} a.
Arguments Err {A} e.

Definition is_ws (c : Z) : bool :=
  (c =? 32) || (c =? 9) || (c =? 10) || (c =? 13).

Fixpoint skip_ws (s : ustr) : ustr :=
  match s with
  | c :: r => if is_ws c then skip_ws r else s
  | [] => []
  end.

Definition unhex (c : Z) : option Z :=
  if (48 <=? c) && (c <=? 57) then Some (c - 48)
  else if (97 <=? c) && (c <=? 102) then Some (c - 87)
  else if (65 <=? c) && (c <=? 70) then Some (c - 55)
  else None.

Definition unhex4 (a b c d : Z) : option Z :=
  match unhex a, unhex b, unhex c, unhex d with
  | Some x, Some y, Some z, Some t => Some (((x * 16 + y) * 16 + z) * 16 + t)
  | _, _, _, _ => None
  end.

Definition is_high (c : Z) : bool := (55296 <=? c) && (c <=? 56319).
Definition is_low (c : Z) : bool := (56320 <=? c) && (c <=? 57343).

(** The character two surrogates stand for. *)
Definition join (hi lo : Z) : Z :=
  65536 + Z.lor (Z.shiftl (hi - 55296) 10) (lo - 56320).

(** The character after a backslash, other than [u]. *)
Definition unescape (e : Z) : option Z :=
  if e =? 34 then Some 34
  else if e =? 92 then Some 92
  else if e =? 47 then Some 47
  else if e =? 98 then Some 8
  else if e =? 102 then Some 12
  else if e =? 110 then Some 10
  else if e =? 114 then Some 13
  else if e =? 116 then Some 9
  else None.

Definition push (c : Z) (r : option (ustr * ustr)) : option (ustr * ustr) :=
  match r with
  | Some (t, rest) => Some (c :: t, rest)
  | None => None
  end.

(** [scanstring]: the string that starts after an opening quote, and the
    text after its closing quote; [None] when the text is no string
    (unterminated, a control character, a bad escape).  A [\uXXXX] that
    is a high surrogate and is directly followed by a [\uXXXX] that is a
    low surrogate gives one character. *)
Fixpoint scanstring (s : ustr) : option (ustr * ustr) :=
  match s with
  | [] => None
  | c :: r =>
      if c =? 34 then Some ([], r)
      else if c =? 92 then
        match r with
        | [] => None
        | e :: r1 =>
            if e =? 117 then
              match r1 with
              | h1 :: h2 :: h3 :: h4 :: r2 =>
                  match unhex4 h1 h2 h3 h4 with
                  | None => None
                  | Some u =>
                      let single := push u (scanstring r2) in
                      if is_high u then
                        match r2 with
                        | b :: r2a =>
                            if b =? 92 then
                              match r2a with
                              | v :: r2b =>
                                  if v =? 117 then
                                    match r2b with
                                    | g1 :: g2 :: g3 :: g4 :: r3 =>
                                        match r3 with
                                        | [] => single
                                        | _ :: _ =>
                                            match unhex4 g1 g2 g3 g4 with
                                            | None => None
                                            | Some u2 =>
                                                if is_low u2
                                                then push (join u u2)
                                                          (scanstring r3)
                                                else single
                                            end
                                        end
                                    | _ => single
                                    end
                                  else single
                              | [] => single
                              end
                            else single
                        | [] => single
                        end
                      else single
                  end
              | _ => None
              end
            else
              match unescape e with
              | Some x => push x (scanstring r1)
              | None => None
              end
        end
      else if c <? 32 then None
      else push c (scanstring r)
  end.

Definition digit (c : Z) : bool := (48 <=? c) && (c <=? 57).

Fixpoint take_digits (s : ustr) : ustr * ustr :=
  match s with
  | c :: r =>
      if digit c
      then let '(ds, rest) := take_digits r in (c :: ds, rest)
      else ([], s)
  | [] => ([], [])
  end.

(** The longest number at the start of the text: an optional minus sign,
    an integer part without leading zeros, a fraction when a point is
    followed by a digit, an exponent when [e] or [E] is followed by
    digits (after an optional sign).  Each part is returned with the
    text after it. *)
Definition read_minus (s : ustr) : ustr * ustr :=
  match s with
  | c :: r => if c =? 45 then ([c], r) else ([], s)
  | [] => ([], s)
  end.

Definition read_int (s : ustr) : option (ustr * ustr) :=
  match s with
  | c :: r =>
      if (49 <=? c) && (c <=? 57)
      then let '(ds, rest) := take_digits r in Some (c :: ds, rest)
      else if c =? 48 then Some ([c], r)
      else None
  | [] => None
  end.

Definition read_frac (s : ustr) : ustr * ustr :=
  match s with
  | p :: q :: r =>
      if (p =? 46) && digit q
      then let '(ds, rest) := take_digits r in (p :: q :: ds, rest)
      else ([], s)
  | _ => ([], s)
  end.

Definition read_exp_sign (s : ustr) : ustr * ustr :=
  match s with
  | c :: r => if (c =? 45) || (c =? 43) then ([c], r) else ([], s)
  | [] => ([], s)
  end.

Definition read_exp (s : ustr) : ustr * ustr :=
  match s with
  | e :: r =>
      if (e =? 101) || (e =? 69) then
        let '(sg, r1) := read_exp_sign r in
        let '(ds, rest) := take_digits r1 in
        match ds with
        | [] => ([], s)
        | _ :: _ => (e :: sg ++ ds, rest)
        end
      else ([], s)
  | [] => ([], s)
  end.

(** The characters of the number, whether it has a fraction or an
    exponent, and the rest of the text. *)
Definition match_number (s : ustr) : option (ustr * bool * ustr) :=
  let '(sign, s1) := read_minus s in
  match read_int s1 with
  | None => None
  | Some (ip, s2) =>
      let '(frac, s3) := read_frac s2 in
      let '(ex, s4) := read_exp s3 in
      Some (sign ++ ip ++ frac ++ ex,
            match frac, ex with [], [] => false | _, _ => true end, s4)
  end.

(** [int(text)] for the characters of an integer. *)
Definition int_of (text : ustr) : Z :=
  match text with
  | c :: r =>
      if c =? 45 then - fold_left (fun acc d => 10 * acc + (d - 48)) r 0
      else fold_left (fun acc d => 10 * acc + (d - 48)) text 0
  | [] => 0
  end.

Definition count_digits (text : ustr) : Z :=
  Z.of_nat (length (filter digit text)).

(** [starts p s]: the text after the prefix [p] of [s]. *)
Fixpoint starts (p s : ustr) : option ustr :=
  match p, s with
  | [], _ => Some s
  | a :: p', b :: s' => if a =? b then starts p' s' else None
  | _ :: _, [] => None
  end.

(** [d[k] = v] on a dictionary under construction. *)
Fixpoint eq_ustr (a b : ustr) : bool :=
  match a, b with
  | [], [] => true
  | x :: a', y :: b' => (x =? y) && eq_ustr a' b'
  | _, _ => false
  end.

Fixpoint set_item (d : list (ustr * jval)) (k : ustr) (v : jval)
  : list (ustr * jval) :=
  match d with
  | [] => [(k, v)]
  | (k', v') :: r =>
      if eq_ustr k k' then (k', v) :: r else (k', v') :: set_item r k v
  end.

Section Decoder.

(** The longest integer [int] converts (0: no limit). *)
Variable max_str_digits : Z.

Definition parse_number (text : ustr) (is_float : bool) : result jval :=
  if is_float then
    match parse_float (text_of text) with
    | Some x => Done (JFloat x)
    | None => Err Value
    end
  else if (0 <? max_str_digits) && (max_str_digits <? count_digits text)
  then Err Value
  else Done (JInt (int_of text)).

Definition constant (s : ustr) : option (jval * ustr) :=
  match starts (codes "null") s with
  | Some r => Some (JNull, r)
  | None =>
  match starts (codes "true") s with
  | Some r => Some (JBool true, r)
  | None =>
  match starts (codes "false") s with
  | Some r => Some (JBool false, r)
  | None =>
  match starts (codes "NaN") s with
  | Some r => Some (JFloat S754_nan, r)
  | None =>
  match starts (codes "Infinity") s with
  | Some r => Some (JFloat (S754_infinity false), r)
  | None =>
  match starts (codes "-Infinity") s with
  | Some r => Some (JFloat (S754_infinity true), r)
  | None => None
  end end end end end end.

(** [scan_once]: the value at the start of the text, and the rest.
    [depth] is the number of containers that may still be entered;
    [fuel] bounds the number of calls: two calls never go without
    consuming a character, so twice the length of the text is enough. *)
Fixpoint scan_once (fuel depth : nat) (s : ustr) {struct fuel}
  : result (jval * ustr) :=
  match fuel with
  | O => Err Invalid
  | S fuel' =>
      match s with
      | [] => Err Invalid
      | c :: r =>
          if c =? 34 then
            match scanstring r with
            | Some (t, rest) => Done (JStr t, rest)
            | None => Err Invalid
            end
          else if c =? 123 then
            match depth with
            | O => Err Depth
            | S depth' =>
                match skip_ws r with
                | c1 :: r1 =>
                    if c1 =? 125 then Done (JDict [], r1)
                    else parse_members fuel' depth' (c1 :: r1) []
                | [] => Err Invalid
                end
            end
          else if c =? 91 then
            match depth with
            | O => Err Depth
            | S depth' =>
                match skip_ws r with
                | c1 :: r1 =>
                    if c1 =? 93 then Done (JList [], r1)
                    else parse_elements fuel' depth' (c1 :: r1) []
                | [] => Err Invalid
                end
            end
          else
            match constant s with
            | Some (v, rest) => Done (v, rest)
            | None =>
                match match_number s with
                | Some (text, is_float, rest) =>
                    match parse_number text is_float with
                    | Done v => Done (v, rest)
                    | Err e => Err e
                    end
                | None => Err Invalid
                end
            end
      end
  end

(** The members of an object, from the quote of a key on. *)
with parse_members (fuel depth : nat) (s : ustr)
    (acc : list (ustr * jval)) {struct fuel} : result (jval * ustr) :=
  match fuel with
  | O => Err Invalid
  | S fuel' =>
      match s with
      | c :: r =>
          if c =? 34 then
            match scanstring r with
            | None => Err Invalid
            | Some (key, r1) =>
                match skip_ws r1 with
                | c2 :: r2 =>
                    if c2 =? 58 then
                      match scan_once fuel' depth (skip_ws r2) with
                      | Err e => Err e
                      | Done (v, r3) =>
                          match skip_ws r3 with
                          | c4 :: r4 =>
                              if c4 =? 125
                              then Done (JDict (set_item acc key v), r4)
                              else if c4 =? 44
                              then parse_members fuel' depth (skip_ws r4)
                                     (set_item acc key v)
                              else Err Invalid
                          | [] => Err Invalid
                          end
                      end
                    else Err Invalid
                | [] => Err Invalid
                end
            end
          else Err Invalid
      | [] => Err Invalid
      end
  end

(** The elements of an array, from the first character of one on. *)
with parse_elements (fuel depth : nat) (s : ustr) (acc : list jval)
    {struct fuel} : result (jval * ustr) :=
  match fuel with
  | O => Err Invalid
  | S fuel' =>
      match scan_once fuel' depth s with
      | Err e => Err e
      | Done (v, r1) =>
          match skip_ws r1 with
          | c2 :: r2 =>
              if c2 =? 93 then Done (JList (acc ++ [v]), r2)
              else if c2 =? 44
              then parse_elements fuel' depth (skip_ws r2) (acc ++ [v])
              else Err Invalid
          | [] => Err Invalid
          end
      end
  end.

(** [json.loads(s)]: one value, with whitespace around it and nothing
    else; a text that starts with a byte order mark is refused. *)
Definition loads (depth : nat) (s : ustr) : result jval :=
  match s with
  | c :: _ =>
      if c =? 65279 then Err Invalid
      else
        match scan_once (2 * length s + 2) depth (skip_ws s) with
        | Done (v, rest) =>
            match skip_ws rest with
            | [] => Done v
            | _ :: _ => Err Invalid
            end
        | Err e => Err e
        end
  | [] => Err Invalid
  end.

End Decoder.

End Json.

(** *** The file and the two functions of the store *)

Module Store.
Import Py Json.

(** What reading the file as text gives: the characters, or a decoding
    error when its bytes are not text in the encoding of the locale. *)
Inductive content : Type :=
| Text (t : ustr)
| Bytes.

(** What is found at [DEFAULTS_FILE]: nothing (with the permissions a
    file created there gets), a regular file with its content and
    whether the user may read and write it, or anything else (a
    directory in its place, a parent that is a regular file or cannot be
    searched or created, ...), where opening fails in both modes. *)
Inductive node : Type :=
| Absent (readable writable : bool)
| Regular (c : content) (readable writable : bool)
| Other (on_read on_write : exn_class).

(** The interpreter's limits: the longest integer [int] converts
    (0: none) and the number of containers that may be nested inside
    the outermost one before the stack is exhausted. *)
Record limits : Type := Limits {
  max_str_digits : Z;
  nesting : nat
}.

(** The outcome of a call: its value, or the class of the exception. *)
Inductive res (A : Type) : Type :=
| Returns (a : A)
| Raises (c : exn_class).
Arguments Returns {A} a.
Arguments Raises {A} c.

(** [open(DEFAULTS_FILE, 'r')] and [f.read()] *)
Definition read_text (f : node) : res ustr :=
  match f with
  | Absent _ _ => Raises FileNotFoundError
  | Regular (Text t) true _ => Returns t
  | Regular Bytes true _ => Raises UnicodeDecodeError
  | Regular _ false _ => Raises PermissionError
  | Other e _ => Raises e
  end.

(** [json.load(f)] *)
Definition json_load (L : limits) (f : node) : res jval :=
  match read_text f with
  | Raises c => Raises c
  | Returns t =>
      match loads (max_str_digits L) (S (nesting L)) t with
      | Done v => Returns v
      | Err Invalid => Raises JSONDecodeError
      | Err Value => Raises ValueError
      | Err Depth => Raises RecursionError
      end
  end.

Definition load_defaults_text (L : limits) (f : node) : res jval :=
  match json_load L f with
  | Raises FileNotFoundError | Raises JSONDecodeError => Returns JNull
  | r => r
  end.

(** [CONFIG_DIR.mkdir(parents=True, exist_ok=True)], then
    [open(DEFAULTS_FILE, 'w')] and
    [json.dump({"origin": origin, "destination": destination}, f)] *)
Definition save_defaults_text (origin destination : ustr) (f : node)
  : res unit * node :=
  let text :=
    Text (dumps [(codes "origin", origin);
                 (codes "destination", destination)]) in
  match f with
  | Absent r w => (Returns tt, Regular text r w)
  | Regular _ r true => (Returns tt, Regular text r true)
  | Regular _ _ false => (Raises PermissionError, f)
  | Other _ e => (Raises e, f)
  end.

End Store.

(** * Vocabulary of the properties *)

Module DriveTimeSpec.
Import Py DriveTime.

(** What [load_defaults] does in each state of the file. *)
Definition load_result (f : file_state) : outcome val :=
  match f with
  | Document v => Ok v
  | Missing | Malformed _ => Ok VNone
  | Locked =>
      Raise (Exn PermissionError
               ("[Errno 13] Permission denied: " ++ repr_str DEFAULTS_FILE))
  | Undecodable reason => Raise (Exn UnicodeDecodeError reason)
  end.

(** What [main] does once the addresses are known. *)
Definition main_with (E : env) (a : args) (p : val * val) : M unit :=
  let '(origin, destination) := p in
  (if defaults a then
     save_defaults origin destination ;;
     print [Lit "Saved default addresses: "; Str origin; Lit " → ";
            Str destination]
   else ret tt) ;;
  try_except (query_and_report E origin destination (future a))
             report_error.

(** [k in v], for a value read from the defaults file. *)
Definition has_key (k : string) (v : val) : bool :=
  match v with
  | VDict d => match lookup k d with Some _ => true | None => false end
  | _ => false
  end.

(** The states of the defaults file in which [load_defaults] returns a
    falsy value. *)
Definition prompt_fallback (f : file_state) : bool :=
  match f with
  | Missing | Malformed _ => true
  | Document v => negb (truthy v)
  | Locked | Undecodable _ => false
  end.

(** The interactive branch of [get_addresses]. *)
Definition prompt_run (w : world) : outcome (val * val) * world :=
  let out1 :=
    [Print [Lit "No default addresses found. Please provide addresses."];
     Prompt "Enter origin address or 'lat,lng': "] in
  let out2 := [Prompt "Enter destination address or 'lat,lng': "] in
  match stdin w with
  | [] => (Raise (Exn EOFError "EOF when reading a line"),
           World (defaults_file w) [] (stdout w ++ out1) (requests w))
  | [l1] => (Raise (Exn EOFError "EOF when reading a line"),
             World (defaults_file w) [] (stdout w ++ out1 ++ out2)
                   (requests w))
  | l1 :: l2 :: rest =>
      (Ok (VStr (strip l1), VStr (strip l2)),
       World (defaults_file w) rest (stdout w ++ out1 ++ out2) (requests w))
  end.

(** An ETA of zero minutes: the float 0.0 or -0.0 (what [round] returns),
    or the integer 0. *)
Definition zero_minutes (eta : val) : bool :=
  match eta with
  | VFloat x => is_fzero x
  | VInt z => z =? 0
  | _ => false
  end.

(** The world after one more request. *)
Definition asked (w : world) (q : request) : world :=
  World (defaults_file w) (stdin w) (stdout w) (requests w ++ [q]).

(** A world that differs from [w] by more output and more requests. *)
Definition extends (w : world) (out : list output) (reqs : list request)
  : world :=
  World (defaults_file w) (stdin w) (stdout w ++ out) (requests w ++ reqs).

(** The second request of a run, when there is one, asks for the route
    between the addresses of the leg the first answer describes. *)
Definition follow_up (E : env) (hist : list request) (q1 : request)
    (f : option Z) (reqs : list request) : Prop :=
  reqs = [] \/
  exists n result leg fo fd,
    f = Some n
    /\ gmaps_directions E hist q1 = Ok result
    /\ first_leg result = Ok leg
    /\ getitem leg "start_address" = Ok fo
    /\ getitem leg "end_address" = Ok fd
    /\ reqs = [Request fo fd (time_time E + n * 60)].

(** A leg as the directions service describes it. *)
Definition sample_leg (seconds : Z) (distance : string) : val :=
  VDict [("distance", VDict [("text", VStr distance); ("value", VInt 52143)]);
         ("duration", VDict [("text", VStr "38 mins"); ("value", VInt 2280)]);
         ("duration_in_traffic",
          VDict [("text", VStr "41 mins"); ("value", VInt seconds)]);
         ("end_address", VStr "1 Infinite Loop, Cupertino, CA 95014, USA");
         ("start_address",
          VStr "1600 Amphitheatre Pkwy, Mountain View, CA 94043, USA")].

Definition sample_routes : val :=
  VList [VDict [("legs", VList [sample_leg 2447 "32.4 mi"]);
                ("summary", VStr "US-101 S")]].

(** A service that always answers [answer], at a fixed time. *)
Definition fixed_env (answer : outcome val) : env :=
  Env (fun _ _ => answer) 1700000000 0 (fun t _ => Ok t).

Definition fresh : world := World Missing [] [] [].

(** The exponent of the last bit of a binary64 number below [2^e]. *)
Definition fexp64 (e : Z) : Z := Z.max (e - 53) (-1074).

(** A decimal number: digits, optionally followed by a point and more
    digits. *)
Definition decimal_number (s : string) : bool :=
  let '(_, n, r) := read_digits s 0 0 in
  (0 <? n) &&
  match r with
  | EmptyString => true
  | String c r' =>
      Ascii.eqb c "." &&
      (let '(_, n', r'') := read_digits r' 0 0 in
       (0 <? n') && String.eqb r'' EmptyString)
  end.

(** A distance text of the form [<number> <unit>], as in "32.4 mi". *)
Definition number_unit (s : string) : bool :=
  match split s with
  | [num; _] => decimal_number num
  | _ => false
  end.

End DriveTimeSpec.

(** * Vocabulary of the further properties *)

Module ExtrasSpec.
Import Py DriveTime DriveTimeSpec Startup.

(** Both positional addresses are on the command line. *)
Definition both_given (a : args) : bool :=
  match origin a, destination a with
  | Some _, Some _ => true
  | _, _ => false
  end.

(** What [open] raises on a file the user may not open. *)
Definition permission_denied : exn :=
  Exn PermissionError
      ("[Errno 13] Permission denied: " ++ repr_str DEFAULTS_FILE).

(** The JSON object [save_defaults] writes. *)
Definition saved_pair (o d : val) : val :=
  VDict [("origin", o); ("destination", d)].

(** The defaults file after a run of [main]. *)
Definition file_after (a : args) (f : file_state) : file_state :=
  match origin a, destination a, defaults a, f with
  | _, _, _, Locked => Locked
  | Some o, Some d, true, _ => Document (saved_pair (VStr o) (VStr d))
  | _, _, _, _ => f
  end.

(** The current-ETA half of the guarded part of [main]: it returns the
    addresses the service gave back. *)
Definition current_report (E : env) (origin destination : val)
  : M (val * val) :=
  let now := time_time E in
  '(current_eta, formatted_origin, formatted_destination, distance) <-
    eta_minutes E origin destination now ;;
  distance_mi <- lift (leading_number distance) ;;
  speed <- lift (avg_speed distance_mi current_eta) ;;
  let current_time := datetime_now E in
  arrival_time <- lift (plus_minutes E current_time current_eta) ;;
  print [Lit "Route: "; Str formatted_origin; Lit " → ";
         Str formatted_destination; Lit " ("; Str distance; Lit ")"] ;;
  print [Lit "Current ETA: "; Clock arrival_time; Lit " (";
         Fixed1 current_eta; Lit " min, "; Fixed1 distance_mi; Lit " mi @ ";
         Fixed1 speed; Lit " mph)"] ;;
  ret (formatted_origin, formatted_destination).

(** The future-ETA half: the body of [if args.future is not None]. *)
Definition future_report (E : env) (origin destination : val) (n : Z)
  : M unit :=
  let now := time_time E in
  let current_time := datetime_now E in
  let future_epoch := now + n * 60 in
  '(future_eta, _, _, future_distance) <-
    eta_minutes E origin destination future_epoch ;;
  future_distance_mi <- lift (leading_number future_distance) ;;
  future_avg_speed <- lift (avg_speed future_distance_mi future_eta) ;;
  offset <- lift (add (VInt n) future_eta) ;;
  future_arrival <- lift (plus_minutes E current_time offset) ;;
  print [Lit "ETA in "; Str (VInt n); Lit " min: ";
         Clock future_arrival; Lit " ("; Fixed1 future_eta;
         Lit " min, "; Fixed1 future_distance_mi; Lit " mi @ ";
         Fixed1 future_avg_speed; Lit " mph)"].

(** Every character of [s] satisfies [p]. *)
Fixpoint string_forall (p : ascii -> bool) (s : string) : bool :=
  match s with
  | EmptyString => true
  | String c r => p c && string_forall p r
  end.

(** The characters of a decimal number. *)
Definition decimal_char (c : ascii) : bool :=
  is_digit c || Ascii.eqb c ".".

(** The characters of a number written with thousands separators. *)
Definition grouped_char (c : ascii) : bool :=
  is_digit c || Ascii.eqb c "," || Ascii.eqb c ".".

(** The three diagnostics of a failed start. *)
Definition missing_key_lines : list output :=
  [Print [Lit "Error: GOOGLE_MAPS_API_KEY environment variable not found."];
   Print [Lit "Please set it in your .env file or environment variables."];
   Print [Lit "You can get an API key from: https://developers.google.com/maps/documentation/directions/get-api-key"]].

Definition bad_client_lines (e : exn) : list output :=
  [Print [Lit "Error initializing Google Maps client: "; Lit (exn_str e)];
   Print [Lit "Please check your API key and ensure it's valid."]].

Definition no_connection_lines (e : exn) : list output :=
  [Print [Lit "Error: Failed to connect to Google Maps API: ";
          Lit (exn_str e)];
   Print [Lit "Please check your internet connection and API key permissions."]].

(** The world with [out] printed after what it holds. *)
Definition printed (w : world) (out : list output) : world :=
  World (defaults_file w) (stdin w) (stdout w ++ out) (requests w).

Definition starts_with_space (s : string) : bool :=
  match s with
  | String c _ => isspace c
  | EmptyString => false
  end.

Fixpoint ends_with_space (s : string) : bool :=
  match s with
  | EmptyString => false
  | String c EmptyString => isspace c
  | String _ r => ends_with_space r
  end.

(** [o] is the line [l] without the whitespace around it. *)
Definition trimmed (l o : string) : Prop :=
  exists pre post,
    l = pre ++ o ++ post
    /\ all_space pre = true
    /\ all_space post = true
    /\ starts_with_space o = false
    /\ ends_with_space o = false.

End ExtrasSpec.

(** * Vocabulary of the preference store *)

Module StoreSpec.
Import Py Json.

Definition code_point (c : Z) : bool := (0 <=? c) && (c <=? 1114111).

(** A Python string: every element is a code point. *)
Definition code_points (s : ustr) : bool := forallb code_point s.

(** The string with every high surrogate that is directly followed by a
    low surrogate replaced, together with it, by the character the two
    stand for in UTF-16. *)
Fixpoint merge_pairs (s : ustr) : ustr :=
  match s with
  | [] => []
  | c :: r =>
      match r with
      | c' :: r' =>
          if is_high c && is_low c' then join c c' :: merge_pairs r'
          else c :: merge_pairs r
      | [] => [c]
      end
  end.

(** A string in which no high surrogate is directly followed by a low
    surrogate. *)
Fixpoint unpaired (s : ustr) : bool :=
  match s with
  | [] => true
  | c :: r =>
      negb (is_high c && match r with c' :: _ => is_low c' | [] => false end)
      && unpaired r
  end.

(** What follows a [\uXXXX] that is a high surrogate [u]. *)
Definition after_high (u : Z) (r2 : ustr) : option (ustr * ustr) :=
  match r2 with
  | b :: r2a =>
      if b =? 92 then
        match r2a with
        | v :: r2b =>
            if v =? 117 then
              match r2b with
              | g1 :: g2 :: g3 :: g4 :: r3 =>
                  match r3 with
                  | [] => push u (scanstring r2)
                  | _ :: _ =>
                      match unhex4 g1 g2 g3 g4 with
                      | None => None
                      | Some u2 =>
                          if is_low u2
                          then push (join u u2) (scanstring r3)
                          else push u (scanstring r2)
                      end
                  end
              | _ => push u (scanstring r2)
              end
            else push u (scanstring r2)
        | [] => push u (scanstring r2)
        end
      else push u (scanstring r2)
  | [] => push u (scanstring r2)
  end.

(** The value [json.load] gives for the object of two strings. *)
Definition loaded (k1 v1 k2 v2 : ustr) : jval :=
  JDict [(k1, JStr v1); (k2, JStr v2)].

Definition saved (o d : ustr) : jval :=
  loaded (codes "origin") o (codes "destination") d.

(** A place where [save_defaults] can write a file that can be read
    afterwards. *)
Definition usable (f : Store.node) : bool :=
  match f with
  | Store.Absent r _ => r
  | Store.Regular _ r w => r && w
  | Store.Other _ _ => false
  end.

(** Text of printable ASCII characters only. *)
Definition ascii_text (s : ustr) : bool :=
  forallb (fun c => (32 <=? c) && (c <=? 126)) s.

End StoreSpec.

(** * Facts about binary64 rounding *)

Module FloatFacts.
Import Py DriveTimeSpec.





Lemma shr_1_m (r : shr_record) :
  0 <= shr_m r -> shr_m (shr_1 r) = shr_m r / 2.
Proof.
  destruct r as [m rr ss]. cbn [shr_m]. intros H.
  rewrite <- Z.div2_div.
  destruct m as [|[p|p|]|p]; try reflexivity. lia.
Qed.

Lemma iter_shr_1_m (p : positive) (r : shr_record) :
  0 <= shr_m r ->
  shr_m (iter_pos shr_1 p r) = shr_m r / 2 ^ Zpos p.
Proof.
  revert r. induction p as [p IH|p IH|]; intros r H; cbn [iter_pos].
  - assert (H1 : 0 <= shr_m (shr_1 r)).
    { rewrite shr_1_m by exact H. apply Z.div_pos; lia. }
    assert (H2 : 0 <= shr_m (iter_pos shr_1 p (shr_1 r))).
    { rewrite IH by exact H1. apply Z.div_pos; lia. }
    rewrite IH by exact H2. rewrite IH by exact H1. rewrite shr_1_m by exact H.
    rewrite !Z.div_div by lia. f_equal.
    replace (Zpos p~1) with (Zpos p + Zpos p + 1) by lia.
    rewrite !Z.pow_add_r by lia. ring.
  - assert (H2 : 0 <= shr_m (iter_pos shr_1 p r)).
    { rewrite IH by exact H. apply Z.div_pos; lia. }
    rewrite IH by exact H2. rewrite IH by exact H.
    rewrite !Z.div_div by lia. f_equal.
    replace (Zpos p~0) with (Zpos p + Zpos p) by lia.
    rewrite !Z.pow_add_r by lia. ring.
  - rewrite shr_1_m by exact H. reflexivity.
Qed.


Lemma fexp_eq (e : Z) : fexp prec emax e = fexp64 e.
Proof. reflexivity. Qed.

(** Shifting a non-negative significand to the exponent of its format. *)
Lemma shr_fexp_spec (m e : Z) (l : location) :
  0 <= m ->
  exists r e',
    shr_fexp prec emax m e l = (r, e')
    /\ e' = Z.max e (fexp64 (Zdigits2 m + e))
    /\ shr_m r = m / 2 ^ (e' - e).
Proof.
  intros Hm. unfold shr_fexp, shr. rewrite fexp_eq.
  assert (Hrec : shr_m (shr_record_of_loc m l) = m).
  { destruct l as [|[]]; reflexivity. }
  destruct (fexp64 (Zdigits2 m + e) - e) as [|p|p] eqn:Hn.
  - eexists _, _. split; [reflexivity|]. split; [lia|].
    rewrite Hrec. replace (e - e) with 0 by lia.
    rewrite Z.pow_0_r. now rewrite Z.div_1_r.
  - eexists _, _. split; [reflexivity|]. split; [lia|].
    rewrite iter_shr_1_m by (rewrite Hrec; exact Hm). rewrite Hrec.
    f_equal. f_equal. lia.
  - eexists _, _. split; [reflexivity|]. split; [lia|].
    rewrite Hrec. replace (e - e) with 0 by lia.
    rewrite Z.pow_0_r. now rewrite Z.div_1_r.
Qed.

Lemma round_nearest_even_bounds (m : Z) (l : location) :
  0 <= m -> 0 <= round_nearest_even m l <= m + 1.
Proof.
  intros H. destruct l as [|[]]; cbn [round_nearest_even]; try lia.
  destruct (Z.even m); lia.
Qed.

(** Rounding a non-negative significand keeps the sign and never yields
    NaN; when the value is below 2^1023 it does not overflow either. *)
Lemma binary_round_aux_sign (sx : bool) (mx ex : Z) (lx : location) :
  0 <= mx ->
  match binary_round_aux prec emax sx mx ex lx with
  | S754_zero s | S754_finite s _ _ | S754_infinity s => s = sx
  | S754_nan => False
  end.
Proof.
  intros Hm. unfold binary_round_aux.
  destruct (shr_fexp_spec mx ex lx Hm) as (r1 & e1 & -> & He1 & Hr1).
  assert (H1 : 0 <= shr_m r1).
  { rewrite Hr1. apply Z.div_pos; [exact Hm|]. apply Z.pow_pos_nonneg; lia. }
  pose proof (round_nearest_even_bounds (shr_m r1) (loc_of_shr_record r1) H1)
    as [H2 _].
  destruct (shr_fexp_spec _ e1 loc_Exact H2) as (r2 & e2 & -> & He2 & Hr2).
  assert (H3 : 0 <= shr_m r2).
  { rewrite Hr2. apply Z.div_pos; [exact H2|]. apply Z.pow_pos_nonneg; lia. }
  destruct (shr_m r2) as [|p|p]; [reflexivity | | lia].
  destruct (e2 <=? emax - prec); reflexivity.
Qed.













End FloatFacts.

(** * The preference store: writing and reading the file *)

Module JsonFacts.
Import Py Json StoreSpec.
Local Open Scope list_scope.

Lemma unhex_hex_char (d : Z) : 0 <= d < 16 -> unhex (hex_char d) = Some d.
Proof.
  intros H. unfold hex_char, unhex.
  destruct (Z.ltb_spec d 10).
  - replace ((48 <=? 48 + d) && (48 + d <=? 57)) with true
      by (symmetry; apply andb_true_iff; split; apply Z.leb_le; lia).
    f_equal. lia.
  - replace ((48 <=? 87 + d) && (87 + d <=? 57)) with false
      by (symmetry; apply andb_false_iff; right; apply Z.leb_gt; lia).
    replace ((97 <=? 87 + d) && (87 + d <=? 102)) with true
      by (symmetry; apply andb_true_iff; split; apply Z.leb_le; lia).
    f_equal. lia.
Qed.

Lemma unhex4_u_escape (n : Z) (rest : ustr) :
  0 <= n < 65536 ->
  exists h1 h2 h3 h4,
    u_escape n ++ rest = 92 :: 117 :: h1 :: h2 :: h3 :: h4 :: rest
    /\ unhex4 h1 h2 h3 h4 = Some n.
Proof.
  intros H. unfold u_escape. eexists _, _, _, _. split; [reflexivity|].
  unfold unhex4.
  rewrite !unhex_hex_char by (apply Z.mod_pos_bound; lia).
  f_equal.
  pose proof (Z.div_mod n 4096 ltac:(lia)).
  pose proof (Z.mod_pos_bound n 4096 ltac:(lia)).
  assert (n / 4096 mod 16 = n / 4096)
    by (apply Z.mod_small; split;
        [apply Z.div_pos; lia | apply Z.div_lt_upper_bound; lia]).
  Z.div_mod_to_equations. lia.
Qed.

Lemma lor_low (a b k : Z) :
  0 <= k -> 0 <= b < 2 ^ k -> Z.lor (a * 2 ^ k) b = a * 2 ^ k + b.
Proof.
  intros Hk Hb.
  assert (Hland : Z.land (a * 2 ^ k) b = 0).
  { apply Z.bits_inj'. intros i Hi. rewrite Z.land_spec, Z.bits_0.
    destruct (Z.lt_ge_cases i k) as [Hlt|Hge].
    - rewrite Z.mul_pow2_bits_low by lia. reflexivity.
    - destruct (Z.eq_dec b 0) as [->|Hnz].
      + rewrite Z.bits_0. apply andb_false_r.
      + rewrite (Z.bits_above_log2 b i); [apply andb_false_r | lia |].
        apply Z.log2_lt_pow2; [lia|].
        apply Z.lt_le_trans with (2 ^ k); [lia|].
        apply Z.pow_le_mono_r; lia. }
  rewrite <- Z.lxor_lor by exact Hland.
  symmetry. apply Z.add_nocarry_lxor. exact Hland.
Qed.

Lemma surrogates_of (c : Z) :
  65536 <= c <= 1114111 ->
  let hi := Z.lor 55296 (Z.land (Z.shiftr (c - 65536) 10) 1023) in
  let lo := Z.lor 56320 (Z.land (c - 65536) 1023) in
  is_high hi = true /\ is_low lo = true /\ join hi lo = c
  /\ 0 <= hi < 65536 /\ 0 <= lo < 65536.
Proof.
  intros Hc hi lo.
  assert (Hhi : hi = 55296 + (c - 65536) / 1024).
  { subst hi. change 1023 with (Z.ones 10).
    rewrite Z.land_ones, Z.shiftr_div_pow2 by lia.
    change (2 ^ 10) with 1024.
    rewrite (Z.mod_small ((c - 65536) / 1024))
      by (split; [apply Z.div_pos; lia | apply Z.div_lt_upper_bound; lia]).
    change 55296 with (54 * 2 ^ 10) at 1.
    rewrite lor_low; [reflexivity | lia |].
    split; [apply Z.div_pos; lia | apply Z.div_lt_upper_bound; lia]. }
  assert (Hlo : lo = 56320 + (c - 65536) mod 1024).
  { subst lo. change 1023 with (Z.ones 10).
    rewrite Z.land_ones by lia. change (2 ^ 10) with 1024.
    change 56320 with (55 * 2 ^ 10) at 1.
    rewrite lor_low; [reflexivity | lia |].
    apply Z.mod_pos_bound. lia. }
  pose proof (Z.div_mod (c - 65536) 1024 ltac:(lia)) as Hdm.
  pose proof (Z.mod_pos_bound (c - 65536) 1024 ltac:(lia)) as Hm.
  assert (Hq : 0 <= (c - 65536) / 1024 < 1024)
    by (split; [apply Z.div_pos; lia | apply Z.div_lt_upper_bound; lia]).
  unfold is_high, is_low, join.
  rewrite Hhi, Hlo.
  split; [apply andb_true_iff; split; apply Z.leb_le; lia|].
  split; [apply andb_true_iff; split; apply Z.leb_le; lia|].
  split; [|lia].
  replace (55296 + (c - 65536) / 1024 - 55296) with ((c - 65536) / 1024)
    by lia.
  replace (56320 + (c - 65536) mod 1024 - 56320) with ((c - 65536) mod 1024)
    by lia.
  rewrite Z.shiftl_mul_pow2 by lia.
  rewrite lor_low by (change (2 ^ 10) with 1024; lia).
    change (2 ^ 10) with 1024. lia.
Qed.

(** How [escape] writes a character. *)
Lemma escape_cases (c : Z) :
  code_point c = true ->
  (is_high c = false
   /\ exists e, escape c = [92; e] /\ (e =? 117) = false
                /\ unescape e = Some c)
  \/ (is_high c = false
      /\ escape c = [c] /\ (c =? 34) = false /\ (c =? 92) = false
      /\ (c <? 32) = false)
  \/ (escape c = u_escape c /\ 0 <= c < 65536)
  \/ (is_high c = false /\ 65536 <= c <= 1114111
      /\ escape c
         = u_escape (Z.lor 55296 (Z.land (Z.shiftr (c - 65536) 10) 1023))
           ++ u_escape (Z.lor 56320 (Z.land (c - 65536) 1023))).
Proof.
  unfold code_point. intros H. apply andb_true_iff in H as [H0 H1].
  apply Z.leb_le in H0, H1. unfold escape.
  destruct (Z.eqb_spec c 34) as [->|N34];
    [left; split; [reflexivity | exists 34; repeat split]|].
  destruct (Z.eqb_spec c 92) as [->|N92];
    [left; split; [reflexivity | exists 92; repeat split]|].
  destruct (Z.eqb_spec c 10) as [->|N10];
    [left; split; [reflexivity | exists 110; repeat split]|].
  destruct (Z.eqb_spec c 13) as [->|N13];
    [left; split; [reflexivity | exists 114; repeat split]|].
  destruct (Z.eqb_spec c 9) as [->|N9];
    [left; split; [reflexivity | exists 116; repeat split]|].
  destruct (Z.eqb_spec c 12) as [->|N12];
    [left; split; [reflexivity | exists 102; repeat split]|].
  destruct (Z.eqb_spec c 8) as [->|N8];
    [left; split; [reflexivity | exists 98; repeat split]|].
  destruct ((32 <=? c) && (c <=? 126)) eqn:Hp.
  - right. left. apply andb_true_iff in Hp as [Hp Hq].
    apply Z.leb_le in Hp, Hq.
    split; [apply andb_false_iff; left; apply Z.leb_gt; lia|].
    repeat split; try (apply Z.eqb_neq; assumption).
    apply Z.ltb_ge. exact Hp.
  - destruct (Z.ltb_spec c 65536).
    + right. right. left. split; [reflexivity | lia].
    + right. right. right.
      split; [apply andb_false_iff; right; apply Z.leb_gt; lia|].
      split; [lia | reflexivity].
Qed.

Lemma escape_surrogate (c : Z) :
  is_high c = true \/ is_low c = true ->
  escape c = u_escape c /\ 0 <= c < 65536.
Proof.
  unfold is_high, is_low. intros H.
  assert (Hc : 55296 <= c <= 57343).
  { destruct H as [H|H]; apply andb_true_iff in H as [H1 H2];
      apply Z.leb_le in H1, H2; lia. }
  split; [|lia]. unfold escape.
  repeat match goal with
         | |- context [?x =? ?y] =>
             destruct (Z.eqb_spec x y); [lia|]
         end.
  replace ((32 <=? c) && (c <=? 126)) with false
    by (symmetry; apply andb_false_iff; right; apply Z.leb_gt; lia).
  destruct (Z.ltb_spec c 65536); [reflexivity | lia].
Qed.

Lemma scanstring_two (e : Z) (r : ustr) :
  (e =? 117) = false ->
  scanstring (92 :: e :: r)
  = match unescape e with
    | Some x => push x (scanstring r)
    | None => None
    end.
Proof. intros H. cbn [scanstring]. change (92 =? 34) with false.
  change (92 =? 92) with true. cbv iota. rewrite H. reflexivity. Qed.

Lemma scanstring_plain (c : Z) (r : ustr) :
  (c =? 34) = false -> (c =? 92) = false -> (c <? 32) = false ->
  scanstring (c :: r) = push c (scanstring r).
Proof. intros H1 H2 H3. cbn [scanstring]. now rewrite H1, H2, H3. Qed.

Lemma scanstring_u (h1 h2 h3 h4 u : Z) (r2 : ustr) :
  unhex4 h1 h2 h3 h4 = Some u ->
  scanstring (92 :: 117 :: h1 :: h2 :: h3 :: h4 :: r2)
  = if is_high u then after_high u r2 else push u (scanstring r2).
Proof.
  intros H. cbn [scanstring]. change (92 =? 34) with false.
  change (92 =? 92) with true. change (117 =? 117) with true. cbv iota.
  rewrite H. unfold after_high. destruct (is_high u); [|reflexivity].
  destruct r2 as [|b r2a]; [reflexivity|].
  destruct (b =? 92); [|reflexivity].
  destruct r2a as [|v r2b]; [reflexivity|].
  destruct (v =? 117); [|reflexivity].
  destruct r2b as [|g1 [|g2 [|g3 [|g4 r3]]]]; reflexivity.
Qed.

Lemma high_not_low (u : Z) : is_high u = true -> is_low u = false.
Proof.
  unfold is_high, is_low. intros H. apply andb_true_iff in H as [_ H].
  apply Z.leb_le in H. apply andb_false_iff. left. apply Z.leb_gt. lia.
Qed.

Lemma escaped_then_quote (r rest : ustr) :
  exists x l, escape_all r ++ 34 :: rest = x :: l.
Proof. destruct (escape_all r); cbn [app]; eauto. Qed.

(** After a high surrogate that is not followed by a low one, the next
    escape is read on its own. *)
Lemma after_high_single (u : Z) (r rest : ustr) :
  code_points r = true ->
  match r with c' :: _ => is_low c' = false | [] => True end ->
  after_high u (escape_all r ++ 34 :: rest)
  = push u (scanstring (escape_all r ++ 34 :: rest)).
Proof.
  intros Hr Hn. destruct r as [|c' r']; [reflexivity|].
  cbn [code_points forallb] in Hr. apply andb_true_iff in Hr as [Hc _].
  cbn [escape_all]. rewrite <- app_assoc.
  destruct (escape_cases c' Hc)
    as [(_ & e & -> & He & _) | [(_ & -> & _ & H92 & _)
        | [(-> & Hb) | (_ & Hb & ->)]]].
  - cbn [app after_high]. change (92 =? 92) with true. cbv iota.
    now rewrite He.
  - cbn [app after_high]. now rewrite H92.
  - destruct (unhex4_u_escape c' (escape_all r' ++ 34 :: rest) Hb)
      as (g1 & g2 & g3 & g4 & -> & Hx).
    cbn [after_high]. change (92 =? 92) with true.
    change (117 =? 117) with true. cbv iota. rewrite Hx, Hn.
    destruct (escaped_then_quote r' rest) as (x & l & ->). reflexivity.
  - destruct (surrogates_of c' Hb) as (Hh & _ & _ & Hhb & Hlb).
    rewrite <- app_assoc.
    destruct (unhex4_u_escape _ (u_escape (Z.lor 56320 (Z.land (c' - 65536) 1023))
                                 ++ escape_all r' ++ 34 :: rest) Hhb)
      as (g1 & g2 & g3 & g4 & -> & Hx).
    cbn [after_high]. change (92 =? 92) with true.
    change (117 =? 117) with true. cbv iota.
    rewrite Hx, (high_not_low _ Hh). reflexivity.
Qed.

(** After a high surrogate that is followed by a low one, the two
    escapes are read as one character. *)
Lemma after_high_pair (u c' : Z) (r' rest : ustr) :
  is_low c' = true ->
  after_high u (escape_all (c' :: r') ++ 34 :: rest)
  = push (join u c') (scanstring (escape_all r' ++ 34 :: rest)).
Proof.
  intros Hl. destruct (escape_surrogate c' (or_intror Hl)) as [He Hb].
  cbn [escape_all]. rewrite He, <- app_assoc.
  destruct (unhex4_u_escape c' (escape_all r' ++ 34 :: rest) Hb)
    as (g1 & g2 & g3 & g4 & -> & Hx).
  cbn [after_high]. change (92 =? 92) with true.
  change (117 =? 117) with true. cbv iota. rewrite Hx, Hl.
  destruct (escaped_then_quote r' rest) as (x & l & ->). reflexivity.
Qed.

(** What the decoder reads back from what the encoder wrote. *)
Lemma scanstring_escape_all_bounded (n : nat) (s rest : ustr) :
  (length s <= n)%nat ->
  code_points s = true ->
  scanstring (escape_all s ++ 34 :: rest) = Some (merge_pairs s, rest).
Proof.
  revert s rest. induction n as [|n IH]; intros s rest Hn Hs.
  - destruct s; [reflexivity | cbn in Hn; lia].
  - destruct s as [|c r]; [reflexivity|].
    cbn [length] in Hn.
    pose proof Hs as Hs'. cbn [code_points forallb] in Hs'.
    apply andb_true_iff in Hs' as [Hc Hr].
    assert (IHr := IH r rest ltac:(lia) Hr).
    assert (Hstep : is_high c = false ->
              merge_pairs (c :: r) = c :: merge_pairs r).
    { intros Hh. cbn [merge_pairs]. rewrite Hh.
      destruct r; reflexivity. }
    cbn [escape_all]. rewrite <- app_assoc.
    destruct (escape_cases c Hc)
      as [(Hh & e & -> & He & Hu) | [(Hh & -> & H34 & H92 & H32)
          | [(-> & Hb) | (Hh & Hb & ->)]]].
    + cbn [app]. rewrite (scanstring_two e _ He), Hu, IHr, (Hstep Hh).
      reflexivity.
    + cbn [app].
      rewrite (scanstring_plain c _ H34 H92 H32), IHr, (Hstep Hh).
      reflexivity.
    + destruct (unhex4_u_escape c (escape_all r ++ 34 :: rest) Hb)
        as (h1 & h2 & h3 & h4 & -> & Hx).
      rewrite (scanstring_u _ _ _ _ c _ Hx).
      destruct (is_high c) eqn:Hh;
        [|rewrite IHr, (Hstep eq_refl); reflexivity].
      destruct r as [|c' r'].
      * rewrite after_high_single, IHr; [reflexivity | exact Hr | exact I].
      * destruct (is_low c') eqn:Hl.
        -- rewrite (after_high_pair c c' r' rest Hl).
           cbn [code_points forallb] in Hr.
           apply andb_true_iff in Hr as [_ Hr'].
           cbn [length] in Hn.
           rewrite (IH r' rest ltac:(lia) Hr').
           cbn [merge_pairs]. rewrite Hh, Hl. reflexivity.
        -- rewrite after_high_single, IHr; [|exact Hr | exact Hl].
           cbn [merge_pairs]. rewrite Hh, Hl. reflexivity.
    + destruct (surrogates_of c Hb) as (Hhi & Hl & Hj & Hhb & Hlb).
      rewrite <- app_assoc.
      destruct (unhex4_u_escape _ (u_escape (Z.lor 56320 (Z.land (c - 65536) 1023))
                                   ++ escape_all r ++ 34 :: rest) Hhb)
        as (h1 & h2 & h3 & h4 & -> & Hx).
      rewrite (scanstring_u _ _ _ _ _ _ Hx), Hhi.
      destruct (unhex4_u_escape _ (escape_all r ++ 34 :: rest) Hlb)
        as (g1 & g2 & g3 & g4 & -> & Hy).
      cbn [after_high]. change (92 =? 92) with true.
      change (117 =? 117) with true. cbv iota.
      rewrite Hy, Hl, Hj, IHr, (Hstep Hh).
      destruct (escaped_then_quote r rest) as (x & l & ->). reflexivity.
Qed.

Lemma scanstring_escape_all (s rest : ustr) :
  code_points s = true ->
  scanstring (escape_all s ++ 34 :: rest) = Some (merge_pairs s, rest).
Proof. apply (scanstring_escape_all_bounded (length s)). lia. Qed.

Lemma merge_pairs_two (a b : Z) (t : ustr) :
  merge_pairs (a :: b :: t)
  = if is_high a && is_low b then join a b :: merge_pairs t
    else a :: merge_pairs (b :: t).
Proof. reflexivity. Qed.

Lemma merge_pairs_length (n : nat) (t : ustr) :
  (length t <= n)%nat -> (length (merge_pairs t) <= length t)%nat.
Proof.
  revert t. induction n as [|n IHn]; intros t Hle.
  - destruct t; [cbn; lia | cbn in Hle; lia].
  - destruct t as [|a [|b t']]; [cbn; lia | cbn; lia |].
    rewrite merge_pairs_two. cbn [length] in Hle.
    destruct (is_high a && is_low b); cbn [length].
    + specialize (IHn t' ltac:(lia)). lia.
    + specialize (IHn (b :: t') ltac:(cbn [length]; lia)).
      cbn [length] in IHn. lia.
Qed.

(** Only the pairs change a string. *)
Lemma merge_pairs_unpaired (s : ustr) :
  unpaired s = true <-> merge_pairs s = s.
Proof.
  induction s as [|c r IH]; [split; reflexivity|].
  destruct r as [|c' r'].
  - cbn [unpaired merge_pairs]. rewrite andb_false_r.
    split; reflexivity.
  - rewrite merge_pairs_two. cbn [unpaired] in *.
    destruct (is_high c && is_low c') eqn:Hp; cbn [negb andb].
    + split; [discriminate|]. intros H. exfalso.
      apply (f_equal (@length Z)) in H. cbn [length] in H.
      pose proof (merge_pairs_length (length r') r' ltac:(lia)). lia.
    + rewrite IH. split; [intros ->; reflexivity | intros H; now injection H].
Qed.

Lemma dumps_two (k1 v1 k2 v2 rest : ustr) :
  dumps [(k1, v1); (k2, v2)] ++ rest
  = 123 :: 34 :: escape_all k1 ++ 34 :: 58 :: 32 :: 34 :: escape_all v1
    ++ 34 :: 44 :: 32 :: 34 :: escape_all k2 ++ 34 :: 58 :: 32 :: 34
    :: escape_all v2 ++ 34 :: 125 :: rest.
Proof.
  unfold dumps, dump_members, encode_basestring_ascii.
  change (codes "{") with [123]. change (codes "}") with [125].
  change (codes ": ") with [58; 32]. change (codes ", ") with [44; 32].
  cbn [app]. repeat (rewrite <- app_assoc; cbn [app]). reflexivity.
Qed.

Lemma skip_ws_skip (c : Z) (r : ustr) :
  is_ws c = true -> skip_ws (c :: r) = skip_ws r.
Proof. intros H. cbn [skip_ws]. now rewrite H. Qed.

Lemma skip_ws_stop (c : Z) (r : ustr) :
  is_ws c = false -> skip_ws (c :: r) = c :: r.
Proof. intros H. cbn [skip_ws]. now rewrite H. Qed.

Section Steps.
Variable m : Z.

Lemma scan_once_string (fuel depth : nat) (r : ustr) :
  scan_once m (S fuel) depth (34 :: r)
  = match scanstring r with
    | Some (t, rest) => Done (JStr t, rest)
    | None => Err Invalid
    end.
Proof. reflexivity. Qed.

Lemma scan_once_object (fuel depth : nat) (r : ustr) :
  scan_once m (S fuel) (S depth) (123 :: r)
  = match skip_ws r with
    | c1 :: r1 =>
        if c1 =? 125 then Done (JDict [], r1)
        else parse_members m fuel depth (c1 :: r1) []
    | [] => Err Invalid
    end.
Proof. reflexivity. Qed.

Lemma parse_members_step (fuel depth : nat) (r r1 r2 r3 key : ustr)
    (acc : list (ustr * jval)) (v : jval) :
  scanstring r = Some (key, r1) ->
  skip_ws r1 = 58 :: r2 ->
  scan_once m fuel depth (skip_ws r2) = Done (v, r3) ->
  parse_members m (S fuel) depth (34 :: r) acc
  = match skip_ws r3 with
    | c4 :: r4 =>
        if c4 =? 125 then Done (JDict (set_item acc key v), r4)
        else if c4 =? 44
        then parse_members m fuel depth (skip_ws r4) (set_item acc key v)
        else Err Invalid
    | [] => Err Invalid
    end.
Proof.
  intros H1 H2 H3. cbn [parse_members]. change (34 =? 34) with true.
  cbv iota. rewrite H1, H2. change (58 =? 58) with true. cbv iota.
  rewrite H3. reflexivity.
Qed.

(** The decoder reads the object of two strings back. *)
Lemma scan_once_two (fuel depth : nat) (k1 v1 k2 v2 rest : ustr) :
  code_points k1 = true -> code_points v1 = true ->
  code_points k2 = true -> code_points v2 = true ->
  eq_ustr (merge_pairs k2) (merge_pairs k1) = false ->
  scan_once m (S (S (S (S fuel)))) (S depth)
    (dumps [(k1, v1); (k2, v2)] ++ rest)
  = Done (loaded (merge_pairs k1) (merge_pairs v1)
                 (merge_pairs k2) (merge_pairs v2), rest).
Proof.
  intros Hk1 Hv1 Hk2 Hv2 Hne. rewrite dumps_two.
  rewrite scan_once_object, skip_ws_stop by reflexivity.
  change (34 =? 125) with false. cbv iota.
  erewrite parse_members_step;
    [ | apply (scanstring_escape_all k1 _ Hk1) | reflexivity
      | rewrite skip_ws_skip, skip_ws_stop by reflexivity;
        rewrite scan_once_string, (scanstring_escape_all v1 _ Hv1);
        reflexivity ].
  rewrite skip_ws_stop by reflexivity.
  change (44 =? 125) with false. change (44 =? 44) with true. cbv iota.
  rewrite skip_ws_skip, skip_ws_stop by reflexivity.
  erewrite parse_members_step;
    [ | apply (scanstring_escape_all k2 _ Hk2) | reflexivity
      | rewrite skip_ws_skip, skip_ws_stop by reflexivity;
        rewrite scan_once_string, (scanstring_escape_all v2 _ Hv2);
        reflexivity ].
  rewrite skip_ws_stop by reflexivity.
  change (125 =? 125) with true. cbv iota.
  cbn [set_item]. rewrite Hne. reflexivity.
Qed.

Lemma loads_dumps_two (depth : nat) (k1 v1 k2 v2 : ustr) :
  code_points k1 = true -> code_points v1 = true ->
  code_points k2 = true -> code_points v2 = true ->
  eq_ustr (merge_pairs k2) (merge_pairs k1) = false ->
  loads m (S depth) (dumps [(k1, v1); (k2, v2)])
  = Done (loaded (merge_pairs k1) (merge_pairs v1)
                 (merge_pairs k2) (merge_pairs v2)).
Proof.
  intros Hk1 Hv1 Hk2 Hv2 Hne. unfold loads.
  pose proof (dumps_two k1 v1 k2 v2 []) as E. rewrite app_nil_r in E.
  assert (Hf : exists fuel,
             (2 * length (dumps [(k1, v1); (k2, v2)]) + 2)%nat
             = S (S (S (S fuel)))).
  { exists (2 * length (dumps [(k1, v1); (k2, v2)]) - 2)%nat.
    rewrite E. cbn [length]. lia. }
  destruct Hf as (fuel & ->).
  assert (Hs : skip_ws (dumps [(k1, v1); (k2, v2)])
               = dumps [(k1, v1); (k2, v2)])
    by (rewrite E; reflexivity).
  rewrite Hs.
  pose proof (scan_once_two fuel depth k1 v1 k2 v2 [] Hk1 Hv1 Hk2 Hv2 Hne)
    as H.
  rewrite app_nil_r in H. rewrite H.
  rewrite E. reflexivity.
Qed.

End Steps.

(** *** The decoder's fuel *)

Lemma skip_ws_length (s : ustr) : (length (skip_ws s) <= length s)%nat.
Proof.
  induction s as [|c r IH]; cbn [skip_ws length]; [lia|].
  destruct (is_ws c); cbn [length]; lia.
Qed.

Lemma push_some (c : Z) (r : option (ustr * ustr)) (t rest : ustr) :
  push c r = Some (t, rest) -> exists t', r = Some (t', rest).
Proof.
  destruct r as [[t' rest']|]; cbn; [|discriminate].
  intros H. injection H as _ <-. eauto.
Qed.

Ltac split_match H :=
  repeat match type of H with
         | context [match ?x with _ => _ end] =>
             destruct x eqn:?; try discriminate H
         end.

Lemma scanstring_length_bounded (n : nat) (s t rest : ustr) :
  (length s <= n)%nat ->
  scanstring s = Some (t, rest) -> (length rest < length s)%nat.
Proof.
  revert s t rest. induction n as [|n IH]; intros s t rest Hn H.
  - destruct s; [discriminate H | cbn in Hn; lia].
  - destruct s as [|c r]; [discriminate H|].
    cbn [scanstring] in H. cbn [length] in *.
    split_match H;
      try (injection H as <- <-);
      try (apply push_some in H as (t' & H); apply IH in H);
      subst; cbn [length] in *; lia.
Qed.

Lemma scanstring_length (s t rest : ustr) :
  scanstring s = Some (t, rest) -> (length rest < length s)%nat.
Proof. apply (scanstring_length_bounded (length s)). lia. Qed.

Lemma starts_length (p s rest : ustr) :
  starts p s = Some rest -> (length rest + length p = length s)%nat.
Proof.
  revert s. induction p as [|a p IH]; intros s H.
  - injection H as <-. cbn. lia.
  - destruct s as [|b s]; [discriminate H|]. cbn [starts] in H.
    destruct (a =? b); [|discriminate H].
    apply IH in H. cbn [length]. lia.
Qed.

Lemma constant_length (s rest : ustr) (v : jval) :
  constant s = Some (v, rest) -> (length rest < length s)%nat.
Proof.
  unfold constant. intros H.
  repeat match type of H with
         | context [match starts ?p s with _ => _ end] =>
             let E := fresh "E" in
             destruct (starts p s) eqn:E;
             [apply starts_length in E; injection H as _ <-;
              cbn [length codes] in E; lia|]
         end.
  discriminate H.
Qed.

Lemma take_digits_length (s ds rest : ustr) :
  take_digits s = (ds, rest) -> (length rest <= length s)%nat.
Proof.
  revert ds rest. induction s as [|c r IH]; intros ds rest H.
  - injection H as _ <-. cbn. lia.
  - cbn [take_digits] in H. destruct (digit c).
    + destruct (take_digits r) as [ds' rest'] eqn:E.
      injection H as _ <-. specialize (IH _ _ eq_refl). cbn [length]. lia.
    + injection H as _ <-. lia.
Qed.

Lemma read_exp_length (s ex rest : ustr) :
  read_exp s = (ex, rest) -> (length rest <= length s)%nat.
Proof.
  unfold read_exp, read_exp_sign. intros H.
  destruct s as [|e r]; [injection H as _ <-; lia|].
  destruct ((e =? 101) || (e =? 69)); [|injection H as _ <-; lia].
  destruct r as [|c r'].
  - cbn [take_digits] in H. injection H as _ <-. lia.
  - destruct ((c =? 45) || (c =? 43)).
    + destruct (take_digits r') as [ds rest'] eqn:E.
      apply take_digits_length in E.
      destruct ds; injection H as _ <-; cbn [length]; lia.
    + destruct (take_digits (c :: r')) as [ds rest'] eqn:E.
      apply take_digits_length in E.
      destruct ds; injection H as _ <-; cbn [length] in *; lia.
Qed.

Lemma read_frac_length (s fr rest : ustr) :
  read_frac s = (fr, rest) -> (length rest <= length s)%nat.
Proof.
  unfold read_frac. intros H.
  destruct s as [|p [|q r]]; try (injection H as _ <-; lia).
  destruct ((p =? 46) && digit q); [|injection H as _ <-; lia].
  destruct (take_digits r) as [ds rest'] eqn:E.
  apply take_digits_length in E. injection H as _ <-. cbn [length]. lia.
Qed.

Lemma read_int_length (s ip rest : ustr) :
  read_int s = Some (ip, rest) -> (length rest < length s)%nat.
Proof.
  unfold read_int. intros H. destruct s as [|c r]; [discriminate H|].
  destruct ((49 <=? c) && (c <=? 57)).
  - destruct (take_digits r) as [ds rest'] eqn:E.
    apply take_digits_length in E. injection H as _ <-. cbn [length]. lia.
  - destruct (c =? 48); [|discriminate H].
    injection H as _ <-. cbn [length]. lia.
Qed.

Lemma read_minus_length (s sg rest : ustr) :
  read_minus s = (sg, rest) -> (length rest <= length s)%nat.
Proof.
  unfold read_minus. intros H.
  destruct s as [|c r]; [injection H as _ <-; lia|].
  destruct (c =? 45); injection H as _ <-; cbn [length]; lia.
Qed.

Lemma skip_ws_cons (s r : ustr) (c : Z) :
  skip_ws s = c :: r -> (length r < length s)%nat.
Proof.
  intros H. pose proof (skip_ws_length s) as Hl. rewrite H in Hl.
  cbn [length] in Hl. lia.
Qed.

Lemma match_number_length (s text rest : ustr) (fl : bool) :
  match_number s = Some (text, fl, rest) -> (length rest < length s)%nat.
Proof.
  unfold match_number. intros H.
  destruct (read_minus s) as [sg s1] eqn:E1.
  destruct (read_int s1) as [[ip s2]|] eqn:E2; [|discriminate H].
  destruct (read_frac s2) as [fr s3] eqn:E3.
  destruct (read_exp s3) as [ex s4] eqn:E4.
  injection H as _ _ <-.
  apply read_minus_length in E1. apply read_int_length in E2.
  apply read_frac_length in E3. apply read_exp_length in E4. lia.
Qed.

Section Fuel.
Variable m : Z.

(** Every value takes at least one character. *)
Lemma scan_lengths (fuel : nat) :
  forall depth : nat,
    (forall s v rest,
        scan_once m fuel depth s = Done (v, rest) ->
        (length rest < length s)%nat)
    /\ (forall s acc v rest,
           parse_members m fuel depth s acc = Done (v, rest) ->
           (length rest < length s)%nat)
    /\ (forall s acc v rest,
           parse_elements m fuel depth s acc = Done (v, rest) ->
           (length rest < length s)%nat).
Proof.
  induction fuel as [|fuel IH]; intros depth.
  - repeat split; intros; discriminate.
  - split; [|split].
    + intros s v rest H. cbn [scan_once] in H.
      destruct s as [|c r]; [discriminate H|]. cbn [length].
      destruct (c =? 34).
      { destruct (scanstring r) as [[t rest']|] eqn:E; [|discriminate H].
        injection H as _ <-. apply scanstring_length in E. lia. }
      destruct (c =? 123).
      { destruct depth as [|depth']; [discriminate H|].
        destruct (skip_ws r) as [|c1 r1] eqn:E; [discriminate H|].
        pose proof (skip_ws_length r) as Hl. rewrite E in Hl.
        destruct (c1 =? 125).
        - injection H as _ <-. cbn [length] in Hl. lia.
        - apply (proj1 (proj2 (IH depth'))) in H. lia. }
      destruct (c =? 91).
      { destruct depth as [|depth']; [discriminate H|].
        destruct (skip_ws r) as [|c1 r1] eqn:E; [discriminate H|].
        pose proof (skip_ws_length r) as Hl. rewrite E in Hl.
        destruct (c1 =? 93).
        - injection H as _ <-. cbn [length] in Hl. lia.
        - apply (proj2 (proj2 (IH depth'))) in H. lia. }
      destruct (constant (c :: r)) as [[v' rest']|] eqn:E.
      { injection H as _ <-. apply constant_length in E.
        cbn [length] in E. lia. }
      destruct (match_number (c :: r)) as [[[text fl] rest']|] eqn:E2;
        [|discriminate H].
      destruct (parse_number m text fl); [|discriminate H].
      injection H as _ <-. apply match_number_length in E2.
      cbn [length] in E2. lia.
    + intros s acc v rest H. cbn [parse_members] in H.
      destruct s as [|c r]; [discriminate H|]. cbn [length].
      destruct (c =? 34); [|discriminate H].
      destruct (scanstring r) as [[key r1]|] eqn:E1; [|discriminate H].
      apply scanstring_length in E1.
      destruct (skip_ws r1) as [|c2 r2] eqn:E2; [discriminate H|].
      apply skip_ws_cons in E2.
      destruct (c2 =? 58); [|discriminate H].
      destruct (scan_once m fuel depth (skip_ws r2)) as [[v' r3]|] eqn:E3;
        [|discriminate H].
      apply (proj1 (IH depth)) in E3.
      pose proof (skip_ws_length r2) as Hl2.
      destruct (skip_ws r3) as [|c4 r4] eqn:E4; [discriminate H|].
      apply skip_ws_cons in E4.
      destruct (c4 =? 125); [injection H as _ <-; lia|].
      destruct (c4 =? 44); [|discriminate H].
      apply (proj1 (proj2 (IH depth))) in H.
      pose proof (skip_ws_length r4). lia.
    + intros s acc v rest H. cbn [parse_elements] in H.
      destruct (scan_once m fuel depth s) as [[v' r1]|] eqn:E1;
        [|discriminate H].
      apply (proj1 (IH depth)) in E1.
      destruct (skip_ws r1) as [|c2 r2] eqn:E2; [discriminate H|].
      apply skip_ws_cons in E2.
      destruct (c2 =? 93); [injection H as _ <-; lia|].
      destruct (c2 =? 44); [|discriminate H].
      apply (proj2 (proj2 (IH depth))) in H.
      pose proof (skip_ws_length r2). lia.
Qed.

(** With fuel above twice the length of the text, the decoder's answer
    does not depend on the fuel: it never runs out of it. *)
Lemma fuel_is_enough (f1 : nat) :
  forall (f2 depth : nat),
    (forall s, (2 * length s < f1)%nat -> (2 * length s < f2)%nat ->
               scan_once m f1 depth s = scan_once m f2 depth s)
    /\ (forall s acc,
           (2 * length s < f1)%nat -> (2 * length s < f2)%nat ->
           parse_members m f1 depth s acc = parse_members m f2 depth s acc)
    /\ (forall s acc,
           (2 * length s + 1 < f1)%nat -> (2 * length s + 1 < f2)%nat ->
           parse_elements m f1 depth s acc = parse_elements m f2 depth s acc).
Proof.
  induction f1 as [|f1 IH]; intros f2 depth.
  - repeat split; intros; lia.
  - destruct f2 as [|f2]; [repeat split; intros; lia|].
    split; [|split].
    + intros s H1 H2. cbn [scan_once].
      destruct s as [|c r]; [reflexivity|]. cbn [length] in *.
      destruct (c =? 34); [reflexivity|].
      destruct (c =? 123).
      { destruct depth as [|depth']; [reflexivity|].
        destruct (skip_ws r) as [|c1 r1] eqn:E; [reflexivity|].
        pose proof (skip_ws_length r) as Hl. rewrite E in Hl.
        destruct (c1 =? 125); [reflexivity|].
        apply (proj1 (proj2 (IH f2 depth'))); lia. }
      destruct (c =? 91); [|reflexivity].
      destruct depth as [|depth']; [reflexivity|].
      destruct (skip_ws r) as [|c1 r1] eqn:E; [reflexivity|].
      pose proof (skip_ws_length r) as Hl. rewrite E in Hl.
      destruct (c1 =? 93); [reflexivity|].
      apply (proj2 (proj2 (IH f2 depth'))); lia.
    + intros s acc H1 H2. cbn [parse_members].
      destruct s as [|c r]; [reflexivity|]. cbn [length] in *.
      destruct (c =? 34); [|reflexivity].
      destruct (scanstring r) as [[key r1]|] eqn:E1; [|reflexivity].
      apply scanstring_length in E1.
      destruct (skip_ws r1) as [|c2 r2] eqn:E2; [reflexivity|].
      apply skip_ws_cons in E2.
      destruct (c2 =? 58); [|reflexivity].
      pose proof (skip_ws_length r2) as Hl2.
      rewrite (proj1 (IH f2 depth) (skip_ws r2)) by lia.
      destruct (scan_once m f2 depth (skip_ws r2)) as [[v' r3]|] eqn:E3;
        [|reflexivity].
      apply (proj1 (scan_lengths f2 depth)) in E3.
      destruct (skip_ws r3) as [|c4 r4] eqn:E4; [reflexivity|].
      apply skip_ws_cons in E4.
      destruct (c4 =? 125); [reflexivity|].
      destruct (c4 =? 44); [|reflexivity].
      pose proof (skip_ws_length r4).
      apply (proj1 (proj2 (IH f2 depth))); lia.
    + intros s acc H1 H2. cbn [parse_elements].
      rewrite (proj1 (IH f2 depth) s) by lia.
      destruct (scan_once m f2 depth s) as [[v' r1]|] eqn:E1;
        [|reflexivity].
      apply (proj1 (scan_lengths f2 depth)) in E1.
      destruct (skip_ws r1) as [|c2 r2] eqn:E2; [reflexivity|].
      apply skip_ws_cons in E2.
      destruct (c2 =? 93); [reflexivity|].
      destruct (c2 =? 44); [|reflexivity].
      pose proof (skip_ws_length r2).
      apply (proj2 (proj2 (IH f2 depth))); lia.
Qed.

(** [loads] gives the decoder enough fuel: more would not change its
    answer. *)
Lemma loads_fuel (depth more : nat) (s : ustr) :
  scan_once m (2 * length s + 2 + more) depth (skip_ws s)
  = scan_once m (2 * length s + 2) depth (skip_ws s).
Proof.
  pose proof (skip_ws_length s) as Hl.
  apply (proj1 (fuel_is_enough _ _ depth)); lia.
Qed.

End Fuel.

(** *** What [json.dump] writes is ASCII *)

Lemma hex_char_ascii (d : Z) :
  0 <= d < 16 -> (32 <=? hex_char d) && (hex_char d <=? 126) = true.
Proof.
  intros H. unfold hex_char. apply andb_true_iff.
  destruct (Z.ltb_spec d 10); split; apply Z.leb_le; lia.
Qed.

Lemma u_escape_ascii (n : Z) : ascii_text (u_escape n) = true.
Proof.
  unfold ascii_text, u_escape. cbn [forallb].
  rewrite !hex_char_ascii by (apply Z.mod_pos_bound; lia). reflexivity.
Qed.

Lemma ascii_text_app (a b : ustr) :
  ascii_text (a ++ b) = ascii_text a && ascii_text b.
Proof. apply forallb_app. Qed.

Lemma escape_ascii (c : Z) : ascii_text (escape c) = true.
Proof.
  unfold escape.
  repeat match goal with
         | |- context [if ?x =? ?y then _ else _] =>
             destruct (x =? y); [reflexivity|]
         end.
  destruct ((32 <=? c) && (c <=? 126)) eqn:Hp;
    [cbn [ascii_text forallb]; now rewrite Hp|].
  destruct (c <? 65536); [apply u_escape_ascii|].
  now rewrite ascii_text_app, !u_escape_ascii.
Qed.

Lemma escape_all_ascii (s : ustr) : ascii_text (escape_all s) = true.
Proof.
  induction s as [|c r IH]; [reflexivity|].
  cbn [escape_all]. now rewrite ascii_text_app, escape_ascii, IH.
Qed.

Lemma dumps_two_ascii (k1 v1 k2 v2 : ustr) :
  ascii_text (dumps [(k1, v1); (k2, v2)]) = true.
Proof.
  pose proof (dumps_two k1 v1 k2 v2 []) as E. rewrite app_nil_r in E.
  rewrite E. unfold ascii_text. cbn [forallb].
  repeat (rewrite forallb_app; cbn [forallb]).
  fold (ascii_text (escape_all k1)). fold (ascii_text (escape_all v1)).
  fold (ascii_text (escape_all k2)). fold (ascii_text (escape_all v2)).
  now rewrite !escape_all_ascii.
Qed.

(** *** Strings of the embedding *)

Lemma codes_code_points (s : string) :
  code_points (codes s) = true /\ unpaired (codes s) = true.
Proof.
  induction s as [|c r [IH1 IH2]]; [split; reflexivity|].
  pose proof (nat_ascii_bounded c) as Hb.
  cbn [codes code_points forallb unpaired].
  fold (code_points (codes r)). rewrite IH1, IH2.
  assert (Hh : is_high (Z.of_nat (nat_of_ascii c)) = false)
    by (apply andb_false_iff; left; apply Z.leb_gt; lia).
  rewrite Hh. split; [|reflexivity].
  rewrite andb_true_r. apply andb_true_iff; split; apply Z.leb_le; lia.
Qed.

End JsonFacts.

Module StoreProofs.
Import Py Json Store StoreSpec JsonFacts.

(** [save_defaults_text] followed by [load_defaults_text], wherever the
    file can be written and then read. *)
Lemma save_then_load (L : limits) (o d : ustr) (f : node) :
  code_points o = true -> code_points d = true -> usable f = true ->
  exists f',
    save_defaults_text o d f = (Returns tt, f')
    /\ load_defaults_text L f'
       = Returns (saved (merge_pairs o) (merge_pairs d)).
Proof.
  intros Ho Hd Hf.
  assert (Hl : loads (max_str_digits L) (S (nesting L))
                 (dumps [(codes "origin", o); (codes "destination", d)])
               = Done (saved (merge_pairs o) (merge_pairs d))).
  { apply (loads_dumps_two (max_str_digits L) (nesting L)
             (codes "origin") o (codes "destination") d);
      try assumption; reflexivity. }
  destruct f as [r w|c r w|e1 e2]; cbn [usable] in Hf.
  - subst r. eexists. split; [reflexivity|].
    unfold load_defaults_text, json_load. cbn [read_text]. now rewrite Hl.
  - apply andb_true_iff in Hf as [-> ->]. eexists. split; [reflexivity|].
    unfold load_defaults_text, json_load. cbn [read_text]. now rewrite Hl.
  - discriminate Hf.
Qed.

(** C5, as stated, fails: the string of the two surrogates U+D83D and
    U+DE00 is saved, and comes back as the one character U+1F600. *)
Lemma surrogate_pair_is_loaded_as_one_character :
  let L := Limits 4300 1000 in
  let o := [55357; 56832] in
  let d := codes "B" in
  fst (save_defaults_text o d (Absent true true)) = Returns tt
  /\ load_defaults_text L (snd (save_defaults_text o d (Absent true true)))
     = Returns (saved [128512] d)
  /\ saved [128512] d <> saved o d.
Proof.
  split; [reflexivity|]. split; [vm_compute; reflexivity|].
  intros H. discriminate H.
Qed.

(** C5, amended: for every pair of strings, and wherever the
    preferences file can be written and then read, [save_defaults_text]
    followed by [load_defaults_text] returns the object of the two
    strings in which every high surrogate directly followed by a low
    surrogate has been replaced, together with it, by the character the
    two encode.  The strings come back unchanged exactly when they hold
    no such pair. *)
Theorem save_then_load_roundtrip (L : limits) (o d : ustr) (f : node) :
  code_points o = true -> code_points d = true -> usable f = true ->
  exists f',
    save_defaults_text o d f = (Returns tt, f')
    /\ load_defaults_text L f'
       = Returns (saved (merge_pairs o) (merge_pairs d))
    /\ (load_defaults_text L f' = Returns (saved o d)
        <-> unpaired o = true /\ unpaired d = true).
Proof.
  intros Ho Hd Hf.
  destruct (save_then_load L o d f Ho Hd Hf) as (f' & Hs & Hl).
  exists f'. split; [exact Hs|]. split; [exact Hl|].
  rewrite Hl, !merge_pairs_unpaired. split.
  - intros H. injection H as H1 H2. split; assumption.
  - intros [-> ->]. reflexivity.
Qed.

Lemma save_then_load_roundtrip_witness :
  exists f',
    save_defaults_text [26481; 20140; 32; 128512] (codes "2 High St, Apt B")
      (Regular Bytes true true)
    = (Returns tt, f')
    /\ load_defaults_text (Limits 4300 1000) f'
       = Returns (saved (merge_pairs [26481; 20140; 32; 128512])
                        (merge_pairs (codes "2 High St, Apt B")))
    /\ (load_defaults_text (Limits 4300 1000) f'
        = Returns (saved [26481; 20140; 32; 128512]
                         (codes "2 High St, Apt B"))
        <-> unpaired [26481; 20140; 32; 128512] = true
            /\ unpaired (codes "2 High St, Apt B") = true).
Proof.
  apply (save_then_load_roundtrip (Limits 4300 1000)
           [26481; 20140; 32; 128512] (codes "2 High St, Apt B")
           (Regular Bytes true true)); reflexivity.
Defined.

(** A file the user may write but not read is saved, and cannot be
    loaded. *)
Example write_only_file_is_saved_not_loaded :
  fst (save_defaults_text (codes "A") (codes "B")
         (Regular (Text []) false true))
  = Returns tt
  /\ load_defaults_text (Limits 4300 1000)
       (snd (save_defaults_text (codes "A") (codes "B")
               (Regular (Text []) false true)))
     = Raises PermissionError.
Proof. split; reflexivity. Qed.

(** What [load_defaults_text] lets through: the file cannot be read, its
    bytes are not text, or its text is a JSON document that [json.load]
    refuses (an integer of more digits than [int] converts, containers
    nested too deep). *)
Example load_defaults_lets_through :
  load_defaults_text (Limits 4300 1000)
    (Regular (Text (codes "{}")) false true)
  = Raises PermissionError
  /\ load_defaults_text (Limits 4300 1000) (Regular Bytes true true)
     = Raises UnicodeDecodeError
  /\ load_defaults_text (Limits 4300 1000)
       (Regular (Text (repeat 49 4301)) true true)
     = Raises ValueError
  /\ load_defaults_text (Limits 4300 3)
       (Regular (Text (codes "[[[[[1]]]]]")) true true)
     = Raises RecursionError
  /\ load_defaults_text (Limits 4300 1000)
       (Other IsADirectoryError IsADirectoryError)
     = Raises IsADirectoryError.
Proof. repeat split; vm_compute; reflexivity. Qed.

(** The strings of [DriveTime] are saved and loaded as they are: the
    pair [DriveTime.write_defaults_file] stores is the pair
    [load_defaults_text] returns from the text. *)
Lemma plain_strings_round_trip (L : limits) (o d : string) (f : node) :
  usable f = true ->
  exists f',
    save_defaults_text (codes o) (codes d) f = (Returns tt, f')
    /\ load_defaults_text L f' = Returns (saved (codes o) (codes d)).
Proof.
  intros Hf.
  destruct (codes_code_points o) as [Ho Ho'].
  destruct (codes_code_points d) as [Hd Hd'].
  destruct (save_then_load L (codes o) (codes d) f Ho Hd Hf)
    as (f' & Hs & Hl).
  exists f'. split; [exact Hs|].
  apply merge_pairs_unpaired in Ho', Hd'. now rewrite Hl, Ho', Hd'.
Qed.

(** X18: the file [save_defaults_text] writes holds printable ASCII
    characters only, whatever the two strings: no character of an
    address reaches the file unescaped, and no line break. *)
Theorem saved_file_is_ascii (o d : ustr) (f f' : node) :
  save_defaults_text o d f = (Returns tt, f') ->
  exists t r w, f' = Regular (Text t) r w /\ ascii_text t = true.
Proof.
  unfold save_defaults_text. intros H.
  destruct f as [r w|c r [|]|e1 e2]; try discriminate H;
    injection H as <-; eexists _, _, _; (split; [reflexivity|]);
    apply dumps_two_ascii.
Qed.

Lemma saved_file_is_ascii_witness :
  exists t r w,
    Regular
      (Text (dumps [(codes "origin", [26481; 20140; 10; 128512]);
                    (codes "destination", [55357; 34; 92; 233])]))
      true false
    = Regular (Text t) r w
    /\ ascii_text t = true.
Proof.
  apply (saved_file_is_ascii [26481; 20140; 10; 128512] [55357; 34; 92; 233]
           (Absent true false)).
  reflexivity.
Defined.

End StoreProofs.

(** * Properties *)

Module DriveTimeProofs.
Import Py DriveTime DriveTimeSpec FloatFacts.

Ltac run :=
  unfold main, resolve_addresses, get_addresses, load_defaults,
    save_defaults, write_defaults_file, read_defaults_file, report_error,
    try_except, print, input, write, bind, ret, raise, lift;
  cbn [defaults_file stdin stdout requests origin destination future
       defaults exn_cls exn_str fst snd negb].

(** ** The preference store *)

Lemma load_defaults_run (w : world) :
  load_defaults w = (load_result (defaults_file w), w).
Proof.
  run. destruct (defaults_file w); reflexivity.
Qed.

(** C4 at the failing input: a defaults file whose bytes are not text
    makes [load_defaults] raise UnicodeDecodeError, which its [except]
    clause does not name, where the claim has it return None.  A run that
    falls back on the saved defaults ends with that exception, before
    anything is printed or asked.  The same holds of the store in
    detail. *)
Lemma load_defaults_raises_on_undecodable_file :
  let w := World (Undecodable "invalid start byte") ["A"; "B"] [] [] in
  load_defaults w
  = (Raise (Exn UnicodeDecodeError "invalid start byte"), w)
  /\ main (fixed_env (Ok sample_routes)) (Args None None None false) w
     = (Raise (Exn UnicodeDecodeError "invalid start byte"), w)
  /\ Store.load_defaults_text (Store.Limits 4300 1000)
       (Store.Regular Store.Bytes true true)
     = Store.Raises UnicodeDecodeError.
Proof. repeat split; reflexivity. Qed.

(** [save_defaults] succeeds on every file it may open. *)
Lemma save_defaults_run (o d : val) (w : world) :
  defaults_file w <> Locked ->
  save_defaults o d w
  = (Ok tt, World (Document (VDict [("origin", o); ("destination", d)]))
                  (stdin w) (stdout w) (requests w)).
Proof.
  intros H. run. destruct (defaults_file w); try reflexivity.
  now elim H.
Qed.

(** ** Address resolution *)

(** C6: with [--defaults] and a positional address missing, [main]
    reports the user error, prints the help and returns: nothing is
    read, no request is sent and the defaults file is left as it was. *)
Theorem defaults_without_addresses_is_reported (E : env) (a : args)
    (w : world) :
  defaults a = true ->
  origin a = None \/ destination a = None ->
  main E a w
  = (Ok tt,
     World (defaults_file w) (stdin w)
       ((stdout w
         ++ [Print [Lit "Error: Must provide addresses when using --defaults"]])
        ++ [Help])
       (requests w)).
Proof.
  intros Hd Hmiss. run. rewrite Hd.
  destruct (origin a), (destination a); try reflexivity.
  destruct Hmiss; discriminate.
Qed.

Lemma defaults_without_addresses_is_reported_witness :
  main (Env (fun _ _ => Ok (VList [])) 1700000000 0 (fun t _ => Ok t))
       (Args (Some "Home") None (Some 15) true)
       (World Missing ["x"] [] [])
  = (Ok tt,
     World Missing ["x"]
       [Print [Lit "Error: Must provide addresses when using --defaults"];
        Help]
       []).
Proof.
  apply (defaults_without_addresses_is_reported
           (Env (fun _ _ => Ok (VList [])) 1700000000 0 (fun t _ => Ok t))
           (Args (Some "Home") None (Some 15) true)
           (World Missing ["x"] [] [])).
  - reflexivity.
  - right. reflexivity.
Defined.

Lemma main_unfold (E : env) (a : args) :
  main E a =
  (r <- resolve_addresses a ;;
   match r with
   | None => ret tt
   | Some p => main_with E a p
   end).
Proof.
  unfold main, main_with. f_equal.
Qed.

Lemma getitem_without_key (k : string) (v : val) :
  has_key k v = false ->
  exists e, getitem v k = Raise e
            /\ (exn_cls e = KeyError \/ exn_cls e = TypeError).
Proof.
  destruct v; simpl; intros H;
    try (eexists; split; [reflexivity | simpl; auto]).
  destruct (lookup k d); [discriminate |].
  eexists; split; [reflexivity | simpl; auto].
Qed.

Lemma getitem_with_key (k : string) (v : val) :
  has_key k v = true -> exists x, getitem v k = Ok x.
Proof.
  destruct v; simpl; try discriminate.
  destruct (lookup k d); [eauto | discriminate].
Qed.

Lemma get_addresses_truthy (w : world) (v : val) :
  load_result (defaults_file w) = Ok v ->
  truthy v = true ->
  get_addresses w =
  (obind (getitem v "origin") (fun o =>
   obind (getitem v "destination") (fun d => Ok (o, d))), w).
Proof.
  intros Hf Ht. unfold get_addresses, bind at 1.
  rewrite load_defaults_run, Hf. rewrite Ht.
  cbn [negb]. unfold bind, lift, ret.
  destruct (getitem v "origin"); [|reflexivity].
  destruct (getitem v "destination"); reflexivity.
Qed.

Lemma get_addresses_falsy (w : world) (v : val) :
  load_result (defaults_file w) = Ok v ->
  truthy v = false ->
  get_addresses w = prompt_run w.
Proof.
  intros Hl Ht. unfold get_addresses, bind at 1.
  rewrite load_defaults_run, Hl, Ht. unfold prompt_run. run.
  destruct (stdin w) as [|l1 [|l2 rest]] eqn:Hs; cbn [stdin stdout];
    rewrite <- ?app_assoc; cbn [app]; try rewrite Hs; reflexivity.
Qed.

Lemma prompt_run_stdout (w : world) :
  stdout (snd (prompt_run w)) <> stdout w.
Proof.
  unfold prompt_run.
  destruct (stdin w) as [|l1 [|l2 rest]]; cbn [snd stdout];
    intros H; apply (f_equal (@List.length output)) in H;
    rewrite !length_app in H; simpl in H; lia.
Qed.

Lemma get_addresses_stdout (w : world) :
  stdout (snd (get_addresses w)) <> stdout w
  <-> prompt_fallback (defaults_file w) = true.
Proof.
  destruct (defaults_file w) as [| |r|r|v] eqn:Hf; cbn [prompt_fallback].
  1,4: (split; [reflexivity | intros _];
        rewrite (get_addresses_falsy w VNone);
        [apply prompt_run_stdout | rewrite Hf; reflexivity | reflexivity]).
  1,2: (split; [intros H; exfalso; apply H | discriminate];
        unfold get_addresses, bind at 1; rewrite load_defaults_run, Hf;
        reflexivity).
  destruct (truthy v) eqn:Ht; cbn [negb].
  - split; [intros H; exfalso; apply H | discriminate].
    rewrite (get_addresses_truthy w v); [reflexivity | | exact Ht].
    rewrite Hf. reflexivity.
  - split; [reflexivity | intros _].
    rewrite (get_addresses_falsy w v); [apply prompt_run_stdout | | exact Ht].
    rewrite Hf. reflexivity.
Qed.

(** C10: when the defaults file holds a JSON document whose value is
    truthy but has no 'origin' or no 'destination' key, [get_addresses]
    raises (KeyError or TypeError) without prompting, and [main] lets the
    exception escape; [get_addresses] writes to the terminal exactly
    when the file is missing, is not JSON, or holds a falsy value. *)
Theorem truthy_defaults_without_keys_raise (w : world) (v : val) :
  defaults_file w = Document v ->
  truthy v = true ->
  has_key "origin" v && has_key "destination" v = false ->
  (exists e,
      get_addresses w = (Raise e, w)
      /\ (exn_cls e = KeyError \/ exn_cls e = TypeError)
      /\ forall E f, main E (Args None None f false) w = (Raise e, w))
  /\ forall w2,
      stdout (snd (get_addresses w2)) <> stdout w2
      <-> prompt_fallback (defaults_file w2) = true.
Proof.
  intros Hf Ht Hk. split; [|apply get_addresses_stdout].
  assert (Hg : get_addresses w =
               (obind (getitem v "origin") (fun o =>
                obind (getitem v "destination") (fun d => Ok (o, d))), w)).
  { apply get_addresses_truthy; [rewrite Hf; reflexivity | exact Ht]. }
  assert (exists e,
             obind (getitem v "origin") (fun o =>
             obind (getitem v "destination") (fun d => Ok (o, d))) = Raise e
             /\ (exn_cls e = KeyError \/ exn_cls e = TypeError))
    as (e & He & Hc).
  { destruct (has_key "origin" v) eqn:Ho.
    - destruct (getitem_with_key _ _ Ho) as (x & ->).
      destruct (getitem_without_key "destination" v) as (e & -> & Hc);
        [exact Hk | exists e; split; [reflexivity | exact Hc]].
    - destruct (getitem_without_key "origin" v Ho) as (e & -> & Hc).
      exists e; split; [reflexivity | exact Hc]. }
  rewrite He in Hg. exists e. repeat split; try assumption.
  intros E f. rewrite main_unfold. unfold resolve_addresses.
  cbn [origin destination defaults]. unfold bind. rewrite Hg. reflexivity.
Qed.

Lemma truthy_defaults_without_keys_raise_witness :
  (exists e,
      get_addresses (World (Document (VList [VInt 1])) ["a"; "b"] [] [])
      = (Raise e, World (Document (VList [VInt 1])) ["a"; "b"] [] [])
      /\ (exn_cls e = KeyError \/ exn_cls e = TypeError)
      /\ forall E f,
          main E (Args None None f false)
               (World (Document (VList [VInt 1])) ["a"; "b"] [] [])
          = (Raise e, World (Document (VList [VInt 1])) ["a"; "b"] [] []))
  /\ forall w2,
      stdout (snd (get_addresses w2)) <> stdout w2
      <-> prompt_fallback (defaults_file w2) = true.
Proof.
  apply (truthy_defaults_without_keys_raise
           (World (Document (VList [VInt 1])) ["a"; "b"] [] [])
           (VList [VInt 1])); reflexivity.
Defined.

(** ** Average speed *)

(** C7: when the ETA is zero, the average speed computed from it, for the
    current and for the future query alike, is the integer 0: the
    division by the elapsed hours is not evaluated, whatever the
    distance. *)
Theorem avg_speed_of_zero_eta (distance_mi eta : val) :
  zero_minutes eta = true ->
  avg_speed distance_mi eta = Ok (VInt 0).
Proof.
  destruct eta as [| |z|x| | |]; try discriminate; simpl; intros H.
  - apply Z.eqb_eq in H. subst z. reflexivity.
  - destruct x as [sg| | |]; try discriminate. destruct sg; reflexivity.
Qed.

Lemma avg_speed_of_zero_eta_witness :
  avg_speed (VFloat (S754_finite false 7 (-1))) (VFloat (S754_zero false))
  = Ok (VInt 0).
Proof.
  apply (avg_speed_of_zero_eta
           (VFloat (S754_finite false 7 (-1))) (VFloat (S754_zero false))).
  reflexivity.
Defined.

(** ** Directions queries *)

Lemma bind_lift {A B} (o : outcome A) (k : A -> M B) (w : world) :
  (x <- lift o ;; k x) w =
  match o with
  | Ok a => k a w
  | Raise e => (Raise e, w)
  end.
Proof. unfold bind, lift. destruct o; reflexivity. Qed.

Lemma eta_minutes_run (E : env) (o d : val) (t : Z) (w : world) :
  eta_minutes E o d t w =
  (obind (gmaps_directions E (requests w) (Request o d t)) (fun result =>
   obind (first_leg result) leg_summary),
   asked w (Request o d t)).
Proof.
  unfold eta_minutes, directions, bind, lift, asked.
  destruct (gmaps_directions E (requests w) (Request o d t)); [|reflexivity].
  cbn [obind]. destruct (first_leg a); reflexivity.
Qed.

Lemma obind_ok {A B} (o : outcome A) (k : A -> outcome B) (b : B) :
  obind o k = Ok b -> exists a, o = Ok a /\ k a = Ok b.
Proof. destruct o; simpl; [eauto | discriminate]. Qed.

(** What a successful [leg_summary] has read. *)
Lemma leg_summary_ok (leg eta fo fd dist : val) :
  leg_summary leg = Ok (eta, fo, fd, dist) ->
  exists dit seconds dd minutes,
    getitem leg "duration_in_traffic" = Ok dit
    /\ getitem dit "value" = Ok seconds
    /\ getitem leg "start_address" = Ok fo
    /\ getitem leg "end_address" = Ok fd
    /\ getitem leg "distance" = Ok dd
    /\ getitem dd "text" = Ok dist
    /\ truediv seconds (VInt 60) = Ok minutes
    /\ round_1 minutes = Ok eta.
Proof.
  unfold leg_summary. intros H.
  apply obind_ok in H as (dit & H1 & H).
  apply obind_ok in H as (seconds & H2 & H).
  apply obind_ok in H as (fo' & H3 & H).
  apply obind_ok in H as (fd' & H4 & H).
  apply obind_ok in H as (dd & H5 & H).
  apply obind_ok in H as (dist' & H6 & H).
  apply obind_ok in H as (minutes & H7 & H).
  apply obind_ok in H as (eta' & H8 & H).
  injection H as -> -> -> ->.
  exists dit, seconds, dd, minutes. repeat split; assumption.
Qed.

(** [report_error] never raises: it prints one line, and a second one
    when the message names ZERO_RESULTS. *)
Lemma report_error_run (e : exn) (w : world) :
  report_error e w =
  (Ok tt,
   World (defaults_file w) (stdin w)
     (stdout w ++
      Print [Lit "Error: "; Lit (exn_str e)] ::
      (if contains "ZERO_RESULTS" (exn_str e)
       then [Print [Lit "No route found between the specified addresses."]]
       else []))
     (requests w)).
Proof.
  unfold report_error, print, write, bind, ret.
  destruct (contains "ZERO_RESULTS" (exn_str e));
    cbn [defaults_file stdin stdout requests];
    rewrite <- ?app_assoc; cbn [app]; try rewrite app_nil_r; reflexivity.
Qed.

Lemma bind_print {B} (l : list piece) (k : M B) (w : world) :
  (print l ;; k) w =
  k (World (defaults_file w) (stdin w) (stdout w ++ [Print l]) (requests w)).
Proof. reflexivity. Qed.

Lemma extends_nil (w : world) (reqs : list request) :
  World (defaults_file w) (stdin w) (stdout w) (requests w ++ reqs)
  = extends w [] reqs.
Proof. unfold extends. now rewrite app_nil_r. Qed.

Lemma asked_extends (w : world) (q : request) : asked w q = extends w [] [q].
Proof. unfold asked. apply extends_nil. Qed.

Lemma asked_of_extends (w : world) (out : list output)
    (reqs : list request) (q : request) :
  asked (extends w out reqs) q = extends w out (reqs ++ [q]).
Proof. unfold asked, extends. cbn. now rewrite app_assoc. Qed.

Lemma print_extends {B} (l : list piece) (k : M B) (w : world)
    (out : list output) (reqs : list request):
  (print l ;; k) (extends w out reqs) = k (extends w (out ++ [Print l]) reqs).
Proof. rewrite bind_print. unfold extends. cbn. now rewrite app_assoc. Qed.

Lemma query_and_report_trace (E : env) (o d : val) (f : option Z)
    (w : world) :
  exists r out reqs,
    query_and_report E o d f w
    = (r, extends w out (Request o d (time_time E) :: reqs))
    /\ follow_up E (requests w) (Request o d (time_time E)) f reqs.
Proof.
  unfold query_and_report.
  set (q1 := Request o d (time_time E)).
  unfold bind at 1. rewrite eta_minutes_run. rewrite asked_extends.
  fold q1.
  destruct (gmaps_directions E (requests w) q1) as [result|e] eqn:Hg;
    cbn [obind]; [|exists (Raise e), [], []; split; [reflexivity | now left]].
  destruct (first_leg result) as [leg|e] eqn:Hl;
    cbn [obind]; [|exists (Raise e), [], []; split; [reflexivity | now left]].
  destruct (leg_summary leg) as [[[[eta fo] fd] dist]|e] eqn:Hs;
    [|exists (Raise e), [], []; split; [reflexivity | now left]].
  apply leg_summary_ok in Hs as (dit & sec & dd & mins & _ & _ & Hfo & Hfd & _).
  rewrite bind_lift.
  destruct (leading_number dist) as [mi|e];
    [|exists (Raise e), [], []; split; [reflexivity | now left]].
  rewrite bind_lift.
  destruct (avg_speed mi eta) as [sp|e];
    [|exists (Raise e), [], []; split; [reflexivity | now left]].
  rewrite bind_lift.
  destruct (plus_minutes E (datetime_now E) eta) as [arr|e];
    [|exists (Raise e), [], []; split; [reflexivity | now left]].
  rewrite !print_extends.
  destruct f as [n|];
    [|eexists (Ok tt), _, []; split; [reflexivity | now left]].
  unfold bind at 1. rewrite eta_minutes_run, asked_of_extends. cbn [app].
  assert (Hfu : follow_up E (requests w) q1 (Some n)
                  [Request fo fd (time_time E + n * 60)]).
  { right. exists n, result, leg, fo, fd. repeat split; assumption. }
  match goal with
  | |- context [obind ?x ?k] => destruct (obind x k) as [[[[e2 ?] ?] d2]|e]
  end; [|eexists (Raise e), _, _; split; [reflexivity | exact Hfu]].
  rewrite bind_lift.
  destruct (leading_number d2) as [mi2|e];
    [|eexists (Raise e), _, _; split; [reflexivity | exact Hfu]].
  rewrite bind_lift.
  destruct (avg_speed mi2 e2) as [sp2|e];
    [|eexists (Raise e), _, _; split; [reflexivity | exact Hfu]].
  rewrite bind_lift.
  destruct (add (VInt n) e2) as [off|e];
    [|eexists (Raise e), _, _; split; [reflexivity | exact Hfu]].
  rewrite bind_lift.
  destruct (plus_minutes E (datetime_now E) off) as [arr2|e];
    [|eexists (Raise e), _, _; split; [reflexivity | exact Hfu]].
  eexists (Ok tt), _, _. split; [|exact Hfu].
  unfold print, write, extends. cbn [defaults_file stdin stdout requests].
  rewrite <- app_assoc. reflexivity.
Qed.

(** The guarded part of [main] always returns normally. *)
Lemma guarded_query_trace (E : env) (o d : val) (f : option Z) (w : world) :
  exists out reqs,
    try_except (query_and_report E o d f) report_error w
    = (Ok tt, extends w out (Request o d (time_time E) :: reqs))
    /\ follow_up E (requests w) (Request o d (time_time E)) f reqs.
Proof.
  destruct (query_and_report_trace E o d f w) as (r & out & reqs & Hq & Hf).
  unfold try_except. rewrite Hq. destruct r as [[]|e].
  - exists out, reqs. split; [reflexivity | exact Hf].
  - rewrite report_error_run. eexists _, reqs. split; [|exact Hf].
    unfold extends. cbn [defaults_file stdin stdout requests].
    rewrite <- app_assoc. reflexivity.
Qed.

Lemma get_addresses_frame (w : world) :
  requests (snd (get_addresses w)) = requests w
  /\ defaults_file (snd (get_addresses w)) = defaults_file w.
Proof.
  destruct (load_result (defaults_file w)) as [v|e] eqn:Hl.
  - destruct (truthy v) eqn:Ht.
    + rewrite (get_addresses_truthy w v Hl Ht). split; reflexivity.
    + rewrite (get_addresses_falsy w v Hl Ht). unfold prompt_run.
      destruct (stdin w) as [|l1 [|l2 rest]]; split; reflexivity.
  - assert (Hg : get_addresses w = (Raise e, w)).
    { unfold get_addresses, bind at 1. now rewrite load_defaults_run, Hl. }
    rewrite Hg. split; reflexivity.
Qed.

Lemma resolve_addresses_frame (a : args) (w : world) :
  requests (snd (resolve_addresses a w)) = requests w.
Proof.
  unfold resolve_addresses.
  destruct (origin a), (destination a); try reflexivity;
    (destruct (defaults a); [reflexivity |];
     unfold bind; pose proof (get_addresses_frame w) as [Hr _];
     destruct (get_addresses w) as [[p|e] w1]; exact Hr).
Qed.

Lemma main_with_requests (E : env) (a : args) (o d : val) (w : world) :
  requests (snd (main_with E a (o, d) w)) = requests w
  \/ exists reqs,
      requests (snd (main_with E a (o, d) w))
      = (requests w ++ Request o d (time_time E) :: reqs)%list
      /\ follow_up E (requests w) (Request o d (time_time E)) (future a) reqs.
Proof.
  unfold main_with.
  assert (Hstep : forall w1, requests w1 = requests w ->
            exists reqs,
              requests (snd (try_except
                               (query_and_report E o d (future a))
                               report_error w1))
              = (requests w ++ Request o d (time_time E) :: reqs)%list
              /\ follow_up E (requests w) (Request o d (time_time E))
                           (future a) reqs).
  { intros w1 H1.
    destruct (guarded_query_trace E o d (future a) w1)
      as (out & reqs & -> & Hf).
    exists reqs. rewrite H1 in Hf. split; [|exact Hf].
    cbn. now rewrite H1. }
  destruct (defaults a).
  - unfold save_defaults, write_defaults_file, print, write, bind.
    destruct (defaults_file w);
      try (right; apply Hstep; reflexivity).
    left. reflexivity.
  - right. apply Hstep. reflexivity.
Qed.

(** C8: in every run of [main], if a second request is sent to the
    directions service, it is the future-ETA request, and its origin and
    destination are the start and end addresses of the first leg of the
    first route the service returned for the first request; no third
    request follows. *)
Theorem future_query_uses_normalized_addresses (E : env) (a : args)
    (w : world) (q1 q2 : request) (rest : list request) :
  requests (snd (main E a w)) = (requests w ++ q1 :: q2 :: rest)%list ->
  exists n result leg,
    future a = Some n
    /\ gmaps_directions E (requests w) q1 = Ok result
    /\ first_leg result = Ok leg
    /\ getitem leg "start_address" = Ok (req_origin q2)
    /\ getitem leg "end_address" = Ok (req_destination q2)
    /\ req_departure_time q2 = time_time E + n * 60
    /\ rest = [].
Proof.
  rewrite main_unfold. unfold bind at 1.
  pose proof (resolve_addresses_frame a w) as Hr.
  destruct (resolve_addresses a w) as [[[[o d]|]|e] w1]; cbn [snd] in *.
  - destruct (main_with_requests E a o d w1) as [H|(reqs & H & Hf)];
      rewrite H, Hr; intros Heq.
    + exfalso. apply (f_equal (@List.length request)) in Heq.
      rewrite length_app in Heq. simpl in Heq. lia.
    + apply app_inv_head in Heq. injection Heq as Hq1 Hreqs.
      subst q1 reqs. rewrite Hr in Hf.
      destruct Hf as [Hf|(n & result & leg & fo & fd & Hn & Hg & Hl & Ho & Hd & Hq)];
        [discriminate |].
      injection Hq as Hq2 Hrest. subst q2 rest.
      exists n, result, leg. repeat split; assumption.
  - unfold ret. cbn [snd]. rewrite Hr. intros Heq. exfalso.
    apply (f_equal (@List.length request)) in Heq.
    rewrite length_app in Heq. simpl in Heq. lia.
  - cbn [snd]. rewrite Hr. intros Heq. exfalso.
    apply (f_equal (@List.length request)) in Heq.
    rewrite length_app in Heq. simpl in Heq. lia.
Qed.

Lemma future_query_uses_normalized_addresses_witness :
  exists n result leg,
    Some 30 = Some n
    /\ Ok sample_routes = Ok result
    /\ first_leg result = Ok leg
    /\ getitem leg "start_address"
       = Ok (VStr "1600 Amphitheatre Pkwy, Mountain View, CA 94043, USA")
    /\ getitem leg "end_address"
       = Ok (VStr "1 Infinite Loop, Cupertino, CA 95014, USA")
    /\ 1700001800 = 1700000000 + n * 60
    /\ @nil request = [].
Proof.
  apply (future_query_uses_normalized_addresses
           (fixed_env (Ok sample_routes))
           (Args (Some "googleplex") (Some "apple campus") (Some 30) false)
           fresh
           (Request (VStr "googleplex") (VStr "apple campus") 1700000000)
           (Request
              (VStr "1600 Amphitheatre Pkwy, Mountain View, CA 94043, USA")
              (VStr "1 Infinite Loop, Cupertino, CA 95014, USA")
              1700001800)
           []).
  vm_compute. reflexivity.
Defined.

(** C9: without [--defaults], a command line giving only one of the two
    positional addresses runs exactly as one giving neither, and the
    given argument is dropped.  When the defaults file holds a truthy
    document, the query is sent for its 'origin' and 'destination' and
    nothing is read from the terminal; when the file gives no defaults,
    both addresses are prompted for and the query is sent for the two
    stripped answers. *)
Theorem one_address_behaves_as_none (E : env) (x : string)
    (f : option Z) :
  main E (Args (Some x) None f false) = main E (Args None None f false)
  /\ main E (Args None (Some x) f false) = main E (Args None None f false)
  /\ resolve_addresses (Args (Some x) None f false)
     = (p <- get_addresses ;; ret (Some p))
  /\ resolve_addresses (Args None (Some x) f false)
     = (p <- get_addresses ;; ret (Some p))
  /\ (forall (a : args) (w : world) (v o d : val),
        a = Args (Some x) None f false \/ a = Args None (Some x) f false ->
        defaults_file w = Document v ->
        truthy v = true ->
        getitem v "origin" = Ok o ->
        getitem v "destination" = Ok d ->
        exists out reqs,
          main E a w
          = (Ok tt, extends w out (Request o d (time_time E) :: reqs))
          /\ follow_up E (requests w) (Request o d (time_time E)) f reqs)
  /\ (forall (a : args) (w : world) (l1 l2 : string) (rest : list string),
        a = Args (Some x) None f false \/ a = Args None (Some x) f false ->
        prompt_fallback (defaults_file w) = true ->
        stdin w = l1 :: l2 :: rest ->
        exists out reqs,
          main E a w
          = (Ok tt,
             World (defaults_file w) rest
               (stdout w ++
                Print [Lit "No default addresses found. Please provide addresses."]
                :: Prompt "Enter origin address or 'lat,lng': "
                :: Prompt "Enter destination address or 'lat,lng': "
                :: out)
               (requests w ++
                Request (VStr (strip l1)) (VStr (strip l2)) (time_time E)
                :: reqs))
          /\ follow_up E (requests w)
               (Request (VStr (strip l1)) (VStr (strip l2)) (time_time E))
               f reqs).
Proof.
  split; [reflexivity|]. split; [reflexivity|].
  split; [reflexivity|]. split; [reflexivity|].
  assert (Hmain : forall a w,
            a = Args (Some x) None f false \/ a = Args None (Some x) f false ->
            main E a w
            = match get_addresses w with
              | (Ok (o, d), w1) =>
                  try_except (query_and_report E o d f) report_error w1
              | (Raise e, w1) => (Raise e, w1)
              end).
  { intros a w [->| ->]; unfold main, resolve_addresses;
      cbn [origin destination defaults future]; unfold bind, ret;
      destruct (get_addresses w) as [[[o d]|e] w1]; reflexivity. }
  split.
  - intros a w v o d Ha Hf Ht Ho Hd. rewrite (Hmain a w Ha).
    rewrite (get_addresses_truthy w v); [|rewrite Hf; reflexivity | exact Ht].
    rewrite Ho, Hd. cbn [obind].
    apply guarded_query_trace.
  - intros a w l1 l2 rest Ha Hp Hin. rewrite (Hmain a w Ha).
    assert (Hg : get_addresses w = prompt_run w).
    { destruct (defaults_file w) as [| |r|r|v] eqn:Hf;
        cbn [prompt_fallback] in Hp; try discriminate.
      - apply (get_addresses_falsy w VNone); [rewrite Hf|]; reflexivity.
      - apply (get_addresses_falsy w VNone); [rewrite Hf|]; reflexivity.
      - apply (get_addresses_falsy w v); [rewrite Hf; reflexivity|].
        now destruct (truthy v). }
    rewrite Hg. unfold prompt_run. rewrite Hin.
    match goal with
    | |- context [try_except _ _ ?w1] =>
        destruct (guarded_query_trace E (VStr (strip l1)) (VStr (strip l2))
                    f w1) as (out & reqs & Hq & Hfu)
    end.
    exists out, reqs. rewrite Hq. split; [|exact Hfu].
    unfold extends. cbn [defaults_file stdin stdout requests app].
    rewrite <- app_assoc. reflexivity.
Qed.

(** ** Saving defaults *)

Lemma main_both_given (E : env) (o d : string) (f : option Z) (b : bool) :
  main E (Args (Some o) (Some d) f b)
  = main_with E (Args (Some o) (Some d) f b) (VStr o, VStr d).
Proof. reflexivity. Qed.




(** ** No route *)

(** The path the [except] clause was written for: an exception whose text
    names ZERO_RESULTS gets the "no route" line after the error line. *)
Lemma zero_results_exception_is_reported (E : env) (o d : string)
    (f : option Z) (w : world) (e : exn) :
  gmaps_directions E (requests w) (Request (VStr o) (VStr d) (time_time E))
  = Raise e ->
  contains "ZERO_RESULTS" (exn_str e) = true ->
  main E (Args (Some o) (Some d) f false) w
  = (Ok tt,
     World (defaults_file w) (stdin w)
       (stdout w ++
        [Print [Lit "Error: "; Lit (exn_str e)];
         Print [Lit "No route found between the specified addresses."]])
       (requests w ++ [Request (VStr o) (VStr d) (time_time E)])).
Proof.
  intros Hg Hc. rewrite main_both_given. unfold main_with.
  cbn [defaults future]. unfold bind at 1, ret, try_except, query_and_report.
  unfold bind at 1. rewrite eta_minutes_run, Hg. cbn [obind].
  rewrite report_error_run, Hc. reflexivity.
Qed.

(** C2 at the failing input: the directions client answers a request
    that has no route with an empty list of routes (service status
    ZERO_RESULTS).  [eta_minutes] then fails on [result[0]] with an
    IndexError, and [main] prints "Error: list index out of range" and
    nothing else: the "no route" line does not appear.  The process
    does return normally. *)
Theorem empty_routes_reported_as_index_error (E : env) (o d : string)
    (f : option Z) (w : world) :
  gmaps_directions E (requests w) (Request (VStr o) (VStr d) (time_time E))
  = Ok (VList []) ->
  main E (Args (Some o) (Some d) f false) w
  = (Ok tt,
     World (defaults_file w) (stdin w)
       (stdout w ++ [Print [Lit "Error: "; Lit "list index out of range"]])
       (requests w ++ [Request (VStr o) (VStr d) (time_time E)])).
Proof.
  intros Hg. rewrite main_both_given. unfold main_with.
  cbn [defaults future]. unfold bind at 1, ret, try_except, query_and_report.
  unfold bind at 1. rewrite eta_minutes_run, Hg. cbn [obind first_leg getitem0].
  rewrite report_error_run. reflexivity.
Qed.

Lemma empty_routes_reported_as_index_error_witness :
  main (fixed_env (Ok (VList [])))
       (Args (Some "Honolulu, HI") (Some "Los Angeles, CA") (Some 30) false)
       fresh
  = (Ok tt,
     World Missing []
       ([] ++ [Print [Lit "Error: "; Lit "list index out of range"]])
       ([] ++ [Request (VStr "Honolulu, HI") (VStr "Los Angeles, CA")
                       1700000000])).
Proof.
  apply (empty_routes_reported_as_index_error
           (fixed_env (Ok (VList [])))
           "Honolulu, HI" "Los Angeles, CA" (Some 30) fresh).
  reflexivity.
Defined.

(** ** The directions client *)








(** 2447 seconds are 40.8 minutes, three seconds 0.1 minutes (the float
    nearest to 0.05 lies above it), nine seconds 0.1 minutes (the float
    nearest to 0.15 lies below it), fifteen seconds 0.2 minutes (0.25 is
    a float: the tie goes to the even digit). *)
Example eta_of_sample_durations :
  obind (int_truediv 2447 60) (fun q => Ok (round1 q))
  = Ok (S754_finite false 5742089524897382 (-47))
  /\ obind (int_truediv 3 60) (fun q => Ok (round1 q))
     = Ok (S754_finite false 7205759403792794 (-56))
  /\ obind (int_truediv 9 60) (fun q => Ok (round1 q))
     = Ok (S754_finite false 7205759403792794 (-56))
  /\ obind (int_truediv 15 60) (fun q => Ok (round1 q))
     = Ok (S754_finite false 7205759403792794 (-55)).
Proof. repeat split; vm_compute; reflexivity. Qed.

(** ** Sample runs *)

(** A run with [-f 30]: 2447 seconds are 40.8 minutes, 32.4 miles in
    40.8 minutes are 47.6 mph; the second request carries the addresses
    of the first answer. *)
Example run_with_future :
  main (fixed_env (Ok sample_routes))
       (Args (Some "googleplex") (Some "apple campus") (Some 30) false)
       fresh
  = (Ok tt,
     let start :=
       VStr "1600 Amphitheatre Pkwy, Mountain View, CA 94043, USA" in
     let finish := VStr "1 Infinite Loop, Cupertino, CA 95014, USA" in
     let eta := VFloat (S754_finite false 5742089524897382 (-47)) in
     let miles := VFloat (S754_finite false 4559894622712627 (-47)) in
     let mph := VFloat (S754_finite false 6705727386342099 (-47)) in
     World Missing []
       [Print [Lit "Route: "; Str start; Lit " → "; Str finish; Lit " (";
               Str (VStr "32.4 mi"); Lit ")"];
        Print [Lit "Current ETA: "; Clock 0; Lit " ("; Fixed1 eta;
               Lit " min, "; Fixed1 miles; Lit " mi @ "; Fixed1 mph;
               Lit " mph)"];
        Print [Lit "ETA in "; Str (VInt 30); Lit " min: "; Clock 0;
               Lit " ("; Fixed1 eta; Lit " min, "; Fixed1 miles;
               Lit " mi @ "; Fixed1 mph; Lit " mph)"]]
       [Request (VStr "googleplex") (VStr "apple campus") 1700000000;
        Request start finish 1700001800]).
Proof. vm_compute. reflexivity. Qed.

(** A two-second trip: the ETA rounds to 0.0 minutes and both lines
    report a speed of 0. *)
Example run_with_zero_eta :
  stdout (snd
    (main (fixed_env
             (Ok (VList [VDict [("legs", VList [sample_leg 2 "0.1 mi"])]])))
          (Args (Some "here") (Some "here") (Some 5) false) fresh))
  = let start :=
      VStr "1600 Amphitheatre Pkwy, Mountain View, CA 94043, USA" in
    let finish := VStr "1 Infinite Loop, Cupertino, CA 95014, USA" in
    let eta := VFloat (S754_zero false) in
    let miles := VFloat (S754_finite false 7205759403792794 (-56)) in
    [Print [Lit "Route: "; Str start; Lit " → "; Str finish; Lit " (";
            Str (VStr "0.1 mi"); Lit ")"];
     Print [Lit "Current ETA: "; Clock 0; Lit " ("; Fixed1 eta;
            Lit " min, "; Fixed1 miles; Lit " mi @ "; Fixed1 (VInt 0);
            Lit " mph)"];
     Print [Lit "ETA in "; Str (VInt 5); Lit " min: "; Clock 0;
            Lit " ("; Fixed1 eta; Lit " min, "; Fixed1 miles;
            Lit " mi @ "; Fixed1 (VInt 0); Lit " mph)"]].
Proof. vm_compute. reflexivity. Qed.

(** Prompting: the answers are stripped, and a distance the script cannot
    parse ends in the error line. *)
Example run_with_prompt :
  main (fixed_env
          (Ok (VList [VDict [("legs", VList [sample_leg 90000 "1,234 mi"])]])))
       (Args None None None false)
       (World (Malformed "Expecting value") ["  Seattle "; "Miami"] [] [])
  = (Ok tt,
     World (Malformed "Expecting value") []
       [Print [Lit "No default addresses found. Please provide addresses."];
        Prompt "Enter origin address or 'lat,lng': ";
        Prompt "Enter destination address or 'lat,lng': ";
        Print [Lit "Error: ";
               Lit "could not convert string to float: '1,234'"]]
       [Request (VStr "Seattle") (VStr "Miami") 1700000000]).
Proof. vm_compute. reflexivity. Qed.

End DriveTimeProofs.

(** * Further properties *)

Module DriveTimeExtras.
Import Py DriveTime DriveTimeSpec Startup ExtrasSpec FloatFacts DriveTimeProofs.

(** ** How [main] ends and what it touches *)

Lemma main_with_cases (E : env) (a : args) (o d : val) (w : world) :
  (defaults a = true /\ defaults_file w = Locked
   /\ main_with E a (o, d) w = (Raise permission_denied, w))
  \/ ((defaults a = true -> defaults_file w <> Locked)
      /\ exists out reqs,
          main_with E a (o, d) w
          = (Ok tt,
             World (if defaults a then Document (saved_pair o d)
                    else defaults_file w)
                   (stdin w) (stdout w ++ out)
                   (requests w ++ Request o d (time_time E) :: reqs))
          /\ follow_up E (requests w) (Request o d (time_time E))
                       (future a) reqs
          /\ (defaults a = true ->
              exists out',
                out = Print [Lit "Saved default addresses: "; Str o;
                             Lit " → "; Str d] :: out')).
Proof.
  unfold main_with. destruct (defaults a) eqn:Hd.
  - destruct (defaults_file w) eqn:Hf.
    2: { left. repeat split.
         unfold save_defaults, write_defaults_file, bind. rewrite Hf.
         reflexivity. }
    all: right; split; [intros _; discriminate|];
      unfold save_defaults, write_defaults_file, print, write, bind;
      rewrite Hf; cbn [defaults_file stdin stdout requests];
      match goal with
      | |- context [try_except ?m ?h ?w1] =>
          destruct (guarded_query_trace E o d (future a) w1)
            as (out & reqs & -> & Hfu)
      end;
      eexists _, reqs; unfold extends;
      cbn [defaults_file stdin stdout requests];
      rewrite <- app_assoc; cbn [app];
      (split; [reflexivity | split; [exact Hfu | intros _; eauto]]).
  - right. split; [discriminate|].
    unfold bind at 1, ret.
    destruct (guarded_query_trace E o d (future a) w)
      as (out & reqs & -> & Hfu).
    exists out, reqs. split; [reflexivity | split; [exact Hfu | discriminate]].
Qed.


Lemma get_addresses_cases (w : world) :
  (prompt_fallback (defaults_file w) = false
   /\ exists r, get_addresses w = (r, w))
  \/ (prompt_fallback (defaults_file w) = true
      /\ get_addresses w = prompt_run w).
Proof.
  destruct (load_result (defaults_file w)) as [v|e] eqn:Hl.
  - destruct (truthy v) eqn:Ht.
    + left. split.
      * destruct (defaults_file w); simpl in *; try discriminate;
          try reflexivity; injection Hl as <-; try discriminate.
        now rewrite Ht.
      * eexists. apply (get_addresses_truthy w v Hl Ht).
    + right. split; [|apply (get_addresses_falsy w v Hl Ht)].
      destruct (defaults_file w); simpl in *; try discriminate;
        try reflexivity. injection Hl as <-. now rewrite Ht.
  - left. split.
    + destruct (defaults_file w); simpl in *; try discriminate; reflexivity.
    + exists (Raise e). unfold get_addresses, bind at 1.
      now rewrite load_defaults_run, Hl.
Qed.

Lemma both_given_inv (a : args) :
  both_given a = true ->
  exists o d, origin a = Some o /\ destination a = Some d.
Proof.
  unfold both_given. destruct (origin a), (destination a); try discriminate.
  eauto.
Qed.

Lemma main_given (E : env) (a : args) (o d : string) :
  origin a = Some o -> destination a = Some d ->
  main E a = main_with E a (VStr o, VStr d).
Proof.
  intros Ho Hd. rewrite main_unfold. unfold resolve_addresses.
  rewrite Ho, Hd. reflexivity.
Qed.

Lemma main_missing (E : env) (a : args) (w : world) :
  both_given a = false ->
  defaults a = false ->
  main E a w =
  match get_addresses w with
  | (Ok p, w1) => main_with E a p w1
  | (Raise e, w1) => (Raise e, w1)
  end.
Proof.
  intros Hb Hd. rewrite main_unfold. unfold resolve_addresses, both_given in *.
  rewrite Hd.
  destruct (origin a), (destination a); try discriminate;
    unfold bind, ret; destruct (get_addresses w) as [[p|e] w1]; reflexivity.
Qed.

(** X3: the defaults file changes only in a run with [--defaults] and
    both addresses, which overwrites it with exactly the given pair,
    whatever it held and whatever happens to the query afterwards; every
    other run leaves it as it was. *)
Theorem defaults_file_after_main (E : env) (a : args) (w : world) :
  defaults_file (snd (main E a w)) = file_after a (defaults_file w).
Proof.
  destruct (both_given a) eqn:Hb.
  - destruct (both_given_inv a Hb) as (o & d & Ho & Hd).
    rewrite (main_given E a o d Ho Hd). unfold file_after.
    rewrite Ho, Hd.
    destruct (main_with_cases E a (VStr o) (VStr d) w)
      as [(Hdf & Hl & ->) | (Hw & out & reqs & -> & _)]; cbn [snd defaults_file].
    + rewrite Hl. destruct (defaults a); reflexivity.
    + destruct (defaults a).
      * destruct (defaults_file w); try reflexivity. now elim Hw.
      * destruct (defaults_file w); reflexivity.
  - assert (Hfa : file_after a (defaults_file w) = defaults_file w).
    { unfold file_after, both_given in *.
      destruct (origin a), (destination a); try discriminate;
        destruct (defaults a), (defaults_file w); reflexivity. }
    rewrite Hfa. destruct (defaults a) eqn:Hdf.
    + rewrite main_unfold. unfold resolve_addresses, both_given in *.
      rewrite Hdf. destruct (origin a), (destination a); try discriminate;
        reflexivity.
    + rewrite (main_missing E a w Hb Hdf).
      pose proof (get_addresses_frame w) as [_ Hfl].
      destruct (get_addresses w) as [[[o d]|e1] w1]; cbn [snd] in *;
        [|exact Hfl].
      destruct (main_with_cases E a o d w1)
        as [(Hdf' & _) | (_ & out & reqs & -> & _)]; [congruence|].
      rewrite Hdf. cbn [snd defaults_file]. exact Hfl.
Qed.

(** X4: a run of [main] only appends to the requests sent so far, and
    appends at most two: none when it stops before the query, one
    departing now, and with [--future N] possibly a second one departing
    [N * 60] seconds later.  Nothing is ever asked twice. *)
Theorem main_sends_at_most_two_requests (E : env) (a : args) (w : world) :
  exists reqs,
    requests (snd (main E a w)) = (requests w ++ reqs)%list
    /\ (reqs = []
        \/ (exists q1, reqs = [q1] /\ req_departure_time q1 = time_time E)
        \/ (exists q1 q2 n,
              reqs = [q1; q2]
              /\ future a = Some n
              /\ req_departure_time q1 = time_time E
              /\ req_departure_time q2 = time_time E + n * 60)).
Proof.
  assert (Hmw : forall o d w1, requests w1 = requests w ->
            exists reqs,
              requests (snd (main_with E a (o, d) w1))
              = (requests w ++ reqs)%list
              /\ (reqs = []
                  \/ (exists q1, reqs = [q1]
                                 /\ req_departure_time q1 = time_time E)
                  \/ (exists q1 q2 n,
                        reqs = [q1; q2]
                        /\ future a = Some n
                        /\ req_departure_time q1 = time_time E
                        /\ req_departure_time q2 = time_time E + n * 60))).
  { intros o d w1 H1.
    destruct (main_with_cases E a o d w1)
      as [(_ & _ & ->) | (_ & out & reqs & -> & Hfu & _)]; cbn [snd requests].
    - exists []. rewrite app_nil_r. split; [exact H1 | now left].
    - rewrite H1. eexists. split; [reflexivity|].
      destruct Hfu as [-> | (n & res & leg & fo & fd & Hn & _ & _ & _ & _ & ->)].
      + right. left. eexists. split; reflexivity.
      + right. right. eexists _, _, n. repeat split. exact Hn. }
  rewrite main_unfold. unfold bind at 1.
  pose proof (resolve_addresses_frame a w) as Hr.
  destruct (resolve_addresses a w) as [[[[o d]|]|e] w1]; cbn [snd] in *.
  - apply Hmw. exact Hr.
  - exists []. rewrite app_nil_r. split; [exact Hr | now left].
  - exists []. rewrite app_nil_r. split; [exact Hr | now left].
Qed.

(** X5: [main] reads standard input only when an address is missing
    from the command line, [--defaults] is off and the defaults file is
    missing, not JSON or falsy; it then consumes at most two lines, from
    the front. *)
Theorem main_reads_input_only_to_prompt (E : env) (a : args) (w : world) :
  exists k : nat,
    stdin (snd (main E a w)) = skipn k (stdin w)
    /\ (k <= 2)%nat
    /\ (k <> 0%nat ->
        both_given a = false /\ defaults a = false
        /\ prompt_fallback (defaults_file w) = true).
Proof.
  assert (Hmw : forall o d w1, stdin (snd (main_with E a (o, d) w1)) = stdin w1).
  { intros o d w1.
    destruct (main_with_cases E a o d w1)
      as [(_ & _ & ->) | (_ & out & reqs & -> & _)]; reflexivity. }
  destruct (both_given a) eqn:Hb.
  - destruct (both_given_inv a Hb) as (o & d & Ho & Hd).
    rewrite (main_given E a o d Ho Hd), Hmw.
    exists 0%nat. split; [reflexivity | split; [lia | intros H; now elim H]].
  - destruct (defaults a) eqn:Hdf.
    + exists 0%nat. split; [|split; [lia | intros H; now elim H]].
      rewrite main_unfold. unfold resolve_addresses, both_given in *.
      rewrite Hdf. destruct (origin a), (destination a); try discriminate;
        reflexivity.
    + rewrite (main_missing E a w Hb Hdf).
      destruct (get_addresses_cases w) as [(Hp & r & Hg) | (Hp & Hg)];
        rewrite Hg.
      * exists 0%nat. split; [|split; [lia | intros H; now elim H]].
        destruct r as [[o d]|e]; [apply Hmw | reflexivity].
      * unfold prompt_run.
        destruct (stdin w) as [|l1 [|l2 rest]] eqn:Hs.
        -- exists 0%nat.
           split; [reflexivity | split; [lia | intros H; now elim H]].
        -- exists 1%nat.
           split; [reflexivity | split; [lia | intros _; now repeat split]].
        -- exists 2%nat. rewrite Hmw.
           split; [reflexivity | split; [lia | intros _; now repeat split]].
Qed.


(** ** Runs that build on each other *)

Lemma get_addresses_saved (o d : val) (w : world) :
  defaults_file w = Document (saved_pair o d) ->
  get_addresses w = (Ok (o, d), w).
Proof.
  intros Hf.
  rewrite (get_addresses_truthy w (saved_pair o d));
    [reflexivity | rewrite Hf; reflexivity | reflexivity].
Qed.

(** X6: the addresses saved by a run with [--defaults] are the ones a
    later run without positional arguments asks the service about: it
    returns normally, sends its first request for exactly the saved
    origin and destination, and neither prompts nor touches the file. *)
Theorem saved_defaults_drive_later_runs (E1 E2 : env) (o d : string)
    (f1 f2 : option Z) (w : world) :
  defaults_file w <> Locked ->
  exists w1 out reqs,
    main E1 (Args (Some o) (Some d) f1 true) w = (Ok tt, w1)
    /\ main E2 (Args None None f2 false) w1
       = (Ok tt,
          extends w1 out (Request (VStr o) (VStr d) (time_time E2) :: reqs)).
Proof.
  intros Hw.
  rewrite (main_given E1 (Args (Some o) (Some d) f1 true) o d eq_refl eq_refl).
  destruct (main_with_cases E1 (Args (Some o) (Some d) f1 true)
              (VStr o) (VStr d) w)
    as [(_ & Hl & _) | (_ & out1 & reqs1 & -> & _)]; [now elim Hw|].
  cbn [defaults].
  match goal with
  | |- exists w1 _ _, (_, ?w0) = _ /\ _ => set (w1 := w0); exists w1
  end.
  assert (Hg : get_addresses w1 = (Ok (VStr o, VStr d), w1))
    by (apply get_addresses_saved; reflexivity).
  destruct (main_with_cases E2 (Args None None f2 false) (VStr o) (VStr d) w1)
    as [(Hdf & _) | (_ & out & reqs & Hm & _)]; [discriminate|].
  exists out, reqs. split; [reflexivity|].
  rewrite main_missing by reflexivity. rewrite Hg, Hm.
  cbn [defaults]. unfold extends. reflexivity.
Qed.

Lemma saved_defaults_drive_later_runs_witness :
  exists w1 out reqs,
    main (fixed_env (Ok (VList []))) (Args (Some "A") (Some "B") None true)
         fresh = (Ok tt, w1)
    /\ main (fixed_env (Ok sample_routes)) (Args None None (Some 5) false) w1
       = (Ok tt,
          extends w1 out
            (Request (VStr "A") (VStr "B")
                     (time_time (fixed_env (Ok sample_routes))) :: reqs)).
Proof.
  apply (saved_defaults_drive_later_runs
           (fixed_env (Ok (VList []))) (fixed_env (Ok sample_routes))
           "A" "B" None (Some 5) fresh).
  discriminate.
Defined.


Lemma extends_by_nothing (w : world) : extends w [] [] = w.
Proof. destruct w. unfold extends. cbn. now rewrite !app_nil_r. Qed.

Lemma extends_twice (w : world) (o1 o2 : list output)
    (r1 r2 : list request) :
  extends (extends w o1 r1) o2 r2 = extends w (o1 ++ o2) (r1 ++ r2).
Proof. unfold extends. cbn. now rewrite <- !app_assoc. Qed.

(** The guarded part of [main] is its current-ETA half followed, with
    [--future], by its future-ETA half. *)
Lemma query_and_report_split (E : env) (o d : val) (f : option Z)
    (w : world) :
  query_and_report E o d f w =
  (p <- current_report E o d ;;
   match f with
   | None => ret tt
   | Some n => future_report E (fst p) (snd p) n
   end) w.
Proof.
  unfold query_and_report, current_report, bind, lift, ret.
  destruct (eta_minutes E o d (time_time E) w) as [[[[[eta fo] fd] dist]|e] w1];
    [|reflexivity].
  destruct (leading_number dist) as [mi|e]; [|reflexivity].
  destruct (avg_speed mi eta) as [sp|e]; [|reflexivity].
  destruct (plus_minutes E (datetime_now E) eta) as [arr|e]; [|reflexivity].
  cbn [print write fst snd]. destruct f; reflexivity.
Qed.

Lemma future_report_extends (E : env) (fo fd : val) (n : Z) (w : world) :
  exists r out reqs, future_report E fo fd n w = (r, extends w out reqs).
Proof.
  unfold future_report. unfold bind at 1. rewrite eta_minutes_run.
  rewrite asked_extends.
  match goal with
  | |- context [obind ?x ?k] => destruct (obind x k) as [[[[e2 ?] ?] d2]|e]
  end; [|eexists _, _, _; reflexivity].
  rewrite bind_lift.
  destruct (leading_number d2) as [mi2|e]; [|eexists _, _, _; reflexivity].
  rewrite bind_lift.
  destruct (avg_speed mi2 e2) as [sp2|e]; [|eexists _, _, _; reflexivity].
  rewrite bind_lift.
  destruct (add (VInt n) e2) as [off|e]; [|eexists _, _, _; reflexivity].
  rewrite bind_lift.
  destruct (plus_minutes E (datetime_now E) off) as [arr2|e];
    [|eexists _, _, _; reflexivity].
  eexists (Ok tt), _, _. unfold print, write, extends.
  cbn [defaults_file stdin stdout requests]. rewrite app_nil_r.
  reflexivity.
Qed.

(** If a continuation only adds to what another one does, so do they
    after a common prefix. *)
Lemma bind_only_adds {A B} (pre : M A) (k1 k2 : A -> M B) (w : world) :
  (forall x w1, exists out reqs,
      k1 x w1 = (fst (k2 x w1), extends (snd (k2 x w1)) out reqs)) ->
  exists out reqs,
    (x <- pre ;; k1 x) w
    = (fst ((x <- pre ;; k2 x) w),
       extends (snd ((x <- pre ;; k2 x) w)) out reqs).
Proof.
  intros H. unfold bind. destruct (pre w) as [[x|e] w1].
  - apply H.
  - exists [], []. now rewrite extends_by_nothing.
Qed.

(** X7: asking for a future ETA never changes what the run prints or
    sends without it: the run with [--future N] ends like the run
    without (normally, or with the same uncaught exception), its output
    and its requests are those of the run without, followed by more,
    and it leaves the same file and the same pending input. *)
Theorem future_only_adds (E : env) (o d : option string) (b : bool)
    (n : Z) (w : world) :
  exists out reqs,
    main E (Args o d (Some n) b) w
    = (fst (main E (Args o d None b) w),
       extends (snd (main E (Args o d None b) w)) out reqs).
Proof.
  assert (Hg : forall o1 d1 w1, exists out reqs,
            try_except (query_and_report E o1 d1 (Some n)) report_error w1
            = (fst (try_except (query_and_report E o1 d1 None)
                               report_error w1),
               extends (snd (try_except (query_and_report E o1 d1 None)
                                        report_error w1)) out reqs)).
  { intros o1 d1 w1. unfold try_except.
    rewrite !query_and_report_split. unfold bind.
    destruct (current_report E o1 d1 w1) as [[[fo fd]|e] w0].
    - unfold ret. cbn [fst snd].
      destruct (future_report_extends E fo fd n w0) as (r & out & reqs & ->).
      destruct r as [[]|e].
      + exists out, reqs. reflexivity.
      + rewrite report_error_run. eexists _, reqs.
        unfold extends. cbn [defaults_file stdin stdout requests].
        rewrite <- app_assoc. reflexivity.
    - exists [], []. rewrite extends_by_nothing.
      destruct (report_error e w0). reflexivity. }
  rewrite !main_unfold.
  change (resolve_addresses (Args o d (Some n) b))
    with (resolve_addresses (Args o d None b)).
  apply bind_only_adds. intros [[o1 d1]|] w1.
  - unfold main_with. cbn [defaults future].
    apply bind_only_adds. intros _ w2. apply Hg.
  - exists [], []. now rewrite extends_by_nothing.
Qed.


(** ** How failures are reported *)

Lemma is_prefix_spec (p s : string) :
  is_prefix p s = true <-> exists post, s = p ++ post.
Proof.
  revert s. induction p as [|a p IH]; intros s; cbn [is_prefix].
  - split; [intros _; now exists s | reflexivity].
  - destruct s as [|b s].
    + split; [discriminate | intros (post & H); discriminate].
    + rewrite andb_true_iff, IH. split.
      * intros (Hab & post & ->). apply Ascii.eqb_eq in Hab. subst b.
        now exists post.
      * intros (post & H). cbn in H. injection H as -> ->.
        split; [apply Ascii.eqb_refl | now exists post].
Qed.

Lemma contains_spec (needle hay : string) :
  contains needle hay = true
  <-> exists pre post, hay = pre ++ needle ++ post.
Proof.
  induction hay as [|c hay IH].
  - cbn [contains]. rewrite orb_false_r, is_prefix_spec. split.
    + intros (post & H). now exists EmptyString, post.
    + intros (pre & post & H). destruct pre; [now exists post|discriminate].
  - cbn [contains]. rewrite orb_true_iff, is_prefix_spec, IH. split.
    + intros [(post & H) | (pre & post & ->)].
      * now exists EmptyString, post.
      * now exists (String c pre), post.
    + intros (pre & post & H). destruct pre as [|c' pre].
      * left. now exists post.
      * right. cbn in H. injection H as -> ->. now exists pre, post.
Qed.

(** X8: in a run with both addresses on the command line and without
    [--defaults], when the directions client raises an exception on the
    first request, [main] prints [Error: <text of the exception>],
    follows it with the "no route" line exactly when that text has
    ZERO_RESULTS as a substring, prints nothing else, sends no second
    request and returns normally. *)
Theorem client_exception_report (E : env) (o d : string) (f : option Z)
    (w : world) (e : exn) :
  gmaps_directions E (requests w) (Request (VStr o) (VStr d) (time_time E))
  = Raise e ->
  exists more,
    main E (Args (Some o) (Some d) f false) w
    = (Ok tt,
       World (defaults_file w) (stdin w)
         (stdout w ++ Print [Lit "Error: "; Lit (exn_str e)] :: more)
         (requests w ++ [Request (VStr o) (VStr d) (time_time E)]))
    /\ ((more = [Print [Lit "No route found between the specified addresses."]]
         /\ exists pre post, exn_str e = pre ++ "ZERO_RESULTS" ++ post)
        \/ (more = []
            /\ ~ exists pre post, exn_str e = pre ++ "ZERO_RESULTS" ++ post)).
Proof.
  intros Hg. eexists. split.
  - rewrite main_both_given. unfold main_with.
    cbn [defaults future].
    unfold bind at 1, ret, try_except, query_and_report.
    unfold bind at 1. rewrite eta_minutes_run, Hg. cbn [obind].
    rewrite report_error_run. reflexivity.
  - destruct (contains "ZERO_RESULTS" (exn_str e)) eqn:Hc.
    + left. split; [reflexivity|]. now apply contains_spec.
    + right. split; [reflexivity|]. intros H. apply contains_spec in H.
      congruence.
Qed.

Lemma client_exception_report_witness :
  exists more,
    main (fixed_env (Raise (Exn (LibraryError "ApiError") "NOT_FOUND")))
         (Args (Some "Atlantis") (Some "Paris") (Some 5) false) fresh
    = (Ok tt,
       World (defaults_file fresh) (stdin fresh)
         (stdout fresh ++ Print [Lit "Error: "; Lit "NOT_FOUND"] :: more)
         (requests fresh ++
          [Request (VStr "Atlantis") (VStr "Paris") 1700000000]))
    /\ ((more = [Print [Lit "No route found between the specified addresses."]]
         /\ exists pre post, "NOT_FOUND" = pre ++ "ZERO_RESULTS" ++ post)
        \/ (more = []
            /\ ~ exists pre post, "NOT_FOUND" = pre ++ "ZERO_RESULTS" ++ post)).
Proof.
  apply (client_exception_report
           (fixed_env (Raise (Exn (LibraryError "ApiError") "NOT_FOUND")))
           "Atlantis" "Paris" (Some 5) fresh
           (Exn (LibraryError "ApiError") "NOT_FOUND")).
  reflexivity.
Defined.

(** X9: in a run with both addresses on the command line and without
    [--defaults], when the first leg of the answer is a dictionary
    without the key 'duration_in_traffic', [main] prints only
    [Error: 'duration_in_traffic']: no route line, no ETA line, no second
    request. *)
Theorem missing_traffic_duration_report (E : env) (o d : string)
    (f : option Z) (w : world) (result : val)
    (leg : list (string * val)) :
  gmaps_directions E (requests w) (Request (VStr o) (VStr d) (time_time E))
  = Ok result ->
  first_leg result = Ok (VDict leg) ->
  lookup "duration_in_traffic" leg = None ->
  main E (Args (Some o) (Some d) f false) w
  = (Ok tt,
     World (defaults_file w) (stdin w)
       (stdout w ++ [Print [Lit "Error: "; Lit "'duration_in_traffic'"]])
       (requests w ++ [Request (VStr o) (VStr d) (time_time E)])).
Proof.
  intros Hg Hl Hk. rewrite main_both_given. unfold main_with.
  cbn [defaults future].
  unfold bind at 1, ret, try_except, query_and_report.
  unfold bind at 1. rewrite eta_minutes_run, Hg. cbn [obind].
  rewrite Hl. cbn [obind]. unfold leg_summary. cbn [getitem]. rewrite Hk.
  cbn [obind]. rewrite report_error_run. reflexivity.
Qed.

Lemma missing_traffic_duration_report_witness :
  main (fixed_env
          (Ok (VList [VDict [("legs",
                 VList [VDict [("distance", VDict [("text", VStr "3 mi")]);
                               ("duration", VDict [("value", VInt 600)])]])]])))
       (Args (Some "A") (Some "B") None false) fresh
  = (Ok tt,
     World (defaults_file fresh) (stdin fresh)
       (stdout fresh ++
        [Print [Lit "Error: "; Lit "'duration_in_traffic'"]])
       (requests fresh ++ [Request (VStr "A") (VStr "B") 1700000000])).
Proof.
  apply (missing_traffic_duration_report
           (fixed_env
              (Ok (VList [VDict [("legs",
                     VList [VDict [("distance", VDict [("text", VStr "3 mi")]);
                                   ("duration", VDict [("value", VInt 600)])]])]])))
           "A" "B" None fresh
           (VList [VDict [("legs",
              VList [VDict [("distance", VDict [("text", VStr "3 mi")]);
                            ("duration", VDict [("value", VInt 600)])]])]])
           [("distance", VDict [("text", VStr "3 mi")]);
            ("duration", VDict [("value", VInt 600)])]);
    reflexivity.
Defined.


(** ** Average speed *)

Lemma SFdiv_finite_sign (sx : bool) (mx : positive) (ex : Z) (sy : bool)
    (my : positive) (ey : Z) :
  match SFdiv prec emax (S754_finite sx mx ex) (S754_finite sy my ey) with
  | S754_zero s | S754_finite s _ _ | S754_infinity s => s = xorb sx sy
  | S754_nan => False
  end.
Proof.
  cbn [SFdiv]. unfold SFdiv_core_binary.
  match goal with
  | |- context [Z.div_eucl ?m (Zpos my)] =>
      assert (Hm : 0 <= m);
      [|destruct (Z.div_eucl m (Zpos my)) as [q r] eqn:Hdiv;
        assert (Hq : q = m / Zpos my) by (unfold Z.div; now rewrite Hdiv)]
  end.
  - match goal with
    | |- 0 <= match ?s with _ => _ end => destruct s
    end; try lia. apply Z.shiftl_nonneg. lia.
  - apply binary_round_aux_sign. rewrite Hq. apply Z.div_pos; lia.
Qed.

Lemma avg_speed_floats (distance_mi eta : float) :
  exists v,
    avg_speed (VFloat distance_mi) (VFloat eta) = Ok v
    /\ (SFltb fzero eta = false -> v = VInt 0).
Proof.
  unfold avg_speed. cbn [truediv number as_float obind].
  assert (H60 : float_of_int 60
                = Ok (S754_finite false 8444249301319680 (-47)))
    by reflexivity.
  rewrite H60. cbn [obind float_truediv is_fzero gt0].
  set (sixty := S754_finite false 8444249301319680 (-47)).
  set (hours := SFdiv prec emax eta sixty).
  destruct (SFltb fzero hours) eqn:Hh.
  - assert (Hz : is_fzero hours = false).
    { destruct hours; try reflexivity. discriminate. }
    cbn [number as_float obind]. unfold float_truediv. rewrite Hz.
    cbn [obind]. eexists. split; [reflexivity|].
    intros Heta. exfalso. subst hours.
    destruct eta as [s|s| |s m e]; try discriminate.
    + destruct s; discriminate.
    + destruct s; [|discriminate].
      pose proof (SFdiv_finite_sign true m e false 8444249301319680 (-47))
        as Hs.
      fold sixty in Hs. destruct (SFdiv prec emax (S754_finite true m e) sixty);
        try contradiction; cbn in Hs; subst; discriminate.
  - exists (VInt 0). split; [reflexivity | reflexivity].
Qed.


(** X10: on a float distance and a float ETA the speed computation
    never raises, whatever the two numbers (zero, negative, infinite,
    NaN, or an ETA so small that the hours underflow to zero): the
    division is reached only with hours above zero.  For an ETA that is
    not above zero the speed is the integer 0. *)
Theorem avg_speed_never_divides_by_zero (distance_mi eta : float) :
  exists v,
    avg_speed (VFloat distance_mi) (VFloat eta) = Ok v
    /\ (SFltb fzero eta = false -> v = VInt 0).
Proof. apply avg_speed_floats. Qed.

(** ** Reading the distance *)

Lemma read_digits_shift (s : string) (acc n acc' n' : Z) :
  snd (read_digits s acc n) = snd (read_digits s acc' n')
  /\ snd (fst (read_digits s acc n)) - n
     = snd (fst (read_digits s acc' n')) - n'.
Proof.
  revert acc n acc' n'. induction s as [|c r IH]; intros; cbn [read_digits].
  - cbn. split; [reflexivity | lia].
  - destruct (is_digit c).
    + destruct (IH (10 * acc + digit_val c) (n + 1)
                   (10 * acc' + digit_val c) (n' + 1)) as [H1 H2].
      split; [exact H1 | lia].
    + cbn. split; [reflexivity | lia].
Qed.

Lemma read_digits_count (s : string) (acc n : Z) :
  n <= snd (fst (read_digits s acc n)).
Proof.
  revert acc n. induction s as [|c r IH]; intros; cbn [read_digits].
  - cbn. lia.
  - destruct (is_digit c); [|cbn; lia].
    specialize (IH (10 * acc + digit_val c) (n + 1)). lia.
Qed.

Lemma read_digits_value (s : string) (acc n : Z) :
  0 <= acc -> 0 <= fst (fst (read_digits s acc n)).
Proof.
  revert acc n. induction s as [|c r IH]; intros acc n Ha; cbn [read_digits].
  - exact Ha.
  - destruct (is_digit c) eqn:Hc; [|exact Ha].
    apply IH. unfold is_digit in Hc. unfold digit_val.
    apply andb_true_iff in Hc as [H1 _]. apply Z.leb_le in H1. lia.
Qed.

(** What [read_digits] consumes are digits. *)
Lemma read_digits_chars (s : string) (acc n : Z) :
  exists ds,
    s = ds ++ snd (read_digits s acc n)
    /\ string_forall is_digit ds = true
    /\ (0 < snd (fst (read_digits s acc n)) - n ->
        exists c r, ds = String c r).
Proof.
  revert acc n. induction s as [|c r IH]; intros; cbn [read_digits].
  - exists EmptyString. cbn. repeat split. lia.
  - destruct (is_digit c) eqn:Hc.
    + destruct (IH (10 * acc + digit_val c) (n + 1)) as (ds & Hs & Hd & _).
      exists (String c ds). cbn. rewrite Hc, Hd. split; [|split].
      * f_equal. exact Hs.
      * reflexivity.
      * intros _. eauto.
    + exists EmptyString. cbn. repeat split. lia.
Qed.

Lemma string_forall_app (p : ascii -> bool) (a b : string) :
  string_forall p (a ++ b) = string_forall p a && string_forall p b.
Proof.
  induction a as [|c a IH]; cbn; [reflexivity|].
  now rewrite IH, andb_assoc.
Qed.

Lemma string_forall_impl (p q : ascii -> bool) (s : string) :
  (forall c, p c = true -> q c = true) ->
  string_forall p s = true -> string_forall q s = true.
Proof.
  intros Hpq. induction s as [|c r IH]; cbn; [reflexivity|].
  rewrite !andb_true_iff. intros [Hc Hr]. split; auto.
Qed.


Lemma digit_facts (c : ascii) :
  is_digit c = true ->
  isspace c = false
  /\ Ascii.eqb c "_" = false
  /\ Ascii.eqb c "-" = false
  /\ Ascii.eqb c "+" = false
  /\ Ascii.eqb c "." = false
  /\ Ascii.eqb c "," = false
  /\ Ascii.eqb (lower c) "i" = false
  /\ Ascii.eqb (lower c) "n" = false
  /\ Ascii.eqb (lower c) "e" = false.
Proof.
  destruct c as [[] [] [] [] [] [] [] []]; intros H;
    solve [discriminate H | repeat split; reflexivity].
Qed.

Lemma decimal_char_facts (c : ascii) :
  decimal_char c = true ->
  isspace c = false /\ Ascii.eqb c "_" = false.
Proof.
  destruct c as [[] [] [] [] [] [] [] []]; intros H;
    solve [discriminate H | repeat split; reflexivity].
Qed.

Lemma strip_plain (s : string) :
  string_forall (fun c => negb (isspace c)) s = true -> strip s = s.
Proof.
  intros H. unfold strip.
  assert (Hl : lstrip s = s).
  { destruct s as [|c r]; [reflexivity|]. cbn in *.
    apply andb_true_iff in H as [Hc _].
    destruct (isspace c); [discriminate | reflexivity]. }
  rewrite Hl. induction s as [|c r IH]; [reflexivity|].
  cbn in H. apply andb_true_iff in H as [Hc Hr].
  cbn [rstrip all_space]. destruct (isspace c); [discriminate|].
  cbn [andb]. f_equal. apply IH; [exact Hr|].
  destruct r as [|c' r']; [reflexivity|]. cbn in *.
  apply andb_true_iff in Hr as [Hc' _].
  destruct (isspace c'); [discriminate | reflexivity].
Qed.

Lemma float_strip_plain (s : string) :
  string_forall (fun c => negb (isspace c)) s = true -> float_strip s = s.
Proof.
  intros H. unfold float_strip.
  assert (Hl : float_lstrip s = s).
  { destruct s as [|c r]; [reflexivity|]. cbn in *.
    apply andb_true_iff in H as [Hc _]. unfold float_space.
    destruct (isspace c); [discriminate | reflexivity]. }
  rewrite Hl. induction s as [|c r IH]; [reflexivity|].
  cbn in H. apply andb_true_iff in H as [Hc Hr].
  cbn [float_rstrip all_float_space]. unfold float_space at 1.
  destruct (isspace c); [discriminate|].
  cbn [andb]. f_equal. apply IH; [exact Hr|].
  destruct r as [|c' r']; [reflexivity|]. cbn in *.
  apply andb_true_iff in Hr as [Hc' _]. unfold float_space.
  destruct (isspace c'); [discriminate | reflexivity].
Qed.

Lemma drop_underscores_plain (s : string) (prev : bool) :
  string_forall (fun c => negb (Ascii.eqb c "_")) s = true ->
  drop_underscores s prev false = Some s.
Proof.
  revert prev. induction s as [|c r IH]; intros prev H; [reflexivity|].
  cbn in H. apply andb_true_iff in H as [Hc Hr].
  cbn [drop_underscores]. destruct (Ascii.eqb c "_"); [discriminate|].
  cbn [andb]. now rewrite IH.
Qed.

(** The characters of a decimal number are digits and at most one
    point. *)
Lemma decimal_number_chars (s : string) :
  decimal_number s = true -> string_forall decimal_char s = true.
Proof.
  unfold decimal_number.
  destruct (read_digits_chars s 0 0) as (ds & Hs & Hd & _).
  destruct (read_digits s 0 0) as [[iv ic] r1]. cbn [snd] in Hs.
  intros H. apply andb_true_iff in H as [_ H].
  assert (Hds : string_forall decimal_char ds = true).
  { apply (string_forall_impl is_digit); [|exact Hd].
    intros c Hc. unfold decimal_char. now rewrite Hc. }
  rewrite Hs, string_forall_app, Hds. cbn [andb].
  destruct r1 as [|c r']; [reflexivity|].
  apply andb_true_iff in H as [Hc H].
  destruct (read_digits_chars r' 0 0) as (ds2 & Hs2 & Hd2 & _).
  destruct (read_digits r' 0 0) as [[v2 n2] r2]. cbn [snd] in Hs2.
  apply andb_true_iff in H as [_ H]. apply String.eqb_eq in H. subst r2.
  cbn [string_forall]. unfold decimal_char at 1. rewrite Hc, orb_true_r.
  cbn [andb]. rewrite Hs2, string_forall_app. cbn [string_forall].
  rewrite andb_true_r.
  apply (string_forall_impl is_digit); [|exact Hd2].
  intros c0 Hc0. unfold decimal_char. now rewrite Hc0.
Qed.

(** [float] accepts every decimal number. *)
Lemma parse_float_decimal (s : string) :
  decimal_number s = true ->
  exists m e10, 0 <= m /\ parse_float s = Some (decimal_to_float false m e10).
Proof.
  intros Hdec. pose proof (decimal_number_chars s Hdec) as Hch.
  unfold parse_float.
  rewrite drop_underscores_plain
    by (apply (string_forall_impl decimal_char); [|exact Hch];
        intros c Hc; destruct (decimal_char_facts c Hc) as [_ ->];
        reflexivity).
  unfold decimal_number in Hdec.
  pose proof (read_digits_chars s 0 0) as (ds & Hs & Hd & Hne).
  pose proof (read_digits_value s 0 0 ltac:(lia)) as Hv.
  destruct (read_digits s 0 0) as [[iv ic] r1] eqn:H1.
  cbn [fst snd] in *.
  apply andb_true_iff in Hdec as [Hic Hdec]. apply Z.ltb_lt in Hic.
  destruct (Hne ltac:(lia)) as (c & r & ->).
  cbn [string_forall] in Hd. apply andb_true_iff in Hd as [Hc _].
  destruct (digit_facts c Hc)
    as (_ & _ & Hm & Hp & _ & _ & Hi & Hn & _).
  assert (Hsign : read_sign s = (false, s)).
  { rewrite Hs. cbn. now rewrite Hm, Hp. }
  rewrite Hsign.
  assert (Hw : (String.eqb (lowercase s) "inf"
                || String.eqb (lowercase s) "infinity") = false
               /\ String.eqb (lowercase s) "nan" = false).
  { rewrite Hs. cbn. now rewrite Hi, Hn. }
  destruct Hw as [-> ->]. rewrite H1.
  destruct r1 as [|c1 r'].
  - assert (Hpos : (0 <? ic + 0) = true) by (apply Z.ltb_lt; lia).
    rewrite Hpos. cbn [read_exponent option_map].
    eexists _, _. split; [exact Hv | reflexivity].
  - apply andb_true_iff in Hdec as [Hdot Hdec]. rewrite Hdot.
    destruct (read_digits_shift r' 0 0 iv 0) as [Hrest Hcnt].
    pose proof (read_digits_value r' iv 0 Hv) as Hv2.
    destruct (read_digits r' 0 0) as [[v0 n0] r0].
    destruct (read_digits r' iv 0) as [[v2 n2] r2].
    cbn [fst snd] in *. subst r2.
    apply andb_true_iff in Hdec as [Hn0 Hr0].
    apply Z.ltb_lt in Hn0. apply String.eqb_eq in Hr0. subst r0.
    assert (Hpos : (0 <? ic + n2) = true) by (apply Z.ltb_lt; lia).
    rewrite Hpos. cbn [read_exponent option_map].
    eexists _, _. split; [exact Hv2 | reflexivity].
Qed.


Lemma leading_number_of_number_unit (txt : string) :
  number_unit txt = true ->
  exists m e10,
    0 <= m
    /\ leading_number (VStr txt) = Ok (VFloat (decimal_to_float false m e10)).
Proof.
  unfold number_unit, leading_number.
  destruct (split txt) as [|num [|u [|x rest]]]; try discriminate.
  intros Hdec. cbn [to_float].
  rewrite float_strip_plain.
  - destruct (parse_float_decimal num Hdec) as (m & e10 & Hm & ->).
    exists m, e10. split; [exact Hm | reflexivity].
  - apply (string_forall_impl decimal_char);
      [|apply decimal_number_chars; exact Hdec].
    intros c Hc. destruct (decimal_char_facts c Hc) as [-> _]. reflexivity.
Qed.

(** X11: in a run with both addresses on the command line, without
    [--defaults] and without [--future], when the service's answer has a
    first leg from which [eta_minutes] reads a float duration and a
    distance text of the form [<number> <unit>], and the clock can add
    the minutes, [main] prints exactly the route line and the
    current-ETA line (no error line), with the distance parsed from the
    text and the speed computed from it, sends the one request and
    returns normally. *)
Theorem well_formed_answer_prints_eta (E : env) (o d : string) (w : world)
    (result leg a b : val) (eta : float) (txt : string) (arr : datetime) :
  gmaps_directions E (requests w) (Request (VStr o) (VStr d) (time_time E))
  = Ok result ->
  first_leg result = Ok leg ->
  leg_summary leg = Ok (VFloat eta, a, b, VStr txt) ->
  number_unit txt = true ->
  plus_minutes E (datetime_now E) (VFloat eta) = Ok arr ->
  exists miles speed,
    leading_number (VStr txt) = Ok (VFloat miles)
    /\ avg_speed (VFloat miles) (VFloat eta) = Ok speed
    /\ main E (Args (Some o) (Some d) None false) w
       = (Ok tt,
          World (defaults_file w) (stdin w)
            (stdout w ++
             [Print [Lit "Route: "; Str a; Lit " → "; Str b; Lit " (";
                     Str (VStr txt); Lit ")"];
              Print [Lit "Current ETA: "; Clock arr; Lit " (";
                     Fixed1 (VFloat eta); Lit " min, ";
                     Fixed1 (VFloat miles); Lit " mi @ "; Fixed1 speed;
                     Lit " mph)"]])
            (requests w ++ [Request (VStr o) (VStr d) (time_time E)])).
Proof.
  intros Hg Hl Hs Hfmt Hclock.
  destruct (leading_number_of_number_unit txt Hfmt) as (m & e10 & _ & Hmi).
  destruct (avg_speed_floats (decimal_to_float false m e10) eta)
    as (speed & Hsp & _).
  eexists _, speed. split; [exact Hmi|]. split; [exact Hsp|].
  rewrite main_both_given. unfold main_with. cbn [defaults future].
  unfold bind at 1, ret, try_except, query_and_report.
  unfold bind at 1. rewrite eta_minutes_run, Hg. cbn [obind].
  rewrite Hl. cbn [obind]. rewrite Hs.
  rewrite bind_lift, Hmi, bind_lift, Hsp, bind_lift, Hclock.
  unfold asked, print, write, bind.
  cbn [defaults_file stdin stdout requests].
  rewrite <- app_assoc. reflexivity.
Qed.

Lemma well_formed_answer_prints_eta_witness :
  exists miles speed,
    leading_number (VStr "32.4 mi") = Ok (VFloat miles)
    /\ avg_speed (VFloat miles)
         (VFloat (S754_finite false 5742089524897382 (-47))) = Ok speed
    /\ main (fixed_env (Ok sample_routes))
            (Args (Some "googleplex") (Some "apple campus") None false) fresh
       = (Ok tt,
          World (defaults_file fresh) (stdin fresh)
            (stdout fresh ++
             [Print [Lit "Route: ";
                     Str (VStr "1600 Amphitheatre Pkwy, Mountain View, CA 94043, USA");
                     Lit " → ";
                     Str (VStr "1 Infinite Loop, Cupertino, CA 95014, USA");
                     Lit " ("; Str (VStr "32.4 mi"); Lit ")"];
              Print [Lit "Current ETA: "; Clock 0; Lit " (";
                     Fixed1 (VFloat (S754_finite false 5742089524897382 (-47)));
                     Lit " min, ";
                     Fixed1 (VFloat miles); Lit " mi @ "; Fixed1 speed;
                     Lit " mph)"]])
            (requests fresh ++
             [Request (VStr "googleplex") (VStr "apple campus")
                      (time_time (fixed_env (Ok sample_routes)))])).
Proof.
  apply (well_formed_answer_prints_eta
           (fixed_env (Ok sample_routes)) "googleplex" "apple campus" fresh
           sample_routes (sample_leg 2447 "32.4 mi")
           (VStr "1600 Amphitheatre Pkwy, Mountain View, CA 94043, USA")
           (VStr "1 Infinite Loop, Cupertino, CA 95014, USA")
           (S754_finite false 5742089524897382 (-47)) "32.4 mi" 0);
    vm_compute; reflexivity.
Defined.


Lemma drop_underscores_digits_comma (ds r : string) (prev : bool) :
  string_forall is_digit ds = true ->
  drop_underscores (ds ++ String "," r) prev false
  = option_map (fun t => ds ++ String "," t) (drop_underscores r false false).
Proof.
  revert prev. induction ds as [|c ds IH]; intros prev Hd.
  - cbn [append drop_underscores].
    change (Ascii.eqb "," "_") with false. change (is_digit ",") with false.
    cbn [andb]. destruct (drop_underscores r false false); reflexivity.
  - cbn in Hd. apply andb_true_iff in Hd as [Hc Hd].
    destruct (digit_facts c Hc) as (_ & Hu & _).
    cbn [append drop_underscores]. rewrite Hu, Hc. cbn [andb negb].
    rewrite (IH true Hd).
    destruct (drop_underscores r false false); reflexivity.
Qed.

Lemma read_digits_stop (ds r : string) (acc n : Z) :
  string_forall is_digit ds = true ->
  snd (read_digits (ds ++ String "," r) acc n) = String "," r.
Proof.
  revert acc n. induction ds as [|c ds IH]; intros acc n Hd.
  - reflexivity.
  - cbn in Hd. apply andb_true_iff in Hd as [Hc Hd].
    cbn [append read_digits]. rewrite Hc. apply IH. exact Hd.
Qed.

(** [float] rejects digits followed by a comma, whatever comes next. *)
Lemma parse_float_rejects_comma (c : ascii) (ds r : string) :
  string_forall is_digit (String c ds) = true ->
  parse_float (String c ds ++ String "," r) = None.
Proof.
  intros Hd. unfold parse_float.
  rewrite (drop_underscores_digits_comma _ r false Hd).
  destruct (drop_underscores r false false) as [t|]; [|reflexivity].
  cbn [option_map].
  pose proof Hd as Hd'. cbn in Hd'. apply andb_true_iff in Hd' as [Hc _].
  destruct (digit_facts c Hc) as (_ & _ & Hm & Hp & _ & _ & Hi & Hn & _).
  assert (Hsign : read_sign (String c ds ++ String "," t)
                  = (false, String c ds ++ String "," t)).
  { cbn. now rewrite Hm, Hp. }
  rewrite Hsign.
  assert (Hw : (String.eqb (lowercase (String c ds ++ String "," t)) "inf"
                || String.eqb (lowercase (String c ds ++ String "," t))
                              "infinity") = false
               /\ String.eqb (lowercase (String c ds ++ String "," t)) "nan"
                  = false).
  { cbn. now rewrite Hi, Hn. }
  destruct Hw as [-> ->].
  pose proof (read_digits_stop (String c ds) t 0 0 Hd) as Hstop.
  destruct (read_digits (String c ds ++ String "," t) 0 0) as [[iv ic] r1].
  cbn [snd] in Hstop. subst r1.
  change (Ascii.eqb "," ".") with false. cbn iota.
  destruct (0 <? ic + 0); reflexivity.
Qed.

Lemma float_rstrip_after_plain (ds r : string) (c : ascii) :
  string_forall (fun x => negb (isspace x)) ds = true ->
  float_space c = false ->
  float_rstrip (ds ++ String c r) = ds ++ String c (float_rstrip r).
Proof.
  intros Hd Hc. induction ds as [|a ds IH].
  - cbn [append float_rstrip all_float_space]. now rewrite Hc.
  - cbn in Hd. apply andb_true_iff in Hd as [Ha Hd].
    cbn [append float_rstrip all_float_space]. unfold float_space at 1.
    destruct (isspace a); [discriminate|]. cbn [andb].
    now rewrite (IH Hd).
Qed.

Lemma leading_number_rejects_comma (txt : string) (c : ascii)
    (ds rest : string) (more : list string) :
  split txt = (String c ds ++ String "," rest) :: more ->
  string_forall is_digit (String c ds) = true ->
  leading_number (VStr txt)
  = Raise (Exn ValueError
             ("could not convert string to float: "
              ++ repr_str (String c ds ++ String "," rest))).
Proof.
  intros Hsp Hd. unfold leading_number. rewrite Hsp. cbn [to_float].
  assert (Hst : float_strip (String c ds ++ String "," rest)
                = String c ds ++ String "," (float_rstrip rest)).
  { unfold float_strip.
    pose proof Hd as Hd'. cbn in Hd'. apply andb_true_iff in Hd' as [Hc _].
    destruct (digit_facts c Hc) as (Hsp' & _).
    assert (Hl : float_lstrip (String c ds ++ String "," rest)
                 = String c ds ++ String "," rest)
      by (cbn; unfold float_space; now rewrite Hsp').
    rewrite Hl. apply float_rstrip_after_plain; [|reflexivity].
    apply (string_forall_impl is_digit); [|exact Hd].
    intros x Hx. destruct (digit_facts x Hx) as (-> & _). reflexivity. }
  rewrite Hst, (parse_float_rejects_comma c ds _ Hd). reflexivity.
Qed.

Lemma contains_needs_first (a : ascii) (needle hay : string) :
  string_forall (fun c => negb (Ascii.eqb a c)) hay = true ->
  contains (String a needle) hay = false.
Proof.
  induction hay as [|h hay IH]; intros H; [reflexivity|].
  cbn in H. apply andb_true_iff in H as [Hh Hr].
  cbn [contains is_prefix].
  destruct (Ascii.eqb a h); [discriminate|]. cbn [andb orb]. auto.
Qed.

Lemma grouped_char_facts (c : ascii) :
  grouped_char c = true -> negb (Ascii.eqb "Z" c) = true.
Proof.
  destruct c as [[] [] [] [] [] [] [] []]; intros H;
    solve [discriminate H | reflexivity].
Qed.

Lemma grouped_char_repr (c : ascii) :
  grouped_char c = true ->
  Ascii.eqb c "'" = false /\ repr_char "'" c = String c EmptyString.
Proof.
  destruct c as [[] [] [] [] [] [] [] []]; intros H;
    solve [discriminate H | split; reflexivity].
Qed.

(** Value, commas and points are written by [repr] as they are,
    between single quotes. *)
Lemma repr_str_grouped (s : string) :
  string_forall grouped_char s = true ->
  repr_str s = String "'" (s ++ "'").
Proof.
  intros H.
  assert (Hq : has_char "'" s = false).
  { induction s as [|c r IH]; [reflexivity|].
    cbn in H. apply andb_true_iff in H as [Hc Hr].
    destruct (grouped_char_repr c Hc) as [Hc' _].
    cbn [has_char]. rewrite Hc'. cbn [orb]. exact (IH Hr). }
  unfold repr_str, repr_quote. rewrite Hq. cbn [andb]. f_equal.
  induction s as [|c r IH]; [reflexivity|].
  cbn in H. apply andb_true_iff in H as [Hc Hr].
  destruct (grouped_char_repr c Hc) as [_ Hc'].
  cbn [repr_body has_char] in *. rewrite Hc'. cbn [append]. f_equal.
  apply IH; [exact Hr|].
  apply orb_false_iff in Hq as [_ Hq]. exact Hq.
Qed.

(** X12: a distance text whose first word is a number written with
    thousands separators (digits, then a comma, then digits, commas and
    points, as in "1,234 mi") cannot be read by [float]: a run with both
    addresses on the command line and without [--defaults] prints only
    [Error: could not convert string to float: '<word>'], neither the
    route line nor an ETA line, although the service answered, and sends
    no second request. *)
Theorem thousands_separator_is_an_error (E : env) (o d : string)
    (f : option Z) (w : world) (result leg eta a b : val) (txt : string)
    (c : ascii) (ds rest : string) (more : list string) :
  gmaps_directions E (requests w) (Request (VStr o) (VStr d) (time_time E))
  = Ok result ->
  first_leg result = Ok leg ->
  leg_summary leg = Ok (eta, a, b, VStr txt) ->
  split txt = (String c ds ++ String "," rest) :: more ->
  string_forall is_digit (String c ds) = true ->
  string_forall grouped_char rest = true ->
  main E (Args (Some o) (Some d) f false) w
  = (Ok tt,
     World (defaults_file w) (stdin w)
       (stdout w ++
        [Print [Lit "Error: ";
                Lit ("could not convert string to float: "
                     ++ repr_str (String c ds ++ String "," rest))]])
       (requests w ++ [Request (VStr o) (VStr d) (time_time E)])).
Proof.
  intros Hg Hl Hs Hsp Hd Hrest.
  rewrite main_both_given. unfold main_with. cbn [defaults future].
  unfold bind at 1, ret, try_except, query_and_report.
  unfold bind at 1. rewrite eta_minutes_run, Hg. cbn [obind].
  rewrite Hl. cbn [obind]. rewrite Hs.
  rewrite bind_lift, (leading_number_rejects_comma txt c ds rest more Hsp Hd).
  rewrite report_error_run. cbn [exn_str].
  assert (Hds : string_forall grouped_char (String c ds) = true).
  { apply (string_forall_impl is_digit); [|exact Hd].
    intros x Hx. unfold grouped_char. now rewrite Hx. }
  assert (Hword : string_forall grouped_char
                    (String c ds ++ String "," rest) = true).
  { rewrite string_forall_app, Hds. cbn [string_forall andb].
    exact Hrest. }
  rewrite contains_needs_first; [reflexivity|].
  rewrite (repr_str_grouped _ Hword).
  assert (Hg1 : forall t, string_forall grouped_char t = true ->
            string_forall (fun x => negb (Ascii.eqb "Z" x)) t = true).
  { intros t. apply string_forall_impl. exact grouped_char_facts. }
  rewrite string_forall_app. cbn [string_forall andb].
  rewrite string_forall_app, (Hg1 _ Hword). reflexivity.
Qed.

Lemma thousands_separator_is_an_error_witness :
  main (fixed_env
          (Ok (VList [VDict [("legs", VList [sample_leg 90000 "1,234 mi"])]])))
       (Args (Some "Seattle") (Some "Miami") None false) fresh
  = (Ok tt,
     World (defaults_file fresh) (stdin fresh)
       (stdout fresh ++
        [Print [Lit "Error: ";
                Lit ("could not convert string to float: "
                     ++ repr_str ("1" ++ String "," "234"))]])
       (requests fresh ++
        [Request (VStr "Seattle") (VStr "Miami")
                 (time_time (fixed_env (Ok (VList []))))])).
Proof.
  apply (thousands_separator_is_an_error
           (fixed_env
              (Ok (VList [VDict [("legs",
                                  VList [sample_leg 90000 "1,234 mi"])]])))
           "Seattle" "Miami" None fresh
           (VList [VDict [("legs", VList [sample_leg 90000 "1,234 mi"])]])
           (sample_leg 90000 "1,234 mi")
           (VFloat (S754_finite false 6597069766656000 (-42)))
           (VStr "1600 Amphitheatre Pkwy, Mountain View, CA 94043, USA")
           (VStr "1 Infinite Loop, Cupertino, CA 95014, USA")
           "1,234 mi" "1" EmptyString "234" ["mi"]);
    vm_compute; reflexivity.
Defined.


(** ** Prompted addresses *)

Lemma lstrip_spec (s : string) :
  exists pre,
    s = pre ++ lstrip s
    /\ all_space pre = true
    /\ starts_with_space (lstrip s) = false.
Proof.
  induction s as [|c r (pre & Hs & Hp & Hst)].
  - exists EmptyString. repeat split.
  - cbn [lstrip]. destruct (isspace c) eqn:Hc.
    + exists (String c pre). cbn. rewrite Hc, Hp. repeat split.
      * f_equal. exact Hs.
      * exact Hst.
    + exists EmptyString. cbn. rewrite Hc. repeat split.
Qed.

Lemma all_space_app (a b : string) :
  all_space (a ++ b) = all_space a && all_space b.
Proof.
  induction a as [|c a IH]; cbn; [reflexivity|].
  now rewrite IH, andb_assoc.
Qed.

Lemma rstrip_spec (s : string) :
  exists post,
    s = rstrip s ++ post
    /\ all_space post = true
    /\ ends_with_space (rstrip s) = false.
Proof.
  induction s as [|c r (post & Hs & Hp & He)].
  - exists EmptyString. repeat split.
  - cbn [rstrip]. destruct (all_space (String c r)) eqn:Ha.
    + exists (String c r). repeat split. exact Ha.
    + exists post. split; [cbn; f_equal; exact Hs|]. split; [exact Hp|].
      destruct (rstrip r) as [|c' r'] eqn:Hr.
      * cbn. cbn in Hs. subst r. cbn in Ha. rewrite Hp, andb_true_r in Ha.
        exact Ha.
      * exact He.
Qed.

Lemma rstrip_keeps_start (s : string) :
  starts_with_space s = false -> starts_with_space (rstrip s) = false.
Proof.
  destruct s as [|c r]; [reflexivity|]. cbn [starts_with_space rstrip].
  intros Hc. cbn [all_space]. rewrite Hc. cbn [andb]. exact Hc.
Qed.

Lemma strip_spec (s : string) : trimmed s (strip s).
Proof.
  unfold trimmed, strip.
  destruct (lstrip_spec s) as (pre & Hs & Hp & Hst).
  destruct (rstrip_spec (lstrip s)) as (post & Hs' & Hp' & He).
  exists pre, post. repeat split; try assumption.
  - rewrite <- Hs'. exact Hs.
  - apply rstrip_keeps_start. exact Hst.
Qed.

Lemma strip_of_whitespace (s : string) :
  all_space s = true -> strip s = EmptyString.
Proof.
  intros H. unfold strip.
  assert (Hl : lstrip s = EmptyString).
  { induction s as [|c r IH]; [reflexivity|]. cbn in H.
    apply andb_true_iff in H as [Hc Hr]. cbn [lstrip]. rewrite Hc. auto. }
  now rewrite Hl.
Qed.

(** X13: when [get_addresses] falls back to prompting and two lines can
    be read, it returns each line without its surrounding whitespace:
    the answer is the line minus a whitespace prefix and a whitespace
    suffix, and neither begins nor ends with whitespace.  A line of
    whitespace only becomes the empty address, which is returned like
    any other: nothing is asked again. *)
Theorem prompted_addresses_are_trimmed (w : world) (l1 l2 : string)
    (rest : list string) :
  prompt_fallback (defaults_file w) = true ->
  stdin w = l1 :: l2 :: rest ->
  exists o d w',
    get_addresses w = (Ok (VStr o, VStr d), w')
    /\ stdin w' = rest
    /\ trimmed l1 o /\ trimmed l2 d
    /\ (all_space l1 = true -> o = EmptyString)
    /\ (all_space l2 = true -> d = EmptyString).
Proof.
  intros Hp Hs.
  destruct (get_addresses_cases w) as [(Hp' & _) | (_ & Hg)]; [congruence|].
  rewrite Hg. unfold prompt_run. rewrite Hs.
  eexists _, _, _. split; [reflexivity|]. split; [reflexivity|].
  split; [apply strip_spec|]. split; [apply strip_spec|].
  split; apply strip_of_whitespace.
Qed.

Lemma prompted_addresses_are_trimmed_witness :
  exists o d w',
    get_addresses (World Missing ["  Seattle, WA "; "   "; "x"] [] [])
    = (Ok (VStr o, VStr d), w')
    /\ stdin w' = ["x"]
    /\ trimmed "  Seattle, WA " o /\ trimmed "   " d
    /\ (all_space "  Seattle, WA " = true -> o = EmptyString)
    /\ (all_space "   " = true -> d = EmptyString).
Proof.
  apply (prompted_addresses_are_trimmed
           (World Missing ["  Seattle, WA "; "   "; "x"] [] [])
           "  Seattle, WA " "   " ["x"]); reflexivity.
Defined.


(** ** Start of the script *)

(** X14: when the API key is not set, or set to the empty string, the
    module initialisation prints the three lines of the missing-key
    diagnostic and exits with status 1, whatever the client constructor
    and the probe would do: neither is tried, and the exit is not taken
    for a connection failure by the [except Exception] clause around
    it. *)
Theorem missing_key_is_fatal (k : option string)
    (client : string -> outcome unit) (probe : outcome val) (w : world) :
  k = None \/ k = Some EmptyString ->
  module_init (Setup k client probe) w
  = (Exited 1, printed w missing_key_lines).
Proof.
  intros [-> | ->]; reflexivity.
Qed.

Lemma missing_key_is_fatal_witness :
  module_init (Setup (Some EmptyString) (fun _ => Ok tt)
                     (Raise (Exn (LibraryError "Timeout") "timed out")))
              fresh
  = (Exited 1, printed fresh missing_key_lines).
Proof.
  apply (missing_key_is_fatal (Some EmptyString) (fun _ => Ok tt)
           (Raise (Exn (LibraryError "Timeout") "timed out")) fresh).
  right. reflexivity.
Defined.

Lemma module_init_cases (S : setup) (w : world) :
  module_init S w =
  match api_key S with
  | None => (Exited 1, printed w missing_key_lines)
  | Some k =>
      if String.eqb k EmptyString
      then (Exited 1, printed w missing_key_lines)
      else match new_client S k with
           | Raise e => (Exited 1, printed w (bad_client_lines e))
           | Ok c =>
               match geocode_probe S with
               | Raise e => (Exited 1, printed w (no_connection_lines e))
               | Ok _ => (Returned c, w)
               end
           end
  end.
Proof.
  unfold module_init, get_gmaps_client.
  destruct (api_key S) as [k|]; [|reflexivity].
  cbn [key_missing truthy]. destruct (String.eqb k EmptyString);
    [reflexivity|]. cbn [negb].
  destruct (new_client S k) as [[]|e]; [|reflexivity].
  destruct (geocode_probe S); reflexivity.
Qed.

(** X15: the module initialisation either returns, having printed
    nothing, and this happens exactly when the key is set and not
    empty, the client constructor accepts it and the probe request
    succeeds; or it exits with status 1 after printing one diagnostic,
    whose first line tells the three causes apart.  No exception ever
    leaves it. *)
Theorem module_init_outcomes (S : setup) (w : world) :
  (module_init S w = (Returned tt, w)
   /\ exists k v, api_key S = Some k /\ k <> EmptyString
                  /\ new_client S k = Ok tt /\ geocode_probe S = Ok v)
  \/ (module_init S w = (Exited 1, printed w missing_key_lines)
      /\ (api_key S = None \/ api_key S = Some EmptyString))
  \/ (exists k e,
        module_init S w = (Exited 1, printed w (bad_client_lines e))
        /\ api_key S = Some k /\ k <> EmptyString
        /\ new_client S k = Raise e)
  \/ (exists k e,
        module_init S w = (Exited 1, printed w (no_connection_lines e))
        /\ api_key S = Some k /\ k <> EmptyString
        /\ new_client S k = Ok tt /\ geocode_probe S = Raise e).
Proof.
  rewrite module_init_cases.
  destruct (api_key S) as [k|]; [|right; left; split; auto].
  destruct (String.eqb_spec k EmptyString) as [->|Hk];
    [right; left; split; auto|].
  destruct (new_client S k) as [[]|e] eqn:Hc.
  - destruct (geocode_probe S) as [v|e] eqn:Hp.
    + left. split; [reflexivity|]. exists k, v. auto.
    + right. right. right. exists k, e. auto.
  - right. right. left. exists k, e. auto.
Qed.

(** X16: run as a program, the script reaches [main] only after the
    module initialisation has returned.  When the initialisation exits,
    the process ends with that status and nothing but the diagnostic has
    happened: no request was sent, no input read, the defaults file is
    untouched.  When it returns, the program does what [main] does. *)
Theorem script_runs_main_after_init (S : setup) (E : env) (a : args)
    (w : world) :
  (module_init S w = (Returned tt, w)
   /\ script S E a w
      = (match fst (main E a w) with
         | Ok r => Returned r
         | Raise e => Raised e
         end, snd (main E a w)))
  \/ (exists out,
        module_init S w = (Exited 1, printed w out)
        /\ script S E a w = (Exited 1, printed w out)
        /\ out <> []).
Proof.
  unfold script. rewrite module_init_cases.
  destruct (api_key S) as [k|];
    [|right; eexists; repeat split; discriminate].
  destruct (String.eqb k EmptyString);
    [right; eexists; repeat split; discriminate|].
  destruct (new_client S k) as [[]|e];
    [|right; eexists; repeat split; discriminate].
  destruct (geocode_probe S) as [v|e];
    [|right; eexists; repeat split; discriminate].
  left. split; [reflexivity|].
  destruct (main E a w) as [[r|e] w2]; reflexivity.
Qed.

(** ** Running out of input *)

(** X17: when [main] has to prompt (an address is missing, no
    [--defaults], no usable defaults file) and fewer than two lines can
    be read, [input] raises EOFError and nothing catches it: [main]
    ends with that exception after printing the notice and the prompts
    it got to, without sending any request. *)
Theorem prompt_without_input_raises (E : env) (a : args) (w : world) :
  both_given a = false ->
  defaults a = false ->
  prompt_fallback (defaults_file w) = true ->
  (length (stdin w) < 2)%nat ->
  exists prompts,
    main E a w
    = (Raise (Exn EOFError "EOF when reading a line"),
       World (defaults_file w) []
         (stdout w ++
          Print [Lit "No default addresses found. Please provide addresses."]
          :: Prompt "Enter origin address or 'lat,lng': " :: prompts)
         (requests w))
    /\ (prompts = []
        \/ prompts = [Prompt "Enter destination address or 'lat,lng': "]).
Proof.
  intros Hb Hd Hp Hlen. rewrite (main_missing E a w Hb Hd).
  destruct (get_addresses_cases w) as [(Hp' & _) | (_ & ->)]; [congruence|].
  unfold prompt_run.
  destruct (stdin w) as [|l1 [|l2 rest]]; cbn [length] in Hlen; try lia.
  - exists []. split; [reflexivity | now left].
  - eexists. split; [reflexivity | now right].
Qed.

Lemma prompt_without_input_raises_witness :
  exists prompts,
    main (fixed_env (Ok sample_routes)) (Args (Some "A") None None false)
         (World Missing ["only one line"] [] [])
    = (Raise (Exn EOFError "EOF when reading a line"),
       World Missing []
         ([] ++
          Print [Lit "No default addresses found. Please provide addresses."]
          :: Prompt "Enter origin address or 'lat,lng': " :: prompts)
         [])
    /\ (prompts = []
        \/ prompts = [Prompt "Enter destination address or 'lat,lng': "]).
Proof.
  apply (prompt_without_input_raises
           (fixed_env (Ok sample_routes)) (Args (Some "A") None None false)
           (World Missing ["only one line"] [] []));
    try reflexivity.
  simpl. lia.
Defined.

End DriveTimeExtras.
